(** * Post Muse: the posting back end of [src/main.py]

    A shallow embedding of the FastAPI application: the SQLite tables as
    lists of rows, the endpoints as computations in a state-and-exception
    monad, and everything outside the repository (uuid4, the clock, bcrypt,
    Fernet, tweepy, the Instagram Graph API, Python's [str()] renderers) as
    fields of an environment record. *)

From Stdlib Require Import ZArith List Bool String Ascii Lia.
From Stdlib Require Import Permutation Sorted.
Import ListNotations.
Open Scope string_scope.
Open Scope list_scope.
Open Scope Z_scope.

(** ** Python strings and bytes

    A Python [str] is a sequence of code points in [0, 0x10FFFF]; lone
    surrogates are legal members of the type.  [bytes] is a sequence of
    integers in [0, 255]. *)

Definition str := list Z.
Definition bytes := list Z.

Definition is_str (s : str) : Prop := Forall (fun c => 0 <= c < 0x110000) s.
Definition is_bytes (b : bytes) : Prop := Forall (fun x => 0 <= x < 256) b.
Definition is_ascii (b : list Z) : Prop := Forall (fun x => 0 <= x < 0x80) b.

(** A source literal such as ["twitter"]. *)
Definition lit (s : string) : str :=
  map (fun a => Z.of_N (N_of_ascii a)) (list_ascii_of_string s).

Fixpoint str_eqb (a b : str) : bool :=
  match a, b with
  | [], [] => true
  | x :: a', y :: b' => (x =? y) && str_eqb a' b'
  | _, _ => false
  end.

(** [x in xs] on a list of strings. *)
Definition str_in (x : str) (xs : list str) : bool := existsb (str_eqb x) xs.

(** ** Exceptions *)

Inductive exn : Type :=
| HTTPException (status_code : Z) (detail : str)
| RequestValidationError      (* request body rejected by its pydantic model *)
| ValidationError             (* pydantic model built inside a handler *)
| IntegrityError              (* sqlite3 constraint violation *)
| UnicodeEncodeError
| UnicodeDecodeError
| InvalidToken                (* cryptography.fernet *)
| ValueError (msg : str)      (* raised by a field validator *)
| LibraryError (msg : str).   (* any other exception of a library call *)

Inductive result (A : Type) : Type :=
| Ok (a : A)
| Raise (e : exn).
Arguments Ok {A} a.
Arguments Raise {A} e.

Definition rbind {A B} (r : result A) (k : A -> result B) : result B :=
  match r with
  | Ok a => k a
  | Raise e => Raise e
  end.

Definition rmap {A B} (f : A -> B) (r : result A) : result B :=
  rbind r (fun a => Ok (f a)).

Notation "'let*' x ':=' r 'in' k" := (rbind r (fun x => k))
  (at level 10, x name, r at level 100, k at level 200).

(** ** The UTF-8 codec behind [str.encode()] and [bytes.decode()]

    Both calls use Python's default codec, UTF-8 with [errors="strict"]:
    encoding refuses surrogate code points, decoding accepts exactly the
    well-formed sequences (no overlong forms, no surrogates, nothing above
    0x10FFFF). *)

Definition is_surrogate (c : Z) : bool := (0xD800 <=? c) && (c <=? 0xDFFF).

Definition utf8_encode_char (c : Z) : result bytes :=
  if c <? 0 then Raise UnicodeEncodeError
  else if c <? 0x80 then Ok [c]
  else if c <? 0x800 then Ok [0xC0 + c / 64; 0x80 + c mod 64]
  else if c <? 0x10000 then
    if is_surrogate c then Raise UnicodeEncodeError
    else Ok [0xE0 + c / 4096; 0x80 + (c / 64) mod 64; 0x80 + c mod 64]
  else if c <? 0x110000 then
    Ok [0xF0 + c / 262144; 0x80 + (c / 4096) mod 64;
        0x80 + (c / 64) mod 64; 0x80 + c mod 64]
  else Raise UnicodeEncodeError.

Fixpoint utf8_encode (s : str) : result bytes :=
  match s with
  | [] => Ok []
  | c :: s' =>
      let* b := utf8_encode_char c in
      let* bs := utf8_encode s' in
      Ok (b ++ bs)
  end.

(** A string UTF-8 can encode: code points, none of them a surrogate. *)
Definition is_text (s : str) : Prop :=
  is_str s /\ Forall (fun c => is_surrogate c = false) s.

Definition is_cont (b : Z) : bool := (0x80 <=? b) && (b <=? 0xBF).

Fixpoint utf8_decode (bs : bytes) : result str :=
  match bs with
  | [] => Ok []
  | b0 :: r0 =>
      if (0 <=? b0) && (b0 <? 0x80) then rmap (cons b0) (utf8_decode r0)
      else if (0xC2 <=? b0) && (b0 <=? 0xDF) then
        match r0 with
        | b1 :: r1 =>
            if is_cont b1
            then rmap (cons ((b0 - 0xC0) * 64 + (b1 - 0x80))) (utf8_decode r1)
            else Raise UnicodeDecodeError
        | _ => Raise UnicodeDecodeError
        end
      else if (0xE0 <=? b0) && (b0 <=? 0xEF) then
        match r0 with
        | b1 :: b2 :: r2 =>
            let c := (b0 - 0xE0) * 4096 + (b1 - 0x80) * 64 + (b2 - 0x80) in
            if is_cont b1 && is_cont b2 && (0x800 <=? c) && negb (is_surrogate c)
            then rmap (cons c) (utf8_decode r2)
            else Raise UnicodeDecodeError
        | _ => Raise UnicodeDecodeError
        end
      else if (0xF0 <=? b0) && (b0 <=? 0xF4) then
        match r0 with
        | b1 :: b2 :: b3 :: r3 =>
            let c := (b0 - 0xF0) * 262144 + (b1 - 0x80) * 4096
                     + (b2 - 0x80) * 64 + (b3 - 0x80) in
            if is_cont b1 && is_cont b2 && is_cont b3
               && (0x10000 <=? c) && (c <? 0x110000)
            then rmap (cons c) (utf8_decode r3)
            else Raise UnicodeDecodeError
        | _ => Raise UnicodeDecodeError
        end
      else Raise UnicodeDecodeError
  end.

(** ** The world outside the repository *)

(** A value of a result dictionary: [None], a string, or anything else a
    JSON document can hold. *)
Inductive pyval : Type :=
| PyNone
| PyStr (s : str)
| PyOther.

(** A [dict] with literal keys, in insertion order. *)
Definition dict := list (string * pyval).

Record Env : Type := {
  (* str(uuid.uuid4()): the n-th draw *)
  uuid4 : nat -> str;
  (* datetime.utcnow().isoformat() *)
  utcnow_isoformat : nat -> str;
  (* cipher = Fernet(ENCRYPTION_KEY); encrypt draws a timestamp and an IV *)
  fernet_encrypt : nat -> bytes -> bytes;
  fernet_decrypt : bytes -> option bytes;
  (* pwd_context = CryptContext(schemes=["bcrypt"]) *)
  pwd_hash : nat -> str -> result str;
  pwd_verify : str -> str -> result bool;
  (* os.getenv("ADMIN_SECRET") *)
  ADMIN_SECRET : option str;
  (* EmailStr: None when rejected, else the normalised address *)
  email_validate : str -> option str;
  (* str.lower() *)
  lower : str -> str;
  (* str(e) of an exception, str(xs) of a list *)
  str_of_exn : exn -> str;
  str_of_strs : list str -> str;
  str_of_dicts : list dict -> str;
  (* tweepy.Client.create_tweet(text): [inr] the id of the tweet, [inl] the
     message of the exception raised *)
  create_tweet : nat -> str -> str + str;
  (* requests.post to graph.instagram.com with the access token, caption
     and image url, then raise_for_status and .json(): [inr] the value
     under "id" if the reply has one, [inl] the message of the exception
     raised *)
  instagram_media : nat -> str -> str -> option str -> str + option pyval
}.

(** ** Token encryption (lines 176-180) *)

Definition encrypt_token (E : Env) (r : nat) (token : str) : result str :=
  let* b := utf8_encode token in
  utf8_decode (fernet_encrypt E r b).

Definition decrypt_token (E : Env) (encrypted : str) : result str :=
  let* b := utf8_encode encrypted in
  match fernet_decrypt E b with
  | Some m => utf8_decode m
  | None => Raise InvalidToken
  end.

(** The documented contract of Fernet: a token decrypts to the message it
    was made from, and a token is URL-safe base64 text. *)
Definition fernet_contract (E : Env) : Prop :=
  (forall r m, is_bytes m -> fernet_decrypt E (fernet_encrypt E r m) = Some m)
  /\ (forall r m, is_bytes m -> is_ascii (fernet_encrypt E r m)).

(** ** The database (init_db, lines 68-115)

    Each table is the list of its rows in insertion order; [fetchone()]
    yields the first row that matches. *)

Record user : Type := mk_user {
  u_id : str;
  u_email : str;
  u_password : str;
  u_api_key : str;
  u_tier : str;
  u_api_calls : Z;
  u_monthly_posts : Z;
  u_is_admin : bool
}.

Record post_row : Type := mk_post_row {
  p_id : str;
  p_user_id : str;
  p_content : str;
  p_platforms : str;
  p_status : str;
  p_post_ids : str;
  p_created_at : str
}.

Record platform_token : Type := mk_platform_token {
  t_user_id : str;
  t_platform : str;
  t_access_token : str;
  t_refresh_token : option str;
  t_expiry : Z
}.

Record draft : Type := mk_draft {
  d_id : str;
  d_user_id : str;
  d_content : str;
  d_platform : str;
  d_created_at : str
}.

Record db : Type := mk_db {
  users : list user;
  posts : list post_row;
  platform_tokens : list platform_token;
  drafts : list draft
}.

(** The state a request runs in: the committed database and the number of
    draws made so far from the outside world. *)
Record world : Type := mk_world {
  database : db;
  draws : nat
}.

(** ** Computations that read and write the world and may raise *)

Definition M (A : Type) : Type := world -> result A * world.

Definition ret {A} (a : A) : M A := fun w => (Ok a, w).

Definition raise {A} (e : exn) : M A := fun w => (Raise e, w).

Definition bind {A B} (m : M A) (k : A -> M B) : M B :=
  fun w =>
    match m w with
    | (Ok a, w') => k a w'
    | (Raise e, w') => (Raise e, w')
    end.

(** [try: m  except Exception as e: h e] *)
Definition try_except {A} (m : M A) (h : exn -> M A) : M A :=
  fun w =>
    match m w with
    | (Ok a, w') => (Ok a, w')
    | (Raise e, w') => h e w'
    end.

Definition lift {A} (r : result A) : M A := fun w => (r, w).

(** One interaction with the outside world. *)
Definition draw {A} (f : nat -> A) : M A :=
  fun w => (Ok (f (draws w)), mk_world (database w) (S (draws w))).

(** A SELECT. *)
Definition query {A} (f : db -> A) : M A :=
  fun w => (Ok (f (database w)), w).

(** The statements of one transaction followed by [conn.commit()]: nothing
    is written when one of them raises. *)
Definition execute (f : db -> result db) : M unit :=
  fun w =>
    match f (database w) with
    | Ok d => (Ok tt, mk_world d (draws w))
    | Raise e => (Raise e, w)
    end.

Notation "x <- m ;; k" := (bind m (fun x => k))
  (at level 61, m at next level, right associativity).

(** The status code FastAPI answers with. *)
Definition http_status {A} (r : result A) : Z :=
  match r with
  | Ok _ => 200
  | Raise (HTTPException status_code _) => status_code
  | Raise RequestValidationError => 422
  | Raise _ => 500
  end.

(** [str(e)]: the message of a library exception is the one it was raised
    with. *)
Definition str_exn (E : Env) (e : exn) : str :=
  match e with
  | LibraryError msg => msg
  | _ => str_of_exn E e
  end.

(** ** Dictionaries *)

Fixpoint dict_get (k : string) (d : dict) : option pyval :=
  match d with
  | [] => None
  | (k', v) :: d' => if String.eqb k k' then Some v else dict_get k d'
  end.

Fixpoint dict_set (k : string) (v : pyval) (d : dict) : dict :=
  match d with
  | [] => [(k, v)]
  | (k', v') :: d' =>
      if String.eqb k k' then (k', v) :: d' else (k', v') :: dict_set k v d'
  end.

(** [{**d, **extra}] *)
Definition dict_update (d extra : dict) : dict :=
  fold_left (fun acc kv => dict_set (fst kv) (snd kv) acc) extra d.

(** ** Request and response models (lines 128-173) *)

Record UserCreateRequest : Type := mk_UserCreateRequest {
  email : str;
  password : str;
  confirm_password : str;
  admin_secret : option str;
  is_admin : bool;
  tier : str
}.

Definition opt_str_eqb (a b : option str) : bool :=
  match a, b with
  | Some x, Some y => str_eqb x y
  | None, None => true
  | _, _ => false
  end.

(** Truth value of a string: empty is false. *)
Definition str_truthy (s : str) : bool :=
  match s with
  | [] => false
  | _ => true
  end.

(** [info.data.get("password")] is the password: a [str] field always
    validates. *)
Definition passwords_match (v : str) (data_password : str) : result str :=
  if str_truthy data_password && negb (str_eqb v data_password)
  then Raise (ValueError (lit "Passwords do not match"))
  else Ok v.

Definition restrict_admin (E : Env) (v : bool) (data_admin_secret : option str)
  : result bool :=
  if v && negb (opt_str_eqb data_admin_secret (ADMIN_SECRET E))
  then Raise (ValueError (lit "Invalid admin secret"))
  else Ok v.

(** What FastAPI does with the JSON body of [POST /api/user] before the
    handler runs: every field is validated, and one failure rejects the
    request. *)
Definition UserCreateRequest_validate (E : Env) (body : UserCreateRequest)
  : result UserCreateRequest :=
  match email_validate E (email body),
        passwords_match (confirm_password body) (password body),
        restrict_admin E (is_admin body) (admin_secret body) with
  | Some e, Ok c, Ok a =>
      Ok (mk_UserCreateRequest e (password body) c (admin_secret body) a
            (tier body))
  | _, _, _ => Raise RequestValidationError
  end.

(** The fields of [PostRequest] the handler reads; [shortUrl],
    [autoHashtag], [autoSchedule], [mentions], [notes] and [evergreen] are
    accepted and never used. *)
Record PostRequest : Type := mk_PostRequest {
  post : str;
  platforms : list str;
  mediaUrls : option (list str);
  requiresApproval : option bool
}.

Record PostResponse : Type := mk_PostResponse {
  status : str;
  id : str;
  postIds : list dict
}.

Definition is_PyStr (v : pyval) : bool :=
  match v with
  | PyStr _ => true
  | _ => false
  end.

(** [PostResponse(status=..., id=..., postIds=...)]: pydantic validates the
    arguments against the annotations, and [postIds: List[Dict[str, str]]]
    admits only string values. *)
Definition PostResponse_new (status id : str) (postIds : list dict)
  : result PostResponse :=
  if forallb (fun d => forallb (fun kv => is_PyStr (snd kv)) d) postIds
  then Ok (mk_PostResponse status id postIds)
  else Raise ValidationError.

Record LoginRequest : Type := mk_LoginRequest {
  login_email : str;
  login_password : str
}.

(** ** The application *)

Definition PLATFORMS : list str :=
  map lit ["bluesky"; "facebook"; "gmb"; "instagram"; "linkedin"; "pinterest";
           "reddit"; "snapchat"; "telegram"; "tiktok"; "threads"; "twitter";
           "youtube"].

Definition select_user_by_id (user_id : str) (d : db) : option user :=
  find (fun u => str_eqb (u_id u) user_id) (users d).

Definition select_user_by_api_key (token : str) (d : db) : option user :=
  find (fun u => str_eqb (u_api_key u) token) (users d).

Definition select_user_by_email (address : str) (d : db) : option user :=
  find (fun u => str_eqb (u_email u) address) (users d).

Definition select_platform_token (user_id platform : str) (d : db)
  : option platform_token :=
  find (fun t => str_eqb (t_user_id t) user_id && str_eqb (t_platform t) platform)
       (platform_tokens d).

Definition MockClient_post (E : Env) (content platform : str)
  (media_urls : option (list str)) : M dict :=
  i <- draw (uuid4 E) ;;
  u <- draw (uuid4 E) ;;
  ret [("status", PyStr (lit "success")); ("id", PyStr i);
       ("postUrl", PyStr (lit "https://" ++ platform ++ lit ".com/post/" ++ u))].

(** Lines 51-65; the client object itself carries no state the model needs. *)
Definition get_twitter_client (user_id : str) : M unit :=
  row <- query (select_user_by_id user_id) ;;
  match row with
  | Some u =>
      if u_is_admin u then ret tt
      else raise (HTTPException 403 (lit "Twitter posting restricted to admin users"))
  | None =>
      raise (HTTPException 403 (lit "Twitter posting restricted to admin users"))
  end.

(** Lines 183-202. *)
Definition get_current_user (E : Env) (token : str) : M str :=
  try_except
    (row <- query (select_user_by_api_key token) ;;
     match row with
     | None => raise (HTTPException 401 (lit "Invalid API key"))
     | Some u =>
         if str_eqb (u_tier u) (lit "free") && (20 <=? u_monthly_posts u)
         then raise (HTTPException 429 (lit "Free tier limit reached"))
         else ret (u_id u)
     end)
    (fun e => raise (HTTPException 401 (lit "Invalid API key"))).

(** Lines 205-220. *)
Definition login_user (E : Env) (request : LoginRequest) : M dict :=
  try_except
    (row <- query (select_user_by_email (lower E (login_email request))) ;;
     verified <- match row with
                 | Some u => lift (pwd_verify E (login_password request) (u_password u))
                 | None => ret false
                 end ;;
     match row, verified with
     | Some u, true =>
         ret [("api_key", PyStr (u_api_key u));
              ("message", PyStr (lit "Login successful"))]
     | _, _ => raise (HTTPException 401 (lit "Invalid email or password"))
     end)
    (fun e => raise (HTTPException 500 (lit "Login error: " ++ str_exn E e))).

Record token_dict : Type := mk_token_dict {
  access_token : str;
  refresh_token : option str;
  expiry : Z
}.

(** Lines 223-231. *)
Definition get_platform_token (E : Env) (user_id platform : str)
  : M (option token_dict) :=
  row <- query (select_platform_token user_id platform) ;;
  match row with
  | Some t =>
      a <- lift (decrypt_token E (t_access_token t)) ;;
      r <- match t_refresh_token t with
           | Some x =>
               if str_truthy x
               then lift (rmap Some (decrypt_token E x))
               else ret (Some x)
           | None => ret None
           end ;;
      ret (Some (mk_token_dict a r (t_expiry t)))
  | None => ret None
  end.

(** [media_urls[0] if media_urls else None] *)
Definition first_media_url (media_urls : option (list str)) : option str :=
  match media_urls with
  | Some (u :: _) => Some u
  | _ => None
  end.

(** Lines 234-246. *)
Definition post_to_instagram (E : Env) (user_id content : str)
  (media_urls : option (list str)) : M dict :=
  token <- get_platform_token E user_id (lit "instagram") ;;
  match token with
  | None =>
      ret [("status", PyStr (lit "error")); ("id", PyNone);
           ("error", PyStr (lit "No Instagram token"))]
  | Some tk =>
      try_except
        (reply <- draw (fun n =>
            instagram_media E n (access_token tk) content
              (first_media_url media_urls)) ;;
         match reply with
         | inl msg => raise (LibraryError msg)
         | inr reply_id =>
             default <- draw (uuid4 E) ;;
             u <- draw (uuid4 E) ;;
             ret [("status", PyStr (lit "success"));
                  ("id", match reply_id with
                         | Some v => v
                         | None => PyStr default
                         end);
                  ("postUrl", PyStr (lit "https://instagram.com/p/" ++ u))]
         end)
        (fun e =>
           ret [("status", PyStr (lit "error")); ("id", PyNone);
                ("error", PyStr (str_exn E e))])
  end.

(** The body of the loop at lines 270-283: the entry appended for one
    platform. *)
Definition create_post_entry (E : Env) (request : PostRequest)
  (user_id platform : str) : M dict :=
  if str_eqb platform (lit "twitter") then
    try_except
      (_ <- get_twitter_client user_id ;;
       response <- draw (fun n => create_tweet E n (post request)) ;;
       match response with
       | inr tweet_id =>
           ret [("platform", PyStr platform); ("status", PyStr (lit "success"));
                ("id", PyStr tweet_id);
                ("postUrl", PyStr (lit "https://twitter.com/user/status/" ++ tweet_id))]
       | inl msg => raise (LibraryError msg)
       end)
      (fun e =>
         ret [("platform", PyStr platform); ("status", PyStr (lit "error"));
              ("id", PyNone); ("error", PyStr (str_exn E e))])
  else if str_eqb platform (lit "instagram") then
    result <- post_to_instagram E user_id (post request) (mediaUrls request) ;;
    ret (dict_update [("platform", PyStr platform)] result)
  else
    mock_id <- MockClient_post E (post request) platform (mediaUrls request) ;;
    ret (dict_update [("platform", PyStr platform)] mock_id).

(** [for platform in request.platforms: ... post_ids.append(...)] *)
Fixpoint create_post_loop (E : Env) (request : PostRequest) (user_id : str)
  (todo : list str) (post_ids : list dict) : M (list dict) :=
  match todo with
  | [] => ret post_ids
  | platform :: todo' =>
      entry <- create_post_entry E request user_id platform ;;
      create_post_loop E request user_id todo' (post_ids ++ [entry])
  end.

(** A [str] given to [execute] as a parameter: sqlite3 hands it to SQLite
    as its UTF-8 encoding, and a string that UTF-8 cannot encode (one with
    a lone surrogate, which a JSON body can carry) raises
    [UnicodeEncodeError] before the statement runs. *)
Definition bind_text (s : str) : result unit :=
  rmap (fun _ => tt) (utf8_encode s).

(** The INSERT of lines 287-288.  [request.post] is bound as it came in
    the request; the other parameters are a uuid, the id that
    [get_current_user] read from the table, a literal, two [str(...)] of a
    list (which escapes what it cannot print) and an ISO timestamp. *)
Definition insert_post (p : post_row) (d : db) : result db :=
  let* _ := bind_text (p_content p) in
  if existsb (fun q => str_eqb (p_id q) (p_id p)) (posts d)
  then Raise IntegrityError
  else Ok (mk_db (users d) (posts d ++ [p]) (platform_tokens d) (drafts d)).

(** [monthly_posts + 1] as SQLite computes it.  The column holds whole
    numbers; one within 64 bits (signed) is an INTEGER, and the sum is
    exact up to the largest INTEGER, from which it is the REAL 2^63.  A
    whole number outside 64 bits is a REAL, too large for [+ 1] to change
    it. *)
Definition sqlite_add_one (n : Z) : Z :=
  if (- 2 ^ 63 <=? n) && (n <? 2 ^ 63) then n + 1 else n.

(** [UPDATE users SET monthly_posts = monthly_posts + 1 WHERE id = ?] *)
Definition update_monthly_posts (user_id : str) (d : db) : db :=
  mk_db
    (map (fun u =>
            if str_eqb (u_id u) user_id
            then mk_user (u_id u) (u_email u) (u_password u) (u_api_key u)
                   (u_tier u) (u_api_calls u)
                   (sqlite_add_one (u_monthly_posts u)) (u_is_admin u)
            else u)
         (users d))
    (posts d) (platform_tokens d) (drafts d).

(** Truth value of an [Optional[bool]]. *)
Definition opt_bool_truthy (b : option bool) : bool :=
  match b with
  | Some true => true
  | _ => false
  end.

(** Lines 249-293. *)
Definition create_post (E : Env) (request : PostRequest) (user_id : str)
  : M PostResponse :=
  if negb (forallb (fun p => str_in p PLATFORMS) (platforms request))
  then raise (HTTPException 400 (lit "Invalid platforms"))
  else
    row <- query (select_user_by_id user_id) ;;
    let is_admin := match row with
                    | Some u => u_is_admin u
                    | None => false
                    end in
    if str_in (lit "twitter") (platforms request) && negb is_admin
    then raise (HTTPException 403 (lit "Twitter posting restricted to admin users"))
    else
      post_id <- draw (uuid4 E) ;;
      let status := if opt_bool_truthy (requiresApproval request)
                    then lit "awaiting_approval"
                    else lit "success" in
      post_ids <- create_post_loop E request user_id (platforms request) [] ;;
      created_at <- draw (utcnow_isoformat E) ;;
      _ <- execute (fun d =>
             let* d' :=
               insert_post
                 (mk_post_row post_id user_id (post request)
                    (str_of_strs E (platforms request)) status
                    (str_of_dicts E post_ids) created_at) d in
             Ok (update_monthly_posts user_id d')) ;;
      lift (PostResponse_new status post_id post_ids).

(** The INSERT of lines 340-341.  [request.tier] is bound as it came in
    the request; the e-mail has passed [EmailStr], and the ids and the
    hash are made by [uuid4] and the password context. *)
Definition insert_user (u : user) (d : db) : result db :=
  let* _ := bind_text (u_tier u) in
  if existsb (fun v => str_eqb (u_id v) (u_id u)
                       || str_eqb (u_email v) (u_email u)
                       || str_eqb (u_api_key v) (u_api_key u)) (users d)
  then Raise IntegrityError
  else Ok (mk_db (users d ++ [u]) (posts d) (platform_tokens d) (drafts d)).

(** Lines 333-349. *)
Definition create_user (E : Env) (request : UserCreateRequest) : M dict :=
  hashed_or_error <- draw (fun n => pwd_hash E n (password request)) ;;
  hashed <- lift hashed_or_error ;;
  api_key <- draw (uuid4 E) ;;
  try_except
    (new_id <- draw (uuid4 E) ;;
     _ <- execute (insert_user
            (mk_user new_id (lower E (email request)) hashed api_key
               (tier request) 0 0 (is_admin request))) ;;
     ret [("api_key", PyStr api_key)])
    (fun e =>
       match e with
       | IntegrityError => raise (HTTPException 400 (lit "User exists"))
       | _ => raise e
       end).

(** ** The routes, with request validation and the bearer dependency *)

Definition POST_api_user (E : Env) (body : UserCreateRequest) : M dict :=
  request <- lift (UserCreateRequest_validate E body) ;;
  create_user E request.

Definition POST_api_post (E : Env) (token : str) (request : PostRequest)
  : M PostResponse :=
  user_id <- get_current_user E token ;;
  create_post E request user_id.

(** ** A concrete environment and database

    Stand-ins for the outside world, used to run the model: identifiers
    that are all distinct, a cipher that writes each byte as two letters,
    a password context that stores a prefix and the password. *)

Definition demo_uuid4 (n : nat) : str := lit "uuid-" ++ repeat 0x75 n.

Definition demo_encrypt (r : nat) (m : bytes) : bytes :=
  flat_map (fun b => [0x41 + b / 16; 0x41 + b mod 16]) m.

Fixpoint demo_decrypt (t : bytes) : option bytes :=
  match t with
  | [] => Some []
  | hi :: lo :: t' =>
      if (0x41 <=? hi) && (hi <? 0x51) && (0x41 <=? lo) && (lo <? 0x51)
      then option_map (cons ((hi - 0x41) * 16 + (lo - 0x41))) (demo_decrypt t')
      else None
  | _ => None
  end.

Definition demo_lower (s : str) : str :=
  map (fun c => if (0x41 <=? c) && (c <=? 0x5A) then c + 32 else c) s.

Definition demo_env : Env := {|
  uuid4 := demo_uuid4;
  utcnow_isoformat := fun _ => lit "2024-01-01T00:00:00";
  fernet_encrypt := demo_encrypt;
  fernet_decrypt := demo_decrypt;
  pwd_hash := fun _ p => Ok (lit "$2b$" ++ p);
  pwd_verify := fun p h => Ok (str_eqb h (lit "$2b$" ++ p));
  ADMIN_SECRET := Some (lit "letmein");
  email_validate := fun e => if existsb (Z.eqb 0x40) e then Some e else None;
  lower := demo_lower;
  str_of_exn := fun e => match e with
                         | HTTPException _ detail => detail
                         | _ => lit "error"
                         end;
  str_of_strs := fun xs => List.concat xs;
  str_of_dicts := fun ds => repeat 0x64 (List.length ds);
  create_tweet := fun _ _ => inr (lit "1790000000000000000");
  instagram_media := fun _ _ _ _ => inr (Some (PyStr (lit "17890000000000000")))
|}.

Definition alice : user :=
  mk_user (lit "alice-id") (lit "alice@example.com") (lit "$2b$wonderland")
    (lit "alice-key") (lit "free") 0 0 false.

Definition root : user :=
  mk_user (lit "root-id") (lit "root@example.com") (lit "$2b$toor")
    (lit "root-key") (lit "business") 0 7 true.

Definition demo_db : db := mk_db [alice; root] [] [] [].

Definition demo_world : world := mk_world demo_db 0.

Definition alice_at_quota : user :=
  mk_user (lit "alice-id") (lit "alice@example.com") (lit "$2b$wonderland")
    (lit "alice-key") (lit "free") 0 20 false.

Definition quota_world : world :=
  mk_world (mk_db [alice_at_quota; root] [] [] []) 0.

Definition empty_world : world := mk_world (mk_db [] [] [] []) 0.

Definition demo_request (names : list string) : PostRequest :=
  mk_PostRequest (lit "hello") (map lit names) None None.

Definition bob_body : UserCreateRequest :=
  mk_UserCreateRequest (lit "bob@example.com") (lit "hunter2") (lit "hunter2")
    None false (lit "free").

(** A registration body whose password is empty and whose confirmation
    is not. *)
Definition mismatched_body : UserCreateRequest :=
  mk_UserCreateRequest (lit "bob@example.com") [] (lit "hunter2")
    None false (lit "free").

(** [n] calls of [POST /api/post] in a row with the same key and body:
    the status codes answered, and the world afterwards. *)
Fixpoint post_repeatedly (E : Env) (token : str) (request : PostRequest)
  (n : nat) (w : world) : list Z * world :=
  match n with
  | O => ([], w)
  | S n' =>
      let (r, w') := POST_api_post E token request w in
      let (codes, w'') := post_repeatedly E token request n' w' in
      (http_status r :: codes, w'')
  end.

(** ** Vocabulary of the statements *)

(** What the dispatcher owes a requested platform when the user has no
    Instagram token: an entry under the platform's name, which for
    Instagram is the "No Instagram token" error and for a generic platform
    reports success. *)
Definition isolated_entry (platform : str) (d : dict) : Prop :=
  dict_get "platform" d = Some (PyStr platform)
  /\ (platform = lit "instagram" ->
      dict_get "status" d = Some (PyStr (lit "error"))
      /\ dict_get "error" d = Some (PyStr (lit "No Instagram token"))
      /\ dict_get "id" d = Some PyNone)
  /\ (platform <> lit "instagram" -> platform <> lit "twitter" ->
      dict_get "status" d = Some (PyStr (lit "success"))
      /\ forallb (fun kv => is_PyStr (snd kv)) d = true).

(** A user row after a dispatch by [user_id], against the row before: the
    counter of the acting user is one higher, and nothing else differs. *)
Definition row_after_dispatch (user_id : str) (u u' : user) : Prop :=
  u_id u' = u_id u
  /\ u_email u' = u_email u
  /\ u_password u' = u_password u
  /\ u_api_key u' = u_api_key u
  /\ u_tier u' = u_tier u
  /\ u_api_calls u' = u_api_calls u
  /\ u_is_admin u' = u_is_admin u
  /\ u_monthly_posts u'
     = u_monthly_posts u + (if str_eqb (u_id u) user_id then 1 else 0).

(** The counter of the acting user has room for one more: in each of the
    rows the UPDATE touches it is an INTEGER below the largest one. *)
Definition counter_has_room (user_id : str) (d : db) : Prop :=
  forall u, In u (users d) -> u_id u = user_id ->
            - 2 ^ 63 <= u_monthly_posts u < 2 ^ 63 - 1.

(** ** Drafts, deletion and the account route *)

Record DraftRequest : Type := mk_DraftRequest {
  content : str;
  platform : str
}.

(** The INSERT of lines 301-302, which binds [request.content] and
    [request.platform] as they came in the request. *)
Definition insert_draft (r : draft) (d : db) : result db :=
  let* _ := bind_text (d_content r) in
  let* _ := bind_text (d_platform r) in
  if existsb (fun q => str_eqb (d_id q) (d_id r)) (drafts d)
  then Raise IntegrityError
  else Ok (mk_db (users d) (posts d) (platform_tokens d) (drafts d ++ [r])).

(** Lines 296-306. *)
Definition save_draft (E : Env) (request : DraftRequest) (user_id : str)
  : M dict :=
  draft_id <- draw (uuid4 E) ;;
  created_at <- draw (utcnow_isoformat E) ;;
  _ <- execute (insert_draft
         (mk_draft draft_id user_id (content request) (platform request)
            created_at)) ;;
  ret [("status", PyStr (lit "success")); ("id", PyStr draft_id)].

(** TEXT values under SQLite's BINARY collation: [memcmp] on the UTF-8
    bytes, which orders strings as their code points do. *)
Fixpoint text_compare (a b : str) : comparison :=
  match a, b with
  | [], [] => Eq
  | [], _ :: _ => Lt
  | _ :: _, [] => Gt
  | x :: a', y :: b' =>
      match x ?= y with
      | Eq => text_compare a' b'
      | c => c
      end
  end.

Definition text_ltb (a b : str) : bool :=
  match text_compare a b with
  | Lt => true
  | _ => false
  end.

(** [ORDER BY created_at DESC]: rows with the same timestamp stay in the
    order of the table. *)
Fixpoint insert_by_created_at (r : draft) (sorted : list draft) : list draft :=
  match sorted with
  | [] => [r]
  | x :: sorted' =>
      if text_ltb (d_created_at r) (d_created_at x)
      then x :: insert_by_created_at r sorted'
      else r :: sorted
  end.

Definition order_by_created_at_desc (rows : list draft) : list draft :=
  fold_right insert_by_created_at [] rows.

Definition select_drafts (user_id : str) (d : db) : list draft :=
  order_by_created_at_desc
    (filter (fun r => str_eqb (d_user_id r) user_id) (drafts d)).

Definition draft_json (r : draft) : dict :=
  [("id", PyStr (d_id r)); ("content", PyStr (d_content r));
   ("platform", PyStr (d_platform r)); ("created_at", PyStr (d_created_at r))].

(** Lines 309-316. *)
Definition get_drafts (user_id : str) : M (list dict) :=
  drafts <- query (select_drafts user_id) ;;
  ret (map draft_json drafts).

Definition select_post (post_id user_id : str) (d : db) : option post_row :=
  find (fun p => str_eqb (p_id p) post_id && str_eqb (p_user_id p) user_id)
       (posts d).

(** [DELETE FROM posts WHERE id = ?] *)
Definition delete_from_posts (post_id : str) (d : db) : db :=
  mk_db (users d)
    (filter (fun p => negb (str_eqb (p_id p) post_id)) (posts d))
    (platform_tokens d) (drafts d).

(** Lines 319-330. *)
Definition delete_post (post_id user_id : str) : M dict :=
  row <- query (select_post post_id user_id) ;;
  match row with
  | Some _ =>
      _ <- execute (fun d => Ok (delete_from_posts post_id d)) ;;
      ret [("status", PyStr (lit "deleted"))]
  | None => raise (HTTPException 404 (lit "Post not found"))
  end.

(** The dictionary [get_user] answers with; "is_admin" is a [bool]. *)
Record user_info : Type := mk_user_info {
  info_email : str;
  info_tier : str;
  info_is_admin : bool
}.

(** Lines 352-361. *)
Definition get_user (user_id : str) : M user_info :=
  row <- query (select_user_by_id user_id) ;;
  match row with
  | Some u => ret (mk_user_info (u_email u) (u_tier u) (u_is_admin u))
  | None => raise (HTTPException 404 (lit "User not found"))
  end.

Definition POST_api_draft (E : Env) (token : str) (request : DraftRequest)
  : M dict :=
  user_id <- get_current_user E token ;;
  save_draft E request user_id.

Definition GET_api_drafts (E : Env) (token : str) : M (list dict) :=
  user_id <- get_current_user E token ;;
  get_drafts user_id.

Definition DELETE_api_post (E : Env) (token post_id : str) : M dict :=
  user_id <- get_current_user E token ;;
  delete_post post_id user_id.

Definition GET_api_user (E : Env) (token : str) : M user_info :=
  user_id <- get_current_user E token ;;
  get_user user_id.

(** ** The application as a whole: one request after another *)

Inductive api_call : Type :=
| Register (body : UserCreateRequest)
| Login (request : LoginRequest)
| GetUser (token : str)
| Post (token : str) (request : PostRequest)
| SaveDraft (token : str) (request : DraftRequest)
| GetDrafts (token : str)
| DeletePost (token post_id : str).

Definition answer {A} (r : result A * world) : Z * world :=
  (http_status (fst r), snd r).

(** The status a call is answered with, and the world it leaves. *)
Definition serve (E : Env) (c : api_call) (w : world) : Z * world :=
  match c with
  | Register body => answer (POST_api_user E body w)
  | Login request => answer (login_user E request w)
  | GetUser token => answer (GET_api_user E token w)
  | Post token request => answer (POST_api_post E token request w)
  | SaveDraft token request => answer (POST_api_draft E token request w)
  | GetDrafts token => answer (GET_api_drafts E token w)
  | DeletePost token post_id => answer (DELETE_api_post E token post_id w)
  end.

Fixpoint serve_all (E : Env) (calls : list api_call) (w : world) : world :=
  match calls with
  | [] => w
  | c :: calls' => serve_all E calls' (snd (serve E c w))
  end.

(** The calls that carry a bearer token. *)
Definition bearer_token (c : api_call) : option str :=
  match c with
  | Register _ | Login _ => None
  | GetUser token | Post token _ | SaveDraft token _ | GetDrafts token
  | DeletePost token _ => Some token
  end.

(** The PRIMARY KEY and UNIQUE constraints of the schema. *)
Definition db_constraints (d : db) : Prop :=
  NoDup (map u_id (users d))
  /\ NoDup (map u_email (users d))
  /\ NoDup (map u_api_key (users d))
  /\ NoDup (map p_id (posts d))
  /\ NoDup (map d_id (drafts d))
  /\ NoDup (map (fun t => (t_user_id t, t_platform t)) (platform_tokens d)).

(** A user row against an earlier state of it: the same in every column
    but [monthly_posts], which is not lower. *)
Definition row_kept (u u' : user) : Prop :=
  u_id u' = u_id u
  /\ u_email u' = u_email u
  /\ u_password u' = u_password u
  /\ u_api_key u' = u_api_key u
  /\ u_tier u' = u_tier u
  /\ u_api_calls u' = u_api_calls u
  /\ u_is_admin u' = u_is_admin u
  /\ u_monthly_posts u <= u_monthly_posts u'.

(** A users table against an earlier state of it: the old rows, kept and
    in place, followed by the rows added since. *)
Definition users_kept (us us' : list user) : Prop :=
  exists old new, us' = old ++ new /\ Forall2 row_kept us old.

(** What one call can do to the database: nothing, or one of the four
    writes of the application. *)
Inductive db_step (d : db) : db -> Prop :=
| step_none : db_step d d
| step_user (u : user) :
    existsb (fun v => str_eqb (u_id v) (u_id u)
                      || str_eqb (u_email v) (u_email u)
                      || str_eqb (u_api_key v) (u_api_key u)) (users d) = false ->
    u_api_calls u = 0 -> u_monthly_posts u = 0 ->
    db_step d (mk_db (users d ++ [u]) (posts d) (platform_tokens d) (drafts d))
| step_post (p : post_row) :
    existsb (fun q => str_eqb (p_id q) (p_id p)) (posts d) = false ->
    db_step d
      (update_monthly_posts (p_user_id p)
         (mk_db (users d) (posts d ++ [p]) (platform_tokens d) (drafts d)))
| step_draft (r : draft) :
    existsb (fun q => str_eqb (d_id q) (d_id r)) (drafts d) = false ->
    db_step d (mk_db (users d) (posts d) (platform_tokens d) (drafts d ++ [r]))
| step_delete (post_id : str) :
    db_step d (delete_from_posts post_id d).

(** Not older than: the order of a listing, newest first. *)
Definition newer_or_same (a b : draft) : Prop :=
  text_ltb (d_created_at a) (d_created_at b) = false.

(** A user the quota check turns away. *)
Definition locked_out (token : str) (d : db) : Prop :=
  exists u, select_user_by_api_key token d = Some u
            /\ u_tier u = lit "free" /\ 20 <= u_monthly_posts u.

(** ** The dashboard's draft cleaner ([src/dashboard.py], lines 32-34)

    [str.isspace] and the regular expression classes [\s] and [\d] are
    tables of the Unicode database, taken as parameters. *)

Section CleanDraft.
Variable isspace : Z -> bool.
Variable isdecimal : Z -> bool.

Fixpoint lstrip (s : str) : str :=
  match s with
  | c :: s' => if isspace c then lstrip s' else s
  | [] => []
  end.

Definition strip (s : str) : str := rev (lstrip (rev (lstrip s))).

(** The rest of [\d+\.\s*] once one digit is matched: more digits first,
    and on failure the dot at this position. *)
Fixpoint match_numbering_tail (s : str) : option str :=
  match s with
  | c :: s' =>
      let dot := if c =? 0x2E then Some (lstrip s') else None in
      if isdecimal c
      then match match_numbering_tail s' with
           | Some rest => Some rest
           | None => dot
           end
      else dot
  | [] => None
  end.

(** A match of [^\d+\.\s*] at the start of [s]: what follows it. *)
Definition match_numbering (s : str) : option str :=
  match s with
  | c :: s' => if isdecimal c then match_numbering_tail s' else None
  | [] => None
  end.

(** [re.sub(r'^\d+\.\s*', '', draft.strip(), count=1)] *)
Definition clean_draft_content (draft : str) : str :=
  match match_numbering (strip draft) with
  | Some rest => rest
  | None => strip draft
  end.
End CleanDraft.

Definition ascii_isspace (c : Z) : bool :=
  (c =? 0x20) || ((0x09 <=? c) && (c <=? 0x0D)) || ((0x1C <=? c) && (c <=? 0x1F)).

Definition ascii_isdecimal (c : Z) : bool := (0x30 <=? c) && (c <=? 0x39).

(** Worlds used to run the other routes. *)
Definition demo_post : post_row :=
  mk_post_row (lit "post-1") (lit "alice-id") (lit "hello") (lit "facebook")
    (lit "success") (lit "d") (lit "2024-01-01T00:00:00").

Definition root_post : post_row :=
  mk_post_row (lit "post-2") (lit "root-id") (lit "status") (lit "twitter")
    (lit "success") (lit "d") (lit "2024-01-02T00:00:00").

Definition posted_world : world :=
  mk_world (mk_db [alice; root] [demo_post; root_post] [] []) 0.

(** The environment of a deployment that sets no ADMIN_SECRET. *)
Definition unconfigured_env : Env := {|
  uuid4 := uuid4 demo_env;
  utcnow_isoformat := utcnow_isoformat demo_env;
  fernet_encrypt := fernet_encrypt demo_env;
  fernet_decrypt := fernet_decrypt demo_env;
  pwd_hash := pwd_hash demo_env;
  pwd_verify := pwd_verify demo_env;
  ADMIN_SECRET := None;
  email_validate := email_validate demo_env;
  lower := lower demo_env;
  str_of_exn := str_of_exn demo_env;
  str_of_strs := str_of_strs demo_env;
  str_of_dicts := str_of_dicts demo_env;
  create_tweet := create_tweet demo_env;
  instagram_media := instagram_media demo_env
|}.

Definition mallory_body : UserCreateRequest :=
  mk_UserCreateRequest (lit "mallory@example.com") (lit "pw") (lit "pw")
    None true (lit "business").

(** A world where alice has an Instagram token encrypted under the key
    in use, and one where the stored token is not a token of that key. *)
Definition token_world : world :=
  mk_world
    (mk_db [alice; root] []
       [mk_platform_token (lit "alice-id") (lit "instagram") (lit "HEGPGL")
          None 1700000000] []) 0.

Definition stale_token_world : world :=
  mk_world
    (mk_db [alice; root] []
       [mk_platform_token (lit "alice-id") (lit "instagram") (lit "gAAAAAB")
          None 1700000000] []) 0.

(** An environment where Twitter refuses every tweet. *)
Definition refusing_env : Env := {|
  uuid4 := uuid4 demo_env;
  utcnow_isoformat := utcnow_isoformat demo_env;
  fernet_encrypt := fernet_encrypt demo_env;
  fernet_decrypt := fernet_decrypt demo_env;
  pwd_hash := pwd_hash demo_env;
  pwd_verify := pwd_verify demo_env;
  ADMIN_SECRET := ADMIN_SECRET demo_env;
  email_validate := email_validate demo_env;
  lower := lower demo_env;
  str_of_exn := str_of_exn demo_env;
  str_of_strs := str_of_strs demo_env;
  str_of_dicts := str_of_dicts demo_env;
  create_tweet := fun _ _ => inl (lit "403 Forbidden: duplicate content");
  instagram_media := instagram_media demo_env
|}.

(** * Strings *)

Lemma str_eqb_eq (a b : str) : str_eqb a b = true <-> a = b.
Proof.
  revert b; induction a as [|x a IH]; intros [|y b]; simpl; split;
    try congruence; try reflexivity.
  - intros H. apply andb_true_iff in H as [H1 H2].
    apply Z.eqb_eq in H1. apply IH in H2. congruence.
  - intros H. injection H as -> ->. rewrite Z.eqb_refl. simpl. now apply IH.
Qed.

Lemma str_eqb_refl (a : str) : str_eqb a a = true.
Proof. now apply str_eqb_eq. Qed.

Lemma str_eqb_neq (a b : str) : a <> b -> str_eqb a b = false.
Proof.
  intros H. destruct (str_eqb a b) eqn:Heq; [|reflexivity].
  now apply str_eqb_eq in Heq.
Qed.

Lemma str_in_In (x : str) (xs : list str) : str_in x xs = true <-> In x xs.
Proof.
  unfold str_in. rewrite existsb_exists. split.
  - intros (y & Hy & Heq). apply str_eqb_eq in Heq. now subst.
  - intros H. exists x. split; [exact H | apply str_eqb_refl].
Qed.

(** * The UTF-8 codec *)

Ltac decide_tests :=
  repeat match goal with
  | |- context [?a <? ?b] =>
      first [ replace (a <? b) with true by (symmetry; apply Z.ltb_lt; lia)
            | replace (a <? b) with false by (symmetry; apply Z.ltb_ge; lia) ]
  | |- context [?a <=? ?b] =>
      first [ replace (a <=? b) with true by (symmetry; apply Z.leb_le; lia)
            | replace (a <=? b) with false by (symmetry; apply Z.leb_gt; lia) ]
  end.

Section Utf8Sequences.
Variable rest : bytes.

Lemma utf8_decode_1 b0 :
  0 <= b0 < 0x80 ->
  utf8_decode (b0 :: rest) = rmap (cons b0) (utf8_decode rest).
Proof.
  intros H. unfold utf8_decode; fold utf8_decode. now decide_tests.
Qed.

Lemma utf8_decode_2 b0 b1 :
  0xC2 <= b0 <= 0xDF -> 0x80 <= b1 <= 0xBF ->
  utf8_decode (b0 :: b1 :: rest)
  = rmap (cons ((b0 - 0xC0) * 64 + (b1 - 0x80))) (utf8_decode rest).
Proof.
  intros H0 H1. unfold utf8_decode; fold utf8_decode.
  unfold is_cont. now decide_tests.
Qed.

Lemma utf8_decode_3 b0 b1 b2 :
  0xE0 <= b0 <= 0xEF -> 0x80 <= b1 <= 0xBF -> 0x80 <= b2 <= 0xBF ->
  let c := (b0 - 0xE0) * 4096 + (b1 - 0x80) * 64 + (b2 - 0x80) in
  0x800 <= c -> ~ (0xD800 <= c <= 0xDFFF) ->
  utf8_decode (b0 :: b1 :: b2 :: rest) = rmap (cons c) (utf8_decode rest).
Proof.
  intros H0 H1 H2 c Hc Hs. unfold utf8_decode; fold utf8_decode.
  fold c. unfold is_cont, is_surrogate. decide_tests. cbn [andb negb].
  destruct (Z.leb_spec 0xD800 c); destruct (Z.leb_spec c 0xDFFF);
    cbn [andb negb]; try reflexivity; lia.
Qed.

Lemma utf8_decode_4 b0 b1 b2 b3 :
  0xF0 <= b0 <= 0xF4 ->
  0x80 <= b1 <= 0xBF -> 0x80 <= b2 <= 0xBF -> 0x80 <= b3 <= 0xBF ->
  let c := (b0 - 0xF0) * 262144 + (b1 - 0x80) * 4096
           + (b2 - 0x80) * 64 + (b3 - 0x80) in
  0x10000 <= c < 0x110000 ->
  utf8_decode (b0 :: b1 :: b2 :: b3 :: rest) = rmap (cons c) (utf8_decode rest).
Proof.
  intros H0 H1 H2 H3 c Hc. unfold utf8_decode; fold utf8_decode.
  fold c. unfold is_cont. now decide_tests.
Qed.
End Utf8Sequences.

(** The base-64 digits of a code point, as linear facts. *)
Lemma digits64 (c : Z) :
  0 <= c ->
  c = 64 * (c / 64) + c mod 64 /\ 0 <= c mod 64 < 64 /\ 0 <= c / 64.
Proof.
  intros H. pose proof (Z.div_mod c 64 ltac:(lia)).
  pose proof (Z.mod_pos_bound c 64 ltac:(lia)).
  pose proof (Z.div_pos c 64 H ltac:(lia)). lia.
Qed.

Ltac bytes_in_range :=
  repeat (apply Forall_cons; [lia|]); apply Forall_nil.

Lemma utf8_encode_char_cases (c : Z) :
  match utf8_encode_char c with
  | Ok b =>
      is_bytes b /\
      forall rest, utf8_decode (b ++ rest) = rmap (cons c) (utf8_decode rest)
  | Raise _ => True
  end.
Proof.
  unfold utf8_encode_char, is_surrogate, is_bytes.
  destruct (Z.ltb_spec c 0); [exact I|].
  destruct (digits64 c) as (E0 & R0 & Q0); [lia|].
  destruct (digits64 (c / 64)) as (E1 & R1 & Q1); [lia|].
  destruct (digits64 (c / 64 / 64)) as (E2 & R2 & Q2); [lia|].
  assert (D1 : c / 4096 = c / 64 / 64)
    by (rewrite Z.div_div by lia; reflexivity).
  assert (D2 : c / 262144 = c / 64 / 64 / 64)
    by (rewrite !Z.div_div by lia; reflexivity).
  rewrite D1, D2. clear D1 D2.
  destruct (Z.ltb_spec c 0x80).
  { split; [bytes_in_range|].
    intros rest. apply utf8_decode_1. lia. }
  destruct (Z.ltb_spec c 0x800).
  { split; [bytes_in_range|].
    intros rest. cbn [app]. rewrite utf8_decode_2 by lia. f_equal. f_equal. lia. }
  destruct (Z.ltb_spec c 0x10000).
  { destruct (Z.leb_spec 0xD800 c); destruct (Z.leb_spec c 0xDFFF);
      cbn [andb]; try exact I.
    all: split; [bytes_in_range|].
    all: intros rest; cbn [app]; rewrite utf8_decode_3 by lia;
      f_equal; f_equal; lia. }
  destruct (Z.ltb_spec c 0x110000); [|exact I].
  split; [bytes_in_range|].
  intros rest. cbn [app]. rewrite utf8_decode_4 by lia. f_equal. f_equal. lia.
Qed.

Lemma utf8_encode_bytes (s : str) (b : bytes) :
  utf8_encode s = Ok b -> is_bytes b.
Proof.
  revert b; induction s as [|c s IH]; simpl; intros b.
  - intros [= <-]. constructor.
  - pose proof (utf8_encode_char_cases c) as Hc.
    destruct (utf8_encode_char c) as [bc|]; simpl; [|discriminate].
    destruct (utf8_encode s) as [bs|]; simpl; [|discriminate].
    intros [= <-]. apply Forall_app. split; [apply Hc | now apply IH].
Qed.

(** Decoding undoes encoding. *)
Lemma utf8_decode_encode (s : str) (b : bytes) :
  utf8_encode s = Ok b -> utf8_decode b = Ok s.
Proof.
  revert b; induction s as [|c s IH]; simpl; intros b.
  - now intros [= <-].
  - pose proof (utf8_encode_char_cases c) as Hc.
    destruct (utf8_encode_char c) as [bc|]; simpl; [|discriminate].
    destruct (utf8_encode s) as [bs|]; simpl; [|discriminate].
    intros [= <-]. destruct Hc as [_ Hc]. rewrite Hc, (IH bs eq_refl).
    reflexivity.
Qed.

(** Encoding fails only on a surrogate. *)
Lemma utf8_encode_total (s : str) :
  is_str s -> Forall (fun c => is_surrogate c = false) s ->
  exists b, utf8_encode s = Ok b.
Proof.
  induction 1 as [|c s Hc _ IH]; intros Hs; simpl.
  - now exists [].
  - inversion Hs as [|? ? Hc' Hs']; subst. destruct (IH Hs') as [bs ->].
    unfold utf8_encode_char. rewrite Hc'.
    repeat match goal with
           | |- context [?a <? ?b] => destruct (Z.ltb_spec a b)
           end; simpl; try (eexists; reflexivity); lia.
Qed.

(** ASCII text and its bytes are the same sequence. *)
Lemma utf8_encode_ascii (s : str) : is_ascii s -> utf8_encode s = Ok s.
Proof.
  induction 1 as [|c s Hc _ IH]; simpl; [reflexivity|].
  unfold utf8_encode_char. rewrite IH.
  destruct (Z.ltb_spec c 0); [lia|].
  destruct (Z.ltb_spec c 0x80); [reflexivity|lia].
Qed.

Lemma utf8_decode_ascii (b : bytes) : is_ascii b -> utf8_decode b = Ok b.
Proof.
  induction 1 as [|c s Hc _ IH]; [reflexivity|].
  rewrite utf8_decode_1, IH by lia. reflexivity.
Qed.

Lemma utf8_encode_char_raises (c : Z) (e : exn) :
  utf8_encode_char c = Raise e -> e = UnicodeEncodeError.
Proof.
  unfold utf8_encode_char.
  repeat match goal with
         | |- context [if ?x then _ else _] => destruct x
         end; congruence.
Qed.

Lemma utf8_encode_raises (s : str) (e : exn) :
  utf8_encode s = Raise e -> e = UnicodeEncodeError.
Proof.
  induction s as [|c s IH]; cbn [utf8_encode]; [discriminate|].
  destruct (utf8_encode_char c) eqn:Hc; cbn [rbind].
  - destruct (utf8_encode s); cbn [rbind]; [discriminate|].
    intros [= <-]. now apply IH.
  - intros [= <-]. now apply utf8_encode_char_raises in Hc.
Qed.

(** ** Text handed to SQLite *)

Lemma bind_text_cases (s : str) :
  bind_text s = Ok tt \/ bind_text s = Raise UnicodeEncodeError.
Proof.
  unfold bind_text. destruct (utf8_encode s) as [b|e] eqn:Hs; cbn; [now left|].
  right. now apply utf8_encode_raises in Hs as ->.
Qed.

Lemma bind_text_Ok (s : str) : is_text s -> bind_text s = Ok tt.
Proof.
  intros [Hstr Hsur]. unfold bind_text.
  now destruct (utf8_encode_total s Hstr Hsur) as [b ->].
Qed.

(** A literal is text. *)
Ltac text_literal :=
  split; [unfold is_str|];
  match goal with
  | |- Forall _ ?s => let v := eval vm_compute in s in change s with v
  end;
  repeat (apply Forall_cons; [first [reflexivity | lia]|]);
  apply Forall_nil.

(** ** The counter *)

Lemma sqlite_add_one_le (n : Z) : n <= sqlite_add_one n.
Proof.
  unfold sqlite_add_one. destruct ((- 2 ^ 63 <=? n) && (n <? 2 ^ 63)); lia.
Qed.

Lemma sqlite_add_one_room (n : Z) :
  - 2 ^ 63 <= n < 2 ^ 63 - 1 -> sqlite_add_one n = n + 1.
Proof.
  intros H. unfold sqlite_add_one.
  destruct (Z.leb_spec (- 2 ^ 63) n); [|lia].
  destruct (Z.ltb_spec n (2 ^ 63)); [reflexivity | lia].
Qed.

(** From the largest INTEGER on the counter stays at 2^63. *)
Lemma sqlite_add_one_saturates :
  sqlite_add_one (2 ^ 63 - 1) = 2 ^ 63 /\ sqlite_add_one (2 ^ 63) = 2 ^ 63.
Proof. split; reflexivity. Qed.

(** * Token encryption *)

Section TokenRoundTrip.
Variable E : Env.
Hypothesis fernet_ok : fernet_contract E.

Lemma decrypt_encrypt_token (r : nat) (token : str) (b : bytes) :
  utf8_encode token = Ok b ->
  rbind (encrypt_token E r token) (decrypt_token E) = Ok token.
Proof.
  intros Hb. destruct fernet_ok as [Hrt Hascii].
  pose proof (utf8_encode_bytes _ _ Hb) as Hbytes.
  unfold encrypt_token, decrypt_token. rewrite Hb. simpl.
  rewrite (utf8_decode_ascii _ (Hascii r b Hbytes)). simpl.
  rewrite (utf8_encode_ascii _ (Hascii r b Hbytes)). simpl.
  rewrite (Hrt r b Hbytes). now apply utf8_decode_encode.
Qed.
End TokenRoundTrip.

(** The stand-in cipher honours the Fernet contract. *)
Lemma demo_decrypt_encrypt (r : nat) (m : bytes) :
  is_bytes m -> demo_decrypt (demo_encrypt r m) = Some m.
Proof.
  induction 1 as [|b m Hb _ IH]; [reflexivity|].
  pose proof (Z.div_mod b 16 ltac:(lia)).
  pose proof (Z.mod_pos_bound b 16 ltac:(lia)).
  unfold demo_encrypt in *. cbn [flat_map app].
  unfold demo_decrypt; fold demo_decrypt.
  decide_tests. cbn [andb]. rewrite IH. cbn [option_map].
  do 2 f_equal. lia.
Qed.

Lemma demo_encrypt_ascii (r : nat) (m : bytes) :
  is_bytes m -> is_ascii (demo_encrypt r m).
Proof.
  induction 1 as [|b m Hb _ IH]; [constructor|].
  pose proof (Z.div_mod b 16 ltac:(lia)).
  pose proof (Z.mod_pos_bound b 16 ltac:(lia)).
  unfold demo_encrypt in *. cbn [flat_map app].
  repeat (apply Forall_cons; [lia|]). exact IH.
Qed.

Lemma demo_env_fernet : fernet_contract demo_env.
Proof.
  split; intros r m Hm; [apply demo_decrypt_encrypt | apply demo_encrypt_ascii];
    exact Hm.
Qed.

(** C9, as amended: for every non-empty token made of code points other
    than surrogates, [decrypt_token(encrypt_token(token))] returns the
    token, whatever timestamp and IV the encryption drew. *)
Theorem token_round_trip (E : Env) (r : nat) (token : str) :
  fernet_contract E ->
  token <> [] ->
  is_str token ->
  Forall (fun c => is_surrogate c = false) token ->
  rbind (encrypt_token E r token) (decrypt_token E) = Ok token.
Proof.
  intros HE _ Hstr Hsur.
  destruct (utf8_encode_total token Hstr Hsur) as [b Hb].
  exact (decrypt_encrypt_token E HE r token b Hb).
Qed.

Lemma token_round_trip_witness :
  rbind (encrypt_token demo_env 3 [0x20AC; 0x41; 0x1F600])
        (decrypt_token demo_env)
  = Ok [0x20AC; 0x41; 0x1F600].
Proof.
  apply token_round_trip.
  - exact demo_env_fernet.
  - discriminate.
  - repeat (apply Forall_cons; [lia|]). apply Forall_nil.
  - repeat (apply Forall_cons; [reflexivity|]). apply Forall_nil.
Defined.

(** C9, as stated, fails: the one-character string holding the lone
    surrogate U+D800 is a non-empty [str], and [encrypt_token] raises
    [UnicodeEncodeError] on it under every key. *)
Lemma token_round_trip_fails_on_surrogate :
  [0xD800] <> []
  /\ is_str [0xD800]
  /\ forall (E : Env) (r : nat),
       encrypt_token E r [0xD800] = Raise UnicodeEncodeError
       /\ rbind (encrypt_token E r [0xD800]) (decrypt_token E) <> Ok [0xD800].
Proof.
  split; [discriminate|]. split.
  - apply Forall_cons; [lia | apply Forall_nil].
  - intros E r. split; [reflexivity | discriminate].
Qed.

(** * Authentication *)

Lemma get_current_user_eq (E : Env) (token : str) (w : world) :
  get_current_user E token w =
  (match select_user_by_api_key token (database w) with
   | None => Raise (HTTPException 401 (lit "Invalid API key"))
   | Some u =>
       if str_eqb (u_tier u) (lit "free") && (20 <=? u_monthly_posts u)
       then Raise (HTTPException 401 (lit "Invalid API key"))
       else Ok (u_id u)
   end, w).
Proof.
  unfold get_current_user, try_except, bind, query, raise, ret.
  destruct (select_user_by_api_key token (database w)) as [u|]; [|reflexivity].
  destruct (str_eqb (u_tier u) (lit "free") && (20 <=? u_monthly_posts u));
    reflexivity.
Qed.

(** C10: whatever goes wrong inside [get_current_user] reaches the caller
    as HTTP 401 "Invalid API key": an unknown key does, and so does the
    free-tier quota violation that the body raises as 429.  The world is
    left as it was. *)
Theorem get_current_user_only_401 (E : Env) (token : str) (w : world) :
  snd (get_current_user E token w) = w
  /\ (forall e, fst (get_current_user E token w) = Raise e ->
                e = HTTPException 401 (lit "Invalid API key"))
  /\ (select_user_by_api_key token (database w) = None ->
      http_status (fst (get_current_user E token w)) = 401)
  /\ (forall u, select_user_by_api_key token (database w) = Some u ->
                u_tier u = lit "free" -> 20 <= u_monthly_posts u ->
                http_status (fst (get_current_user E token w)) = 401).
Proof.
  rewrite get_current_user_eq. cbn [fst snd]. split; [reflexivity|].
  split; [|split].
  - intros e. destruct (select_user_by_api_key token (database w)) as [u|].
    + destruct (_ && _); [now intros [= <-] | discriminate].
    + now intros [= <-].
  - now intros ->.
  - intros u -> Htier Hposts. rewrite Htier, str_eqb_refl.
    apply Z.leb_le in Hposts. now rewrite Hposts.
Qed.

(** C4: a free-tier user with twenty or more posts this month is turned
    away from [POST /api/post] with status 401, not the 429 raised inside
    the dependency, and nothing is written. *)
Theorem free_tier_quota_answers_401 (E : Env) (token : str)
  (request : PostRequest) (w : world) (u : user) :
  select_user_by_api_key token (database w) = Some u ->
  u_tier u = lit "free" ->
  20 <= u_monthly_posts u ->
  POST_api_post E token request w
  = (Raise (HTTPException 401 (lit "Invalid API key")), w)
  /\ http_status (fst (POST_api_post E token request w)) = 401.
Proof.
  intros Hrow Htier Hposts. unfold POST_api_post, bind.
  rewrite get_current_user_eq, Hrow, Htier, str_eqb_refl.
  apply Z.leb_le in Hposts. rewrite Hposts. now split.
Qed.

Lemma free_tier_quota_answers_401_witness :
  POST_api_post demo_env (lit "alice-key") (demo_request ["facebook"]) quota_world
  = (Raise (HTTPException 401 (lit "Invalid API key")), quota_world)
  /\ http_status
       (fst (POST_api_post demo_env (lit "alice-key") (demo_request ["facebook"])
               quota_world)) = 401.
Proof.
  apply (free_tier_quota_answers_401 demo_env (lit "alice-key")
           (demo_request ["facebook"]) quota_world alice_at_quota).
  - reflexivity.
  - reflexivity.
  - simpl. lia.
Defined.

(** The scenario of the specification: a user registers on the free tier,
    twenty posts to a generic platform are each answered 200, and the
    twenty-first is answered 401. *)
Lemma twenty_first_post_answers_401 :
  let (registered, w0) := POST_api_user demo_env bob_body empty_world in
  registered = Ok [("api_key", PyStr (demo_uuid4 1))]
  /\ let (codes, w20) :=
       post_repeatedly demo_env (demo_uuid4 1) (demo_request ["facebook"]) 20 w0 in
     codes = repeat 200 20
     /\ http_status
          (fst (POST_api_post demo_env (demo_uuid4 1) (demo_request ["facebook"]) w20))
        = 401.
Proof. vm_compute. repeat split. Qed.

(** * Login *)

Lemma login_user_eq (E : Env) (request : LoginRequest) (w : world) :
  login_user E request w =
  (match select_user_by_email (lower E (login_email request)) (database w) with
   | Some u =>
       match pwd_verify E (login_password request) (u_password u) with
       | Ok true =>
           Ok [("api_key", PyStr (u_api_key u));
               ("message", PyStr (lit "Login successful"))]
       | Ok false =>
           Raise (HTTPException 500
                    (lit "Login error: "
                     ++ str_exn E (HTTPException 401 (lit "Invalid email or password"))))
       | Raise e =>
           Raise (HTTPException 500 (lit "Login error: " ++ str_exn E e))
       end
   | None =>
       Raise (HTTPException 500
                (lit "Login error: "
                 ++ str_exn E (HTTPException 401 (lit "Invalid email or password"))))
   end, w).
Proof.
  unfold login_user, try_except, bind, query, raise, ret, lift.
  destruct (select_user_by_email _ _) as [u|]; [|reflexivity].
  destruct (pwd_verify E _ _) as [[|]|e]; reflexivity.
Qed.

(** C5: a login whose e-mail is unknown, or whose password does not verify
    against the stored hash, is answered with status 500: the 401 raised
    for it is caught by the handler's own [except Exception] and wrapped. *)
Theorem login_mismatch_answers_500 (E : Env) (request : LoginRequest) (w : world) :
  (forall u,
     select_user_by_email (lower E (login_email request)) (database w) = Some u ->
     pwd_verify E (login_password request) (u_password u) = Ok false) ->
  login_user E request w
  = (Raise (HTTPException 500
              (lit "Login error: "
               ++ str_exn E (HTTPException 401 (lit "Invalid email or password")))),
     w).
Proof.
  intros H. rewrite login_user_eq.
  destruct (select_user_by_email _ _) as [u|]; [|reflexivity].
  now rewrite (H u eq_refl).
Qed.

Lemma login_mismatch_answers_500_witness :
  login_user demo_env (mk_LoginRequest (lit "Alice@Example.com") (lit "guess"))
    demo_world
  = (Raise (HTTPException 500
              (lit "Login error: "
               ++ str_exn demo_env
                    (HTTPException 401 (lit "Invalid email or password")))),
     demo_world).
Proof.
  apply login_mismatch_answers_500. intros u Hu. vm_compute in Hu.
  injection Hu as <-. reflexivity.
Defined.

(** On a match the stored key comes back, with status 200. *)
Lemma login_match_returns_api_key (E : Env) (request : LoginRequest)
  (w : world) (u : user) :
  select_user_by_email (lower E (login_email request)) (database w) = Some u ->
  pwd_verify E (login_password request) (u_password u) = Ok true ->
  login_user E request w
  = (Ok [("api_key", PyStr (u_api_key u));
         ("message", PyStr (lit "Login successful"))], w)
  /\ http_status (fst (login_user E request w)) = 200.
Proof.
  intros Hrow Hok. rewrite login_user_eq, Hrow, Hok. now split.
Qed.

Lemma login_match_returns_api_key_witness :
  login_user demo_env (mk_LoginRequest (lit "Alice@Example.com") (lit "wonderland"))
    demo_world
  = (Ok [("api_key", PyStr (u_api_key alice));
         ("message", PyStr (lit "Login successful"))], demo_world)
  /\ http_status
       (fst (login_user demo_env
               (mk_LoginRequest (lit "Alice@Example.com") (lit "wonderland"))
               demo_world)) = 200.
Proof.
  apply login_match_returns_api_key; reflexivity.
Defined.

(** * Registration *)

(** With a non-empty password, a confirmation that differs is rejected
    before the handler runs, and nothing is written. *)
Lemma register_mismatch_rejected (E : Env) (body : UserCreateRequest) (w : world) :
  password body <> [] ->
  confirm_password body <> password body ->
  POST_api_user E body w = (Raise RequestValidationError, w).
Proof.
  intros Hne Hdiff. unfold POST_api_user, bind, lift, UserCreateRequest_validate.
  unfold passwords_match. rewrite (str_eqb_neq _ _ Hdiff).
  destruct (password body) as [|c p]; [congruence|]. cbn [str_truthy andb negb].
  destruct (email_validate E (email body)); reflexivity.
Qed.

Lemma register_mismatch_rejected_witness :
  POST_api_user demo_env
    (mk_UserCreateRequest (lit "bob@example.com") (lit "hunter2") (lit "hunter3")
       None false (lit "free"))
    empty_world
  = (Raise RequestValidationError, empty_world).
Proof.
  apply register_mismatch_rejected; cbn [password confirm_password];
    discriminate.
Defined.

(** C8: a registration with an empty password and a different, non-empty
    confirmation passes validation and a user row is written, although
    the two differ: [passwords_match] compares only when the password is
    truthy. *)
Theorem register_empty_password_mismatch_persists :
  password mismatched_body <> confirm_password mismatched_body
  /\ http_status (fst (POST_api_user demo_env mismatched_body empty_world)) = 200
  /\ users (database (snd (POST_api_user demo_env mismatched_body empty_world)))
     = [mk_user (demo_uuid4 2) (lit "bob@example.com") (lit "$2b$") (demo_uuid4 1)
          (lit "free") 0 0 false].
Proof. split; [discriminate|]. split; reflexivity. Qed.

(** * The dispatch loop *)

Section Entries.
Variable E : Env.
Variable request : PostRequest.
Variable user_id : str.

Lemma get_platform_token_world (platform : str) (w : world) :
  snd (get_platform_token E user_id platform w) = w.
Proof.
  unfold get_platform_token, bind, query, lift, ret.
  destruct (select_platform_token user_id platform (database w)) as [t|];
    [|reflexivity].
  destruct (decrypt_token E (t_access_token t)); [|reflexivity].
  destruct (t_refresh_token t) as [x|]; [|reflexivity].
  destruct (str_truthy x); [|reflexivity].
  destruct (decrypt_token E x); reflexivity.
Qed.

Lemma get_platform_token_none (platform : str) (w : world) :
  select_platform_token user_id platform (database w) = None ->
  get_platform_token E user_id platform w = (Ok None, w).
Proof.
  intros H. unfold get_platform_token, bind, query. now rewrite H.
Qed.

Lemma get_platform_token_raises (platform : str) (w : world) (e : exn) :
  fst (get_platform_token E user_id platform w) = Raise e ->
  select_platform_token user_id platform (database w) <> None.
Proof.
  intros H Hnone. now rewrite (get_platform_token_none _ _ Hnone) in H.
Qed.

(** What [post_to_instagram] can return: one of its three dictionaries,
    none of which has a "platform" key; it raises only out of
    [get_platform_token]. *)
Lemma post_to_instagram_cases (content : str) (media_urls : option (list str))
  (w : world) :
  database (snd (post_to_instagram E user_id content media_urls w)) = database w
  /\ match fst (post_to_instagram E user_id content media_urls w) with
     | Ok d =>
         exists s i v,
           d = [("status", s); ("id", i); ("error", v)]
           \/ d = [("status", s); ("id", i); ("postUrl", v)]
     | Raise e =>
         select_platform_token user_id (lit "instagram") (database w) <> None
     end.
Proof.
  unfold post_to_instagram, bind.
  pose proof (get_platform_token_world (lit "instagram") w) as Hw.
  pose proof (get_platform_token_raises (lit "instagram") w) as Hr.
  destruct (get_platform_token E user_id (lit "instagram") w) as [[[tk|]|e] w1];
    cbn [fst snd] in *; subst w1.
  - unfold try_except, bind, draw, raise, ret. cbn [draws database].
    destruct (instagram_media E (draws w) (access_token tk) content
                (first_media_url media_urls)) as [msg|reply_id];
      cbn [fst snd database]; (split; [reflexivity|]);
      do 3 eexists; [left | right]; reflexivity.
  - unfold ret. cbn [fst snd]. split; [reflexivity|].
    do 3 eexists. left. reflexivity.
  - split; [reflexivity|]. now apply (Hr e).
Qed.

Lemma post_to_instagram_no_token (content : str) (media_urls : option (list str))
  (w : world) :
  select_platform_token user_id (lit "instagram") (database w) = None ->
  post_to_instagram E user_id content media_urls w
  = (Ok [("status", PyStr (lit "error")); ("id", PyNone);
         ("error", PyStr (lit "No Instagram token"))], w).
Proof.
  intros H. unfold post_to_instagram, bind.
  now rewrite (get_platform_token_none _ _ H).
Qed.

(** The entry appended for a platform: the database is only read, an
    entry carries the name of its platform, and the one way out by an
    exception is a stored Instagram token that does not decrypt. *)
Lemma create_post_entry_cases (platform : str) (w : world) :
  database (snd (create_post_entry E request user_id platform w)) = database w
  /\ match fst (create_post_entry E request user_id platform w) with
     | Ok d => dict_get "platform" d = Some (PyStr platform)
     | Raise e =>
         platform = lit "instagram"
         /\ select_platform_token user_id (lit "instagram") (database w) <> None
     end.
Proof.
  unfold create_post_entry.
  destruct (str_eqb platform (lit "twitter")) eqn:Htw.
  - unfold get_twitter_client, try_except, bind, query, draw, raise, ret.
    destruct (select_user_by_id user_id (database w)) as [u|];
      [destruct (u_is_admin u)|]; cbn [fst snd database draws];
      try (split; reflexivity).
    destruct (create_tweet E (draws w) (post request));
      cbn [fst snd database]; split; reflexivity.
  - destruct (str_eqb platform (lit "instagram")) eqn:Hig.
    + apply str_eqb_eq in Hig. unfold bind.
      pose proof (post_to_instagram_cases (post request) (mediaUrls request) w)
        as [Hdb Hres].
      destruct (post_to_instagram E user_id (post request) (mediaUrls request) w)
        as [[d|e] w1]; cbn [fst snd] in *.
      * split; [exact Hdb|].
        destruct Hres as (s0 & i & v & [-> | ->]); reflexivity.
      * split; [exact Hdb | now split].
    + unfold bind, MockClient_post, draw, ret. cbn [fst snd database].
      split; reflexivity.
Qed.

Lemma create_post_entry_instagram_no_token (w : world) :
  select_platform_token user_id (lit "instagram") (database w) = None ->
  create_post_entry E request user_id (lit "instagram") w
  = (Ok [("platform", PyStr (lit "instagram")); ("status", PyStr (lit "error"));
         ("id", PyNone); ("error", PyStr (lit "No Instagram token"))], w).
Proof.
  intros H. unfold create_post_entry.
  replace (str_eqb (lit "instagram") (lit "twitter")) with false by reflexivity.
  rewrite str_eqb_refl. unfold bind.
  now rewrite (post_to_instagram_no_token _ _ _ H).
Qed.

Lemma create_post_entry_generic (platform : str) (w : world) :
  platform <> lit "twitter" ->
  platform <> lit "instagram" ->
  create_post_entry E request user_id platform w
  = (Ok [("platform", PyStr platform); ("status", PyStr (lit "success"));
         ("id", PyStr (uuid4 E (draws w)));
         ("postUrl",
          PyStr (lit "https://" ++ platform ++ lit ".com/post/"
                 ++ uuid4 E (S (draws w))))],
     mk_world (database w) (S (S (draws w)))).
Proof.
  intros Htw Hig. unfold create_post_entry.
  rewrite (str_eqb_neq _ _ Htw), (str_eqb_neq _ _ Hig). reflexivity.
Qed.

(** The loop appends one entry per platform, in the order of the request. *)
Lemma create_post_loop_cases (todo : list str) :
  forall (post_ids : list dict) (w : world),
    database (snd (create_post_loop E request user_id todo post_ids w))
    = database w
    /\ match fst (create_post_loop E request user_id todo post_ids w) with
       | Ok l =>
           exists entries,
             l = post_ids ++ entries
             /\ map (dict_get "platform") entries
                = map (fun p => Some (PyStr p)) todo
       | Raise e =>
           In (lit "instagram") todo
           /\ select_platform_token user_id (lit "instagram") (database w) <> None
       end.
Proof.
  induction todo as [|platform todo IH]; intros post_ids w.
  - cbn. split; [reflexivity|]. exists []. now rewrite app_nil_r.
  - cbn [create_post_loop]. unfold bind.
    pose proof (create_post_entry_cases platform w) as [Hdb Hres].
    destruct (create_post_entry E request user_id platform w) as [[d|e] w1];
      cbn [fst snd] in *.
    + specialize (IH (post_ids ++ [d]) w1) as [IHdb IHres].
      split; [congruence|].
      destruct (fst (create_post_loop E request user_id todo (post_ids ++ [d]) w1))
        as [l|e].
      * destruct IHres as (entries & -> & Htags). exists (d :: entries).
        split; [now rewrite <- app_assoc|]. cbn [map]. now rewrite Hres, Htags.
      * destruct IHres as [Hin Htok]. split; [now right | now rewrite <- Hdb].
    + destruct Hres as [-> Htok]. split; [exact Hdb|]. split; [now left | exact Htok].
Qed.
End Entries.

Section NoInstagramToken.
Variable E : Env.
Variable request : PostRequest.
Variable user_id : str.

(** Without a stored Instagram token the loop cannot raise, and every
    platform gets the entry it is owed. *)
Lemma create_post_loop_isolates (todo : list str) :
  forall (post_ids : list dict) (w : world),
    (In (lit "instagram") todo ->
     select_platform_token user_id (lit "instagram") (database w) = None) ->
    exists entries w',
      create_post_loop E request user_id todo post_ids w
      = (Ok (post_ids ++ entries), w')
      /\ database w' = database w
      /\ Forall2 isolated_entry todo entries.
Proof.
  induction todo as [|platform todo IH]; intros post_ids w Htok.
  - exists [], w. cbn. rewrite app_nil_r. repeat split. constructor.
  - assert (Hentry : exists d w1,
               create_post_entry E request user_id platform w = (Ok d, w1)
               /\ database w1 = database w /\ isolated_entry platform d).
    { pose proof (create_post_entry_cases E request user_id platform w)
        as [Hdb Hres].
      destruct (list_eq_dec Z.eq_dec platform (lit "instagram")) as [->|Hig].
      - rewrite create_post_entry_instagram_no_token by (apply Htok; now left).
        do 2 eexists. split; [reflexivity|]. split; [reflexivity|].
        repeat split; try reflexivity; congruence.
      - destruct (list_eq_dec Z.eq_dec platform (lit "twitter")) as [->|Htw].
        + destruct (create_post_entry E request user_id (lit "twitter") w)
            as [[d|e] w1]; cbn [fst snd] in *.
          * exists d, w1. split; [reflexivity|]. split; [exact Hdb|].
            split; [exact Hres|]. split; [discriminate | congruence].
          * destruct Hres as [Habs _]. discriminate.
        + rewrite create_post_entry_generic by assumption.
          do 2 eexists. split; [reflexivity|]. split; [reflexivity|].
          split; [reflexivity|]. split; [congruence|].
          intros _ _. split; reflexivity. }
    destruct Hentry as (d & w1 & Hd & Hdb1 & Hiso).
    destruct (IH (post_ids ++ [d]) w1) as (entries & w' & Hloop & Hdb' & Hall).
    { intros Hin. rewrite Hdb1. apply Htok. now right. }
    exists (d :: entries), w'. cbn [create_post_loop]. unfold bind.
    rewrite Hd, Hloop, <- app_assoc. repeat split; [congruence|].
    now constructor.
Qed.
End NoInstagramToken.

(** In a call by a user without an Instagram token the loop runs to its
    end: "instagram" gets the "No Instagram token" error entry, every
    generic platform a "success" entry, each under the name of its
    platform and in the order of the request. *)
Theorem dispatch_loop_isolates_missing_token (E : Env) (request : PostRequest)
  (user_id : str) (w : world) :
  select_platform_token user_id (lit "instagram") (database w) = None ->
  exists entries w',
    create_post_loop E request user_id (platforms request) [] w
    = (Ok entries, w')
    /\ Forall2 isolated_entry (platforms request) entries.
Proof.
  intros Htok.
  destruct (create_post_loop_isolates E request user_id (platforms request) [] w
              (fun _ => Htok)) as (entries & w' & Hloop & _ & Hiso).
  now exists entries, w'.
Qed.

Lemma dispatch_loop_isolates_missing_token_witness :
  exists entries w',
    create_post_loop demo_env (demo_request ["reddit"; "instagram"; "tiktok"])
      (lit "alice-id")
      (platforms (demo_request ["reddit"; "instagram"; "tiktok"])) [] demo_world
    = (Ok entries, w')
    /\ Forall2 isolated_entry
         (platforms (demo_request ["reddit"; "instagram"; "tiktok"])) entries.
Proof.
  apply dispatch_loop_isolates_missing_token. reflexivity.
Defined.

Section LoopEntries.
Variable E : Env.
Variable request : PostRequest.
Variable user_id : str.

(** Every entry of the list the loop returns was made by the loop body
    for the platform in its place, on the database the loop started with. *)
Lemma create_post_loop_entries (todo : list str) :
  forall (post_ids l : list dict) (w w' : world),
    create_post_loop E request user_id todo post_ids w = (Ok l, w') ->
    exists entries,
      l = post_ids ++ entries
      /\ Forall2 (fun p d =>
                    exists w0, database w0 = database w
                               /\ fst (create_post_entry E request user_id p w0)
                                  = Ok d)
           todo entries.
Proof.
  induction todo as [|platform todo IH]; intros post_ids l w w'.
  - cbn. intros [= <- <-]. exists []. split; [now rewrite app_nil_r | constructor].
  - cbn [create_post_loop]. unfold bind.
    pose proof (create_post_entry_cases E request user_id platform w) as [Hdb _].
    destruct (create_post_entry E request user_id platform w) as [[d|e] w1] eqn:Hd;
      [|discriminate].
    cbn [snd] in Hdb. intros Hloop.
    destruct (IH _ _ _ _ Hloop) as (entries & -> & Hall).
    exists (d :: entries). split; [now rewrite <- app_assoc|].
    constructor.
    + exists w. split; [reflexivity | now rewrite Hd].
    + eapply Forall2_impl; [|exact Hall]. cbn beta.
      intros p d' (w0 & Hw0 & Hres). exists w0. split; [congruence | exact Hres].
Qed.
End LoopEntries.

(** * The writes *)

Lemma insert_post_Ok (p : post_row) (d : db) :
  is_text (p_content p) ->
  existsb (fun q => str_eqb (p_id q) (p_id p)) (posts d) = false ->
  insert_post p d
  = Ok (mk_db (users d) (posts d ++ [p]) (platform_tokens d) (drafts d)).
Proof.
  intros Htext Hfresh. unfold insert_post.
  now rewrite (bind_text_Ok _ Htext), Hfresh.
Qed.

(** The INSERT into posts refuses a text it cannot encode, then an id
    that is taken, and appends the row otherwise. *)
Lemma insert_post_cases (p : post_row) (d : db) :
  insert_post p d = Raise UnicodeEncodeError
  \/ insert_post p d = Raise IntegrityError
  \/ (existsb (fun q => str_eqb (p_id q) (p_id p)) (posts d) = false
      /\ insert_post p d
         = Ok (mk_db (users d) (posts d ++ [p]) (platform_tokens d) (drafts d))).
Proof.
  unfold insert_post.
  destruct (bind_text_cases (p_content p)) as [-> | ->]; cbn [rbind];
    [|now left].
  destruct (existsb _ (posts d)); [right; now left | right; right; now split].
Qed.

Lemma insert_user_Ok (u : user) (d : db) :
  is_text (u_tier u) ->
  existsb (fun v => str_eqb (u_id v) (u_id u)
                    || str_eqb (u_email v) (u_email u)
                    || str_eqb (u_api_key v) (u_api_key u)) (users d) = false ->
  insert_user u d
  = Ok (mk_db (users d ++ [u]) (posts d) (platform_tokens d) (drafts d)).
Proof.
  intros Htext Hfresh. unfold insert_user.
  now rewrite (bind_text_Ok _ Htext), Hfresh.
Qed.

Lemma insert_user_cases (u : user) (d : db) :
  insert_user u d = Raise UnicodeEncodeError
  \/ insert_user u d = Raise IntegrityError
  \/ (existsb (fun v => str_eqb (u_id v) (u_id u)
                        || str_eqb (u_email v) (u_email u)
                        || str_eqb (u_api_key v) (u_api_key u)) (users d) = false
      /\ insert_user u d
         = Ok (mk_db (users d ++ [u]) (posts d) (platform_tokens d) (drafts d))).
Proof.
  unfold insert_user.
  destruct (bind_text_cases (u_tier u)) as [-> | ->]; cbn [rbind];
    [|now left].
  destruct (existsb _ (users d)); [right; now left | right; right; now split].
Qed.

Lemma insert_draft_cases (r : draft) (d : db) :
  insert_draft r d = Raise UnicodeEncodeError
  \/ insert_draft r d = Raise IntegrityError
  \/ (existsb (fun q => str_eqb (d_id q) (d_id r)) (drafts d) = false
      /\ insert_draft r d
         = Ok (mk_db (users d) (posts d) (platform_tokens d) (drafts d ++ [r]))).
Proof.
  unfold insert_draft.
  destruct (bind_text_cases (d_content r)) as [-> | ->]; cbn [rbind];
    [|now left].
  destruct (bind_text_cases (d_platform r)) as [-> | ->]; cbn [rbind];
    [|now left].
  destruct (existsb _ (drafts d)); [right; now left | right; right; now split].
Qed.

(** * The handler of POST /api/post *)

Ltac destruct_gate :=
  match goal with
  | |- context [andb (str_in ?x ?xs) ?a] => destruct (andb (str_in x xs) a)
  end.

Section CreatePost.
Variable E : Env.
Variable request : PostRequest.
Variable user_id : str.

(** [create_post] with its binds unfolded. *)
Lemma create_post_eq (w : world) :
  create_post E request user_id w =
  if negb (forallb (fun p => str_in p PLATFORMS) (platforms request))
  then (Raise (HTTPException 400 (lit "Invalid platforms")), w)
  else if str_in (lit "twitter") (platforms request)
          && negb (match select_user_by_id user_id (database w) with
                   | Some u => u_is_admin u
                   | None => false
                   end)
  then (Raise (HTTPException 403 (lit "Twitter posting restricted to admin users")), w)
  else
    match create_post_loop E request user_id (platforms request) []
            (mk_world (database w) (S (draws w))) with
    | (Raise e, w2) => (Raise e, w2)
    | (Ok post_ids, w2) =>
        match insert_post
                (mk_post_row (uuid4 E (draws w)) user_id (post request)
                   (str_of_strs E (platforms request))
                   (if opt_bool_truthy (requiresApproval request)
                    then lit "awaiting_approval" else lit "success")
                   (str_of_dicts E post_ids) (utcnow_isoformat E (draws w2)))
                (database w2) with
        | Ok d' =>
            (PostResponse_new
               (if opt_bool_truthy (requiresApproval request)
                then lit "awaiting_approval" else lit "success")
               (uuid4 E (draws w)) post_ids,
             mk_world (update_monthly_posts user_id d') (S (draws w2)))
        | Raise e => (Raise e, mk_world (database w2) (S (draws w2)))
        end
    end.
Proof.
  unfold create_post.
  destruct (negb (forallb _ _)); [reflexivity|].
  unfold bind at 1. unfold query at 1. cbv beta iota zeta.
  destruct_gate; [reflexivity|].
  unfold bind, draw, execute, lift. cbn [database draws].
  destruct (create_post_loop E request user_id (platforms request) [] _)
    as [[post_ids|e] w2]; [|reflexivity].
  cbn [database draws].
  destruct (insert_post _ (database w2)); reflexivity.
Qed.

(** Either nothing is written and the call raises, or the loop has
    finished with one tagged entry per platform, one Post row is appended,
    the counter is bumped, and the response is built from that list. *)
Lemma create_post_cases (w : world) :
  (database (snd (create_post E request user_id w)) = database w
   /\ exists e, fst (create_post E request user_id w) = Raise e)
  \/ exists post_ids created_at,
       map (dict_get "platform") post_ids
       = map (fun p => Some (PyStr p)) (platforms request)
       /\ database (snd (create_post E request user_id w))
          = update_monthly_posts user_id
              (mk_db (users (database w))
                 (posts (database w)
                  ++ [mk_post_row (uuid4 E (draws w)) user_id (post request)
                        (str_of_strs E (platforms request))
                        (if opt_bool_truthy (requiresApproval request)
                         then lit "awaiting_approval" else lit "success")
                        (str_of_dicts E post_ids) created_at])
                 (platform_tokens (database w)) (drafts (database w)))
       /\ fst (create_post E request user_id w)
          = PostResponse_new
              (if opt_bool_truthy (requiresApproval request)
               then lit "awaiting_approval" else lit "success")
              (uuid4 E (draws w)) post_ids.
Proof.
  rewrite create_post_eq.
  destruct (negb (forallb _ _)); [left; split; [reflexivity | eexists; reflexivity]|].
  destruct_gate; [left; split; [reflexivity | eexists; reflexivity]|].
  pose proof (create_post_loop_cases E request user_id (platforms request) []
                (mk_world (database w) (S (draws w)))) as [Hdb Hres].
  destruct (create_post_loop E request user_id (platforms request) [] _)
    as [[post_ids|e] w2]; cbn [fst snd database] in *.
  - destruct Hres as (entries & -> & Htags). cbn [app] in *.
    match goal with
    | |- context [insert_post ?p ?d] =>
        destruct (insert_post_cases p d) as [-> | [-> | [_ ->]]]
    end.
    + left. cbn [fst snd database]. split; [exact Hdb | eexists; reflexivity].
    + left. cbn [fst snd database]. split; [exact Hdb | eexists; reflexivity].
    + right. exists entries, (utcnow_isoformat E (draws w2)).
      cbn [fst snd database]. rewrite Hdb. repeat split. exact Htags.
  - left. split; [exact Hdb | eexists; reflexivity].
Qed.
End CreatePost.

Lemma PostResponse_new_Ok (s i : str) (ds : list dict) (resp : PostResponse) :
  PostResponse_new s i ds = Ok resp ->
  status resp = s /\ id resp = i /\ postIds resp = ds.
Proof.
  unfold PostResponse_new.
  destruct (forallb (fun d => forallb (fun kv => is_PyStr (snd kv)) d) ds);
    [|discriminate].
  now intros [= <-].
Qed.

Lemma PostResponse_new_None (s i : str) (ds : list dict) (d : dict) :
  In d ds -> dict_get "id" d = Some PyNone ->
  PostResponse_new s i ds = Raise ValidationError.
Proof.
  intros Hin Hid. unfold PostResponse_new.
  destruct (forallb (fun d => forallb (fun kv => is_PyStr (snd kv)) d) ds)
    eqn:Hall; [|reflexivity].
  rewrite forallb_forall in Hall. specialize (Hall d Hin).
  exfalso. clear Hin. induction d as [|[k v] d IH]; [discriminate|].
  cbn [dict_get] in Hid. cbn [forallb snd] in Hall.
  apply andb_true_iff in Hall as [Hv Hd].
  destruct (String.eqb "id" k).
  - injection Hid as ->. discriminate.
  - now apply IH.
Qed.

Lemma Forall2_In_l {A B} (R : A -> B -> Prop) (xs : list A) (ys : list B) (x : A) :
  Forall2 R xs ys -> In x xs -> exists y, In y ys /\ R x y.
Proof.
  induction 1 as [|a b xs ys Hab _ IH]; intros Hin; [contradiction|].
  destruct Hin as [->|Hin].
  - exists b. split; [now left | exact Hab].
  - destruct (IH Hin) as (y & Hy & HR). exists y. split; [now right | exact HR].
Qed.

(** * The Twitter gate *)

(** C2, as amended: when every requested name is supported, "twitter" is
    among them and the acting user is not an admin, the call fails with
    403 and leaves the world as it was: no platform was contacted, no Post
    row written, no counter changed. *)
Theorem twitter_non_admin_forbidden (E : Env) (request : PostRequest)
  (user_id : str) (w : world) :
  forallb (fun p => str_in p PLATFORMS) (platforms request) = true ->
  In (lit "twitter") (platforms request) ->
  (forall u, select_user_by_id user_id (database w) = Some u ->
             u_is_admin u = false) ->
  create_post E request user_id w
  = (Raise (HTTPException 403 (lit "Twitter posting restricted to admin users")),
     w).
Proof.
  intros Hall Htw Hadmin. rewrite create_post_eq, Hall. cbn [negb].
  apply str_in_In in Htw. rewrite Htw.
  destruct (select_user_by_id user_id (database w)) as [u|]; [|reflexivity].
  now rewrite (Hadmin u eq_refl).
Qed.

Lemma twitter_non_admin_forbidden_witness :
  create_post demo_env (demo_request ["facebook"; "twitter"]) (lit "alice-id")
    demo_world
  = (Raise (HTTPException 403 (lit "Twitter posting restricted to admin users")),
     demo_world).
Proof.
  apply twitter_non_admin_forbidden.
  - reflexivity.
  - right. left. reflexivity.
  - intros u Hu. vm_compute in Hu. injection Hu as <-. reflexivity.
Defined.

(** C2, as stated, fails: a non-admin asking for "twitter" and for a name
    that is not supported is answered 400, not 403. *)
Lemma twitter_non_admin_invalid_platform_400 :
  In (lit "twitter") (platforms (demo_request ["twitter"; "myspace"]))
  /\ select_user_by_id (lit "alice-id") (database demo_world) = Some alice
  /\ u_is_admin alice = false
  /\ create_post demo_env (demo_request ["twitter"; "myspace"]) (lit "alice-id")
       demo_world
     = (Raise (HTTPException 400 (lit "Invalid platforms")), demo_world).
Proof. repeat split. now left. Qed.

(** * Entries the response model refuses *)

(** C3: a call that names "instagram" for a user without a stored
    Instagram token, with every name supported and the Twitter gate
    passed, never returns its entries: it ends in status 500.  The loop
    does isolate the failure, but the response model refuses the [None]
    under "id" of the error entry (or, before that, the INSERT refuses a
    Post id that is taken or a text that UTF-8 cannot encode). *)
Theorem instagram_without_token_answers_500 (E : Env) (request : PostRequest)
  (user_id : str) (w : world) :
  forallb (fun p => str_in p PLATFORMS) (platforms request) = true ->
  (In (lit "twitter") (platforms request) ->
   exists u, select_user_by_id user_id (database w) = Some u
             /\ u_is_admin u = true) ->
  In (lit "instagram") (platforms request) ->
  select_platform_token user_id (lit "instagram") (database w) = None ->
  (fst (create_post E request user_id w) = Raise ValidationError
   \/ fst (create_post E request user_id w) = Raise IntegrityError
   \/ fst (create_post E request user_id w) = Raise UnicodeEncodeError)
  /\ http_status (fst (create_post E request user_id w)) = 500.
Proof.
  intros Hall Hgate Hig Htok.
  assert (H : fst (create_post E request user_id w) = Raise ValidationError
              \/ fst (create_post E request user_id w) = Raise IntegrityError
              \/ fst (create_post E request user_id w)
                 = Raise UnicodeEncodeError).
  { rewrite create_post_eq, Hall. cbn [negb].
    assert (Hpass : str_in (lit "twitter") (platforms request)
                    && negb match select_user_by_id user_id (database w) with
                            | Some u => u_is_admin u
                            | None => false
                            end = false).
    { destruct (str_in (lit "twitter") (platforms request)) eqn:Htw;
        [|reflexivity].
      apply str_in_In in Htw. destruct (Hgate Htw) as (u & -> & ->).
      reflexivity. }
    rewrite Hpass.
    destruct (create_post_loop_isolates E request user_id (platforms request) []
                (mk_world (database w) (S (draws w))) (fun _ => Htok))
      as (entries & w2 & -> & Hdb & Hiso).
    cbn [app].
    match goal with
    | |- context [insert_post ?p ?d] =>
        destruct (insert_post_cases p d) as [-> | [-> | [_ ->]]]
    end; cbn [fst].
    - right. now right.
    - right. now left.
    - left.
      destruct (Forall2_In_l _ _ _ _ Hiso Hig) as (d & Hd & _ & Herr & _).
      destruct (Herr eq_refl) as (_ & _ & Hid).
      exact (PostResponse_new_None _ _ _ d Hd Hid). }
  split; [exact H|]. destruct H as [-> | [-> | ->]]; reflexivity.
Qed.

Lemma instagram_without_token_answers_500_witness :
  (fst (create_post demo_env (demo_request ["instagram"; "facebook"])
          (lit "alice-id") demo_world) = Raise ValidationError
   \/ fst (create_post demo_env (demo_request ["instagram"; "facebook"])
             (lit "alice-id") demo_world) = Raise IntegrityError
   \/ fst (create_post demo_env (demo_request ["instagram"; "facebook"])
             (lit "alice-id") demo_world) = Raise UnicodeEncodeError)
  /\ http_status
       (fst (create_post demo_env (demo_request ["instagram"; "facebook"])
               (lit "alice-id") demo_world)) = 500.
Proof.
  apply instagram_without_token_answers_500.
  - reflexivity.
  - intros [H | [H | []]]; vm_compute in H; discriminate.
  - left. reflexivity.
  - reflexivity.
Defined.

(** C1: three supported platforms, no Twitter among them, a user without
    an Instagram token.  The loop builds the three entries in the order of
    the request, the Post row is written and the counter bumped, and then
    no [postIds] list is returned: building the response raises
    [ValidationError] and the call is answered 500. *)
Theorem dispatch_with_error_entry_returns_no_list :
  let request := demo_request ["facebook"; "instagram"; "reddit"] in
  let w := mk_world (database demo_world) 1 in
  forallb (fun p => str_in p PLATFORMS) (platforms request) = true
  /\ str_in (lit "twitter") (platforms request) = false
  /\ (exists w', create_post_loop demo_env request (lit "alice-id")
                   (platforms request) [] w
                 = (Ok [[("platform", PyStr (lit "facebook"));
                         ("status", PyStr (lit "success"));
                         ("id", PyStr (demo_uuid4 1));
                         ("postUrl", PyStr (lit "https://facebook.com/post/"
                                            ++ demo_uuid4 2))];
                        [("platform", PyStr (lit "instagram"));
                         ("status", PyStr (lit "error"));
                         ("id", PyNone);
                         ("error", PyStr (lit "No Instagram token"))];
                        [("platform", PyStr (lit "reddit"));
                         ("status", PyStr (lit "success"));
                         ("id", PyStr (demo_uuid4 3));
                         ("postUrl", PyStr (lit "https://reddit.com/post/"
                                            ++ demo_uuid4 4))]], w'))
  /\ fst (create_post demo_env request (lit "alice-id") demo_world)
     = Raise ValidationError
  /\ http_status (fst (create_post demo_env request (lit "alice-id") demo_world))
     = 500
  /\ map p_status
       (posts (database (snd (create_post demo_env request (lit "alice-id")
                                demo_world))))
     = [lit "success"].
Proof.
  cbv zeta. split; [reflexivity|]. split; [reflexivity|].
  split; [eexists; reflexivity|]. repeat split.
Qed.

(** * Calls that are answered *)

(** Whenever a response is returned, its [postIds] has one entry per
    requested platform, each under the name of its platform, in the order
    of the request. *)
Lemma response_has_one_entry_per_platform (E : Env) (request : PostRequest)
  (user_id : str) (w w' : world) (resp : PostResponse) :
  create_post E request user_id w = (Ok resp, w') ->
  List.length (postIds resp) = List.length (platforms request)
  /\ map (dict_get "platform") (postIds resp)
     = map (fun p => Some (PyStr p)) (platforms request).
Proof.
  intros H.
  destruct (create_post_cases E request user_id w)
    as [[_ [e He]] | (post_ids & created_at & Htags & _ & Hres)];
    rewrite H in *; cbn [fst] in *; [discriminate|].
  symmetry in Hres. apply PostResponse_new_Ok in Hres as (_ & _ & ->).
  split; [|exact Htags].
  apply (f_equal (@List.length _)) in Htags. now rewrite !length_map in Htags.
Qed.

Lemma response_has_one_entry_per_platform_witness :
  List.length (postIds
            (mk_PostResponse (lit "success") (demo_uuid4 0)
               [[("platform", PyStr (lit "twitter"));
                 ("status", PyStr (lit "success"));
                 ("id", PyStr (lit "1790000000000000000"));
                 ("postUrl", PyStr (lit "https://twitter.com/user/status/"
                                    ++ lit "1790000000000000000"))];
                [("platform", PyStr (lit "facebook"));
                 ("status", PyStr (lit "success"));
                 ("id", PyStr (demo_uuid4 2));
                 ("postUrl", PyStr (lit "https://facebook.com/post/"
                                    ++ demo_uuid4 3))]]))
  = List.length (platforms (demo_request ["twitter"; "facebook"]))
  /\ map (dict_get "platform")
       (postIds
            (mk_PostResponse (lit "success") (demo_uuid4 0)
               [[("platform", PyStr (lit "twitter"));
                 ("status", PyStr (lit "success"));
                 ("id", PyStr (lit "1790000000000000000"));
                 ("postUrl", PyStr (lit "https://twitter.com/user/status/"
                                    ++ lit "1790000000000000000"))];
                [("platform", PyStr (lit "facebook"));
                 ("status", PyStr (lit "success"));
                 ("id", PyStr (demo_uuid4 2));
                 ("postUrl", PyStr (lit "https://facebook.com/post/"
                                    ++ demo_uuid4 3))]]))
     = map (fun p => Some (PyStr p))
         (platforms (demo_request ["twitter"; "facebook"])).
Proof.
  apply (response_has_one_entry_per_platform demo_env
           (demo_request ["twitter"; "facebook"]) (lit "root-id") demo_world
           (snd (create_post demo_env (demo_request ["twitter"; "facebook"])
                   (lit "root-id") demo_world))).
  reflexivity.
Defined.

Lemma generic_entries_validate (todo : list str) (entries : list dict) :
  Forall2 isolated_entry todo entries ->
  ~ In (lit "twitter") todo -> ~ In (lit "instagram") todo ->
  forallb (fun d => forallb (fun kv => is_PyStr (snd kv)) d) entries = true
  /\ Forall2 (fun p d => dict_get "platform" d = Some (PyStr p)
                         /\ dict_get "status" d = Some (PyStr (lit "success")))
       todo entries.
Proof.
  induction 1 as [|p d todo entries (Htag & _ & Hgen) _ IH]; intros Htw Hig.
  - split; [reflexivity | constructor].
  - destruct IH as [IH1 IH2].
    { intros H. apply Htw. now right. }
    { intros H. apply Hig. now right. }
    destruct Hgen as [Hst Hval].
    { intros ->. apply Hig. now left. }
    { intros ->. apply Htw. now left. }
    split; [cbn [forallb]; now rewrite Hval, IH1 | now constructor].
Qed.

(** A call for generic platforms only is answered 200 with a "success"
    entry for every platform, provided the text of the post is one UTF-8
    can encode and the identifier drawn for the Post is not taken. *)
Lemma generic_dispatch_succeeds (E : Env) (request : PostRequest)
  (user_id : str) (w : world) :
  forallb (fun p => str_in p PLATFORMS) (platforms request) = true ->
  ~ In (lit "twitter") (platforms request) ->
  ~ In (lit "instagram") (platforms request) ->
  is_text (post request) ->
  existsb (fun q => str_eqb (p_id q) (uuid4 E (draws w))) (posts (database w))
  = false ->
  exists resp w',
    create_post E request user_id w = (Ok resp, w')
    /\ http_status (fst (create_post E request user_id w)) = 200
    /\ Forall2 (fun p d => dict_get "platform" d = Some (PyStr p)
                           /\ dict_get "status" d = Some (PyStr (lit "success")))
         (platforms request) (postIds resp).
Proof.
  intros Hall Htw Hig Htext Hfresh. rewrite create_post_eq, Hall. cbn [negb].
  destruct (str_in (lit "twitter") (platforms request)) eqn:Hin.
  { apply str_in_In in Hin. contradiction. }
  cbn [andb].
  destruct (create_post_loop_isolates E request user_id (platforms request) []
              (mk_world (database w) (S (draws w))))
    as (entries & w2 & -> & Hdb & Hiso); [intros H; contradiction|].
  cbn [app]. rewrite insert_post_Ok
    by (cbn [p_content p_id]; rewrite ?Hdb; assumption).
  destruct (generic_entries_validate _ _ Hiso Htw Hig) as [Hval Hok].
  unfold PostResponse_new. rewrite Hval.
  do 2 eexists. split; [reflexivity|]. split; [reflexivity | exact Hok].
Qed.

Lemma generic_dispatch_succeeds_witness :
  exists resp w',
    create_post demo_env (demo_request ["bluesky"; "youtube"; "gmb"])
      (lit "alice-id") demo_world = (Ok resp, w')
    /\ http_status
         (fst (create_post demo_env (demo_request ["bluesky"; "youtube"; "gmb"])
                 (lit "alice-id") demo_world)) = 200
    /\ Forall2 (fun p d => dict_get "platform" d = Some (PyStr p)
                           /\ dict_get "status" d = Some (PyStr (lit "success")))
         (platforms (demo_request ["bluesky"; "youtube"; "gmb"])) (postIds resp).
Proof.
  apply generic_dispatch_succeeds.
  - reflexivity.
  - intros [H | [H | [H | []]]]; vm_compute in H; discriminate.
  - intros [H | [H | [H | []]]]; vm_compute in H; discriminate.
  - text_literal.
  - reflexivity.
Defined.

(** * Persistence and accounting *)

Lemma update_monthly_posts_rows (user_id : str) (d : db) :
  counter_has_room user_id d ->
  Forall2 (row_after_dispatch user_id) (users d)
    (users (update_monthly_posts user_id d)).
Proof.
  unfold counter_has_room, update_monthly_posts. cbn [users].
  induction (users d) as [|u us IH]; intros Hroom; cbn [map]; constructor.
  - unfold row_after_dispatch.
    destruct (str_eqb (u_id u) user_id) eqn:Hid;
      cbn [u_id u_email u_password u_api_key u_tier u_api_calls u_is_admin
           u_monthly_posts]; repeat split; try lia.
    apply str_eqb_eq in Hid. apply sqlite_add_one_room.
    apply Hroom; [now left | exact Hid].
  - apply IH. intros v Hv. apply Hroom. now right.
Qed.

(** The status of a dispatch is the approval flag and nothing else.
    When a response is returned its status is "awaiting_approval" if
    [requiresApproval] is true and "success" otherwise, and the Post row
    written by the call has the same status; and whenever a Post row is
    written, its status is decided the same way. *)
Lemma post_status_follows_approval_flag (E : Env) (request : PostRequest)
  (user_id : str) (w : world) :
  let expected := match requiresApproval request with
                  | Some true => lit "awaiting_approval"
                  | _ => lit "success"
                  end in
  (forall resp,
     fst (create_post E request user_id w) = Ok resp ->
     status resp = expected
     /\ exists p,
          posts (database (snd (create_post E request user_id w)))
          = posts (database w) ++ [p]
          /\ p_id p = id resp /\ p_user_id p = user_id
          /\ p_status p = expected)
  /\ (posts (database (snd (create_post E request user_id w)))
      <> posts (database w) ->
      exists p,
        posts (database (snd (create_post E request user_id w)))
        = posts (database w) ++ [p]
        /\ p_user_id p = user_id /\ p_status p = expected).
Proof.
  cbv zeta.
  assert (Hflag : (if opt_bool_truthy (requiresApproval request)
                   then lit "awaiting_approval" else lit "success")
                  = match requiresApproval request with
                    | Some true => lit "awaiting_approval"
                    | _ => lit "success"
                    end)
    by (destruct (requiresApproval request) as [[|]|]; reflexivity).
  destruct (create_post_cases E request user_id w)
    as [[Hdb [e He]] | (post_ids & created_at & _ & Hdb & Hres)].
  - split.
    + intros resp Hresp. congruence.
    + intros Hposts. now rewrite Hdb in Hposts.
  - rewrite Hflag in *. rewrite Hdb. cbn [update_monthly_posts posts]. split.
    + intros resp Hresp. rewrite Hres in Hresp.
      apply PostResponse_new_Ok in Hresp as (Hs & Hi & _).
      split; [exact Hs|]. eexists. split; [reflexivity|].
      cbn [p_id p_user_id p_status]. now rewrite Hi.
    + intros _. eexists. split; [reflexivity|]. now split.
Qed.

(** A Post row marked "success" whose entries hold an error: the row
    written by the call with a missing Instagram token. *)
Lemma persisted_success_with_error_entry :
  exists entries w1,
    create_post_loop demo_env (demo_request ["instagram"; "facebook"])
      (lit "alice-id") [lit "instagram"; lit "facebook"] []
      (mk_world (database demo_world) 1)
    = (Ok entries, w1)
    /\ map (dict_get "status") entries
       = [Some (PyStr (lit "error")); Some (PyStr (lit "success"))]
    /\ posts (database
                (snd (create_post demo_env (demo_request ["instagram"; "facebook"])
                        (lit "alice-id") demo_world)))
       = [mk_post_row (demo_uuid4 0) (lit "alice-id") (lit "hello")
            (str_of_strs demo_env [lit "instagram"; lit "facebook"])
            (lit "success") (str_of_dicts demo_env entries)
            (lit "2024-01-01T00:00:00")].
Proof. do 2 eexists. split; [reflexivity|]. split; reflexivity. Qed.

Lemma Forall2_In_r {A B} (R : A -> B -> Prop) (xs : list A) (ys : list B) (y : B) :
  Forall2 R xs ys -> In y ys -> exists x, In x xs /\ R x y.
Proof.
  induction 1 as [|a b xs ys Hab _ IH]; intros Hin; [contradiction|].
  destruct Hin as [->|Hin].
  - exists a. split; [now left | exact Hab].
  - destruct (IH Hin) as (x & Hx & HR). exists x. split; [now right | exact HR].
Qed.

(** An entry with status "error" holds [None] under "id", whichever
    branch of the loop made it. *)
Lemma create_post_entry_error_id (E : Env) (request : PostRequest)
  (user_id platform : str) (w : world) (d : dict) :
  fst (create_post_entry E request user_id platform w) = Ok d ->
  dict_get "status" d = Some (PyStr (lit "error")) ->
  dict_get "id" d = Some PyNone.
Proof.
  unfold create_post_entry.
  destruct (str_eqb platform (lit "twitter")).
  - unfold get_twitter_client, try_except, bind, query, draw, raise, ret.
    destruct (select_user_by_id user_id (database w)) as [u|];
      [destruct (u_is_admin u)|]; cbn [fst];
      try (intros [= <-] _; reflexivity).
    destruct (create_tweet E (draws w) (post request)); cbn [fst];
      intros [= <-] H; [reflexivity|].
    vm_compute in H. discriminate.
  - destruct (str_eqb platform (lit "instagram")).
    + unfold bind, post_to_instagram, bind.
      destruct (get_platform_token E user_id (lit "instagram") w)
        as [[[tk|]|e] w1]; cbn [fst].
      * unfold try_except, bind, draw, raise, ret.
        destruct (instagram_media E _ _ _ _); cbn [fst];
          intros [= <-] H; [reflexivity|].
        vm_compute in H. discriminate.
      * intros [= <-] _. reflexivity.
      * discriminate.
    + unfold bind, MockClient_post, draw, ret. cbn [fst].
      intros [= <-] H. vm_compute in H. discriminate.
Qed.

(** C6: a dispatch whose per-platform results hold an entry with status
    "error" is not reported at all.  The row it persists has its status
    from the approval flag alone, "success" when no approval was asked,
    and holds the error entries; but building the response raises
    [ValidationError] on the [None] under "id" of the error entry, and
    the call is answered 500. *)
Theorem error_entry_is_persisted_but_not_reported (E : Env)
  (request : PostRequest) (user_id : str) (w w1 : world) (entries : list dict) :
  forallb (fun p => str_in p PLATFORMS) (platforms request) = true ->
  (In (lit "twitter") (platforms request) ->
   exists u, select_user_by_id user_id (database w) = Some u
             /\ u_is_admin u = true) ->
  create_post_loop E request user_id (platforms request) []
    (mk_world (database w) (S (draws w))) = (Ok entries, w1) ->
  Exists (fun d => dict_get "status" d = Some (PyStr (lit "error"))) entries ->
  http_status (fst (create_post E request user_id w)) = 500
  /\ (is_text (post request) ->
      existsb (fun q => str_eqb (p_id q) (uuid4 E (draws w)))
        (posts (database w)) = false ->
      fst (create_post E request user_id w) = Raise ValidationError
      /\ exists p,
           posts (database (snd (create_post E request user_id w)))
           = posts (database w) ++ [p]
           /\ p_user_id p = user_id
           /\ p_post_ids p = str_of_dicts E entries
           /\ p_status p = match requiresApproval request with
                           | Some true => lit "awaiting_approval"
                           | _ => lit "success"
                           end).
Proof.
  intros Hall Hgate Hloop Herr.
  assert (Hpass : str_in (lit "twitter") (platforms request)
                  && negb match select_user_by_id user_id (database w) with
                          | Some u => u_is_admin u
                          | None => false
                          end = false).
  { destruct (str_in (lit "twitter") (platforms request)) eqn:Htw;
      [|reflexivity].
    apply str_in_In in Htw. destruct (Hgate Htw) as (u & -> & ->). reflexivity. }
  assert (Hrefused : forall s i, PostResponse_new s i entries
                                 = Raise ValidationError).
  { intros s i. apply Exists_exists in Herr as (d & Hd & Hstatus).
    destruct (create_post_loop_entries E request user_id _ _ _ _ _ Hloop)
      as (entries' & Heq & Hmade). cbn [app] in Heq. subst entries'.
    destruct (Forall2_In_r _ _ _ _ Hmade Hd) as (p & _ & w0 & _ & Hres).
    apply (PostResponse_new_None _ _ _ d Hd).
    exact (create_post_entry_error_id E request user_id p w0 d Hres Hstatus). }
  pose proof (create_post_loop_cases E request user_id (platforms request) []
                (mk_world (database w) (S (draws w)))) as [Hdb _].
  rewrite Hloop in Hdb. cbn [fst snd database] in Hdb.
  rewrite create_post_eq, Hall, Hpass, Hloop. cbn [negb]. split.
  - match goal with
    | |- context [insert_post ?p ?d] =>
        destruct (insert_post_cases p d) as [-> | [-> | [_ ->]]]
    end; cbn [fst]; try reflexivity.
    now rewrite Hrefused.
  - intros Htext Hfresh.
    rewrite insert_post_Ok by (cbn [p_content p_id]; rewrite ?Hdb; assumption).
    cbn [fst snd database update_monthly_posts posts]. rewrite Hdb.
    split; [apply Hrefused|]. eexists. split; [reflexivity|].
    cbn [p_user_id p_post_ids p_status]. repeat split.
    destruct (requiresApproval request) as [[|]|]; reflexivity.
Qed.

Lemma error_entry_is_persisted_but_not_reported_witness :
  http_status
    (fst (create_post demo_env (demo_request ["instagram"; "facebook"])
            (lit "alice-id") demo_world)) = 500
  /\ fst (create_post demo_env (demo_request ["instagram"; "facebook"])
            (lit "alice-id") demo_world) = Raise ValidationError
  /\ exists p,
       posts (database
                (snd (create_post demo_env (demo_request ["instagram"; "facebook"])
                        (lit "alice-id") demo_world)))
       = posts (database demo_world) ++ [p]
       /\ p_user_id p = lit "alice-id"
       /\ p_post_ids p
          = str_of_dicts demo_env
              [[("platform", PyStr (lit "instagram"));
                ("status", PyStr (lit "error")); ("id", PyNone);
                ("error", PyStr (lit "No Instagram token"))];
               [("platform", PyStr (lit "facebook"));
                ("status", PyStr (lit "success")); ("id", PyStr (demo_uuid4 1));
                ("postUrl", PyStr (lit "https://facebook.com/post/"
                                   ++ demo_uuid4 2))]]
       /\ p_status p = lit "success".
Proof.
  destruct (error_entry_is_persisted_but_not_reported demo_env
              (demo_request ["instagram"; "facebook"]) (lit "alice-id")
              demo_world (mk_world (database demo_world) 3)
              [[("platform", PyStr (lit "instagram"));
                ("status", PyStr (lit "error")); ("id", PyNone);
                ("error", PyStr (lit "No Instagram token"))];
               [("platform", PyStr (lit "facebook"));
                ("status", PyStr (lit "success")); ("id", PyStr (demo_uuid4 1));
                ("postUrl", PyStr (lit "https://facebook.com/post/"
                                   ++ demo_uuid4 2))]])
    as [H500 Hrow].
  - reflexivity.
  - intros [H | [H | []]]; vm_compute in H; discriminate.
  - reflexivity.
  - apply Exists_cons_hd. reflexivity.
  - split; [exact H500|]. apply Hrow; [text_literal | reflexivity].
Defined.

(** C7: a dispatch call that writes its Post row adds exactly one to
    [monthly_posts] of the rows of the acting user, whatever the number of
    platforms and of failed entries, and changes no other field of any
    user row; tokens and drafts are as they were.  The counter is taken
    to be an INTEGER of SQLite below the largest one, 2^63 - 1, where
    [+ 1] is exact. *)
Theorem dispatch_increments_monthly_posts_once (E : Env) (request : PostRequest)
  (user_id : str) (w : world) :
  counter_has_room user_id (database w) ->
  posts (database (snd (create_post E request user_id w))) <> posts (database w) ->
  Forall2 (row_after_dispatch user_id)
    (users (database w))
    (users (database (snd (create_post E request user_id w))))
  /\ platform_tokens (database (snd (create_post E request user_id w)))
     = platform_tokens (database w)
  /\ drafts (database (snd (create_post E request user_id w)))
     = drafts (database w).
Proof.
  intros Hroom Hposts.
  destruct (create_post_cases E request user_id w)
    as [[Hdb _] | (post_ids & created_at & _ & Hdb & _)].
  - now rewrite Hdb in Hposts.
  - rewrite Hdb. split; [|split; reflexivity].
    exact (update_monthly_posts_rows user_id
             (mk_db (users (database w)) _ (platform_tokens (database w))
                (drafts (database w))) Hroom).
Qed.

Lemma dispatch_increments_monthly_posts_once_witness :
  Forall2 (row_after_dispatch (lit "alice-id"))
    [alice; root]
    (users (database
              (snd (create_post demo_env
                      (demo_request ["instagram"; "facebook"; "reddit"])
                      (lit "alice-id") demo_world))))
  /\ platform_tokens
       (database
          (snd (create_post demo_env
                  (demo_request ["instagram"; "facebook"; "reddit"])
                  (lit "alice-id") demo_world)))
     = []
  /\ drafts
       (database
          (snd (create_post demo_env
                  (demo_request ["instagram"; "facebook"; "reddit"])
                  (lit "alice-id") demo_world)))
     = [].
Proof.
  apply (dispatch_increments_monthly_posts_once demo_env
           (demo_request ["instagram"; "facebook"; "reddit"])
           (lit "alice-id") demo_world).
  - intros u [<- | [<- | []]] _; cbn [u_monthly_posts alice root]; lia.
  - vm_compute. discriminate.
Defined.

(** A call that writes no Post row writes nothing at all. *)
Lemma dispatch_without_post_writes_nothing (E : Env) (request : PostRequest)
  (user_id : str) (w : world) :
  posts (database (snd (create_post E request user_id w))) = posts (database w) ->
  database (snd (create_post E request user_id w)) = database w.
Proof.
  intros Hposts.
  destruct (create_post_cases E request user_id w)
    as [[Hdb _] | (post_ids & created_at & _ & Hdb & _)]; [exact Hdb|].
  rewrite Hdb in Hposts. cbn [update_monthly_posts posts] in Hposts.
  exfalso. apply (f_equal (@List.length _)) in Hposts.
  rewrite length_app in Hposts. cbn in Hposts. lia.
Qed.

(** The counter itself: one more for alice, the same for root. *)
Lemma dispatch_counter_example :
  map u_monthly_posts
    (users (database
              (snd (create_post demo_env
                      (demo_request ["instagram"; "facebook"; "reddit"])
                      (lit "alice-id") demo_world))))
  = [1; 7].
Proof. reflexivity. Qed.

(** * The other routes *)

Lemma POST_api_user_eq (E : Env) (body : UserCreateRequest) (w : world) :
  POST_api_user E body w =
  match UserCreateRequest_validate E body with
  | Raise e => (Raise e, w)
  | Ok request =>
      match pwd_hash E (draws w) (password request) with
      | Raise e => (Raise e, mk_world (database w) (S (draws w)))
      | Ok hashed =>
          match insert_user
                  (mk_user (uuid4 E (S (S (draws w)))) (lower E (email request))
                     hashed (uuid4 E (S (draws w))) (tier request) 0 0
                     (is_admin request)) (database w) with
          | Ok d' =>
              (Ok [("api_key", PyStr (uuid4 E (S (draws w))))],
               mk_world d' (S (S (S (draws w)))))
          | Raise IntegrityError =>
              (Raise (HTTPException 400 (lit "User exists")),
               mk_world (database w) (S (S (S (draws w)))))
          | Raise e => (Raise e, mk_world (database w) (S (S (S (draws w)))))
          end
      end
  end.
Proof.
  unfold POST_api_user, bind, lift.
  destruct (UserCreateRequest_validate E body) as [request|e]; [|reflexivity].
  unfold create_user, try_except, bind, draw, lift, execute, ret, raise.
  cbn [database draws].
  destruct (pwd_hash E (draws w) (password request)) as [hashed|e];
    [|reflexivity].
  destruct (insert_user _ (database w)) as [d'|e]; [reflexivity|].
  destruct e; reflexivity.
Qed.

Lemma save_draft_eq (E : Env) (request : DraftRequest) (user_id : str) (w : world) :
  save_draft E request user_id w =
  match insert_draft
          (mk_draft (uuid4 E (draws w)) user_id (content request)
             (platform request) (utcnow_isoformat E (S (draws w))))
          (database w) with
  | Ok d' =>
      (Ok [("status", PyStr (lit "success")); ("id", PyStr (uuid4 E (draws w)))],
       mk_world d' (S (S (draws w))))
  | Raise e => (Raise e, mk_world (database w) (S (S (draws w))))
  end.
Proof.
  unfold save_draft, bind, draw, execute, ret.
  cbn [database draws].
  destruct (insert_draft _ (database w)); reflexivity.
Qed.

Lemma delete_post_eq (post_id user_id : str) (w : world) :
  delete_post post_id user_id w =
  match select_post post_id user_id (database w) with
  | Some _ =>
      (Ok [("status", PyStr (lit "deleted"))],
       mk_world (delete_from_posts post_id (database w)) (draws w))
  | None => (Raise (HTTPException 404 (lit "Post not found")), w)
  end.
Proof.
  unfold delete_post, bind, query, execute, ret, raise.
  destruct (select_post post_id user_id (database w)); reflexivity.
Qed.

Lemma get_user_eq (user_id : str) (w : world) :
  get_user user_id w =
  (match select_user_by_id user_id (database w) with
   | Some u => Ok (mk_user_info (u_email u) (u_tier u) (u_is_admin u))
   | None => Raise (HTTPException 404 (lit "User not found"))
   end, w).
Proof.
  unfold get_user, bind, query, ret, raise.
  destruct (select_user_by_id user_id (database w)); reflexivity.
Qed.

(** A route behind the bearer dependency runs its handler only for a key
    that authenticates, and is answered 401 otherwise. *)
Lemma bearer_eq {A} (E : Env) (token : str) (handler : str -> M A) (w : world) :
  bind (get_current_user E token) handler w =
  match select_user_by_api_key token (database w) with
  | None => (Raise (HTTPException 401 (lit "Invalid API key")), w)
  | Some u =>
      if str_eqb (u_tier u) (lit "free") && (20 <=? u_monthly_posts u)
      then (Raise (HTTPException 401 (lit "Invalid API key")), w)
      else handler (u_id u) w
  end.
Proof.
  unfold bind. rewrite get_current_user_eq.
  destruct (select_user_by_api_key token (database w)) as [u|]; [|reflexivity].
  destruct (str_eqb (u_tier u) (lit "free") && (20 <=? u_monthly_posts u));
    reflexivity.
Qed.

Lemma locked_out_test (token : str) (d : db) :
  locked_out token d ->
  exists u, select_user_by_api_key token d = Some u
            /\ str_eqb (u_tier u) (lit "free") && (20 <=? u_monthly_posts u) = true.
Proof.
  intros (u & Hu & Htier & Hposts). exists u. split; [exact Hu|].
  rewrite Htier, str_eqb_refl. now apply Z.leb_le in Hposts as ->.
Qed.

Lemma serve_rejected_key (E : Env) (c : api_call) (token : str) (w : world) :
  bearer_token c = Some token ->
  select_user_by_api_key token (database w) = None
  \/ locked_out token (database w) ->
  serve E c w = (401, w).
Proof.
  intros Hc Hkey.
  assert (H : forall A (handler : str -> M A),
             bind (get_current_user E token) handler w
             = (Raise (HTTPException 401 (lit "Invalid API key")), w)).
  { intros A handler. rewrite bearer_eq.
    destruct Hkey as [-> | Hlock]; [reflexivity|].
    apply locked_out_test in Hlock as (u & -> & ->). reflexivity. }
  destruct c; cbn [bearer_token] in Hc; try discriminate;
    injection Hc as ->; cbn [serve];
    unfold GET_api_user, POST_api_post, POST_api_draft, GET_api_drafts,
      DELETE_api_post; rewrite H; reflexivity.
Qed.

(** A key that does not authenticate, because no user has it or because
    its user is over the free quota, gets 401 from every route that takes
    a bearer token, reads included, and the call changes nothing. *)
Theorem rejected_key_gets_401_everywhere (E : Env) (c : api_call)
  (token : str) (w : world) :
  bearer_token c = Some token ->
  select_user_by_api_key token (database w) = None
  \/ locked_out token (database w) ->
  serve E c w = (401, w).
Proof. exact (serve_rejected_key E c token w). Qed.

Lemma rejected_key_gets_401_everywhere_witness :
  serve demo_env (GetDrafts (lit "alice-key")) quota_world = (401, quota_world).
Proof.
  apply (rejected_key_gets_401_everywhere demo_env _ (lit "alice-key")).
  - reflexivity.
  - right. exists alice_at_quota. split; [reflexivity|]. split; [reflexivity|].
    cbn. lia.
Defined.

(** * What a call can do to the database *)

Lemma create_post_db_step (E : Env) (request : PostRequest) (user_id : str)
  (w : world) :
  db_step (database w) (database (snd (create_post E request user_id w))).
Proof.
  rewrite create_post_eq.
  destruct (negb (forallb _ _)); [constructor|].
  destruct_gate; [constructor|].
  pose proof (create_post_loop_cases E request user_id (platforms request) []
                (mk_world (database w) (S (draws w)))) as [Hdb _].
  destruct (create_post_loop E request user_id (platforms request) [] _)
    as [[post_ids|e] w2]; cbn [fst snd database] in *;
    [|rewrite Hdb; constructor].
  rewrite Hdb.
  match goal with
  | |- context [insert_post ?p ?d] =>
      destruct (insert_post_cases p d) as [-> | [-> | [Hfresh ->]]]
  end; cbn [snd database]; [apply step_none | apply step_none | ].
  exact (step_post (database w)
           (mk_post_row (uuid4 E (draws w)) user_id (post request)
              (str_of_strs E (platforms request))
              (if opt_bool_truthy (requiresApproval request)
               then lit "awaiting_approval" else lit "success")
              (str_of_dicts E post_ids) (utcnow_isoformat E (draws w2)))
           Hfresh).
Qed.

Lemma bearer_db_step {A} (E : Env) (token : str) (handler : str -> M A)
  (w : world) :
  (forall user_id, db_step (database w) (database (snd (handler user_id w)))) ->
  db_step (database w)
    (database (snd (bind (get_current_user E token) handler w))).
Proof.
  intros H. rewrite bearer_eq.
  destruct (select_user_by_api_key token (database w)) as [u|]; [|constructor].
  destruct (_ && _); [constructor | apply H].
Qed.

Lemma serve_db_step (E : Env) (c : api_call) (w : world) :
  db_step (database w) (database (snd (serve E c w))).
Proof.
  destruct c; cbn [serve answer snd].
  - rewrite POST_api_user_eq.
    destruct (UserCreateRequest_validate E body) as [request|e]; [|constructor].
    destruct (pwd_hash E (draws w) (password request)) as [hashed|e];
      [|constructor].
    match goal with
    | |- context [insert_user ?u ?d] =>
        destruct (insert_user_cases u d) as [-> | [-> | [Hfresh ->]]]
    end; cbn [snd database]; [apply step_none | apply step_none | ].
    exact (step_user (database w) _ Hfresh eq_refl eq_refl).
  - rewrite login_user_eq. constructor.
  - apply bearer_db_step. intros user_id. rewrite get_user_eq. constructor.
  - apply bearer_db_step. intros user_id. apply create_post_db_step.
  - apply bearer_db_step. intros user_id. rewrite save_draft_eq.
    match goal with
    | |- context [insert_draft ?r ?d] =>
        destruct (insert_draft_cases r d) as [-> | [-> | [Hfresh ->]]]
    end; cbn [snd database]; [apply step_none | apply step_none | ].
    exact (step_draft (database w)
             (mk_draft (uuid4 E (draws w)) user_id (content request)
                (platform request) (utcnow_isoformat E (S (draws w))))
             Hfresh).
  - apply bearer_db_step. intros user_id. constructor.
  - apply bearer_db_step. intros user_id. rewrite delete_post_eq.
    destruct (select_post post_id user_id (database w)); constructor.
Qed.

(** ** The constraints of the schema *)

Lemma fresh_not_in {A} (f : A -> str) (test : A -> bool) (x : str) (l : list A) :
  (forall a, test a = false -> f a <> x) ->
  existsb test l = false -> ~ In x (map f l).
Proof.
  intros Htest Hl Hin. apply in_map_iff in Hin as (a & Ha & Hin).
  assert (Hex : existsb test l = true).
  { apply existsb_exists. exists a. split; [exact Hin|].
    destruct (test a) eqn:Hta; [reflexivity|]. now apply Htest in Hta. }
  congruence.
Qed.

Lemma NoDup_map_snoc {A B} (f : A -> B) (l : list A) (a : A) :
  NoDup (map f l) -> ~ In (f a) (map f l) -> NoDup (map f (l ++ [a])).
Proof.
  intros Hl Ha. rewrite map_app. cbn [map].
  apply NoDup_app; [exact Hl | repeat constructor; intros [] | ].
  intros x Hx [<- | []]. contradiction.
Qed.

Lemma NoDup_map_filter {A B} (f : A -> B) (g : A -> bool) (l : list A) :
  NoDup (map f l) -> NoDup (map f (filter g l)).
Proof.
  induction l as [|a l IH]; cbn [map filter]; intros H; [constructor|].
  inversion H as [|? ? Hnotin Hrest]; subst.
  destruct (g a); [|now apply IH]. cbn [map]. constructor; [|now apply IH].
  intros Hin. apply Hnotin. apply in_map_iff in Hin as (b & Hb & Hin).
  apply in_map_iff. exists b. split; [exact Hb|].
  now apply filter_In in Hin.
Qed.

Lemma update_monthly_posts_columns (user_id : str) (d : db) :
  map u_id (users (update_monthly_posts user_id d)) = map u_id (users d)
  /\ map u_email (users (update_monthly_posts user_id d)) = map u_email (users d)
  /\ map u_api_key (users (update_monthly_posts user_id d))
     = map u_api_key (users d).
Proof.
  unfold update_monthly_posts. cbn [users]. rewrite !map_map.
  repeat split; apply map_ext; intros u;
    destruct (str_eqb (u_id u) user_id); reflexivity.
Qed.

Ltac fresh_key Hfresh :=
  eapply fresh_not_in; [|exact Hfresh];
  let a := fresh "a" in
  let H := fresh "H" in
  let Heq := fresh "Heq" in
  intros a H Heq; cbv beta in H; rewrite Heq, str_eqb_refl in H;
  repeat rewrite ?orb_true_r, ?orb_true_l in H; discriminate.

Lemma db_step_constraints (d d' : db) :
  db_constraints d -> db_step d d' -> db_constraints d'.
Proof.
  intros (Hid & Hemail & Hkey & Hpost & Hdraft & Htok) Hstep.
  destruct Hstep as [|u Hfresh _ _|p Hfresh|r Hfresh|post_id].
  - repeat split; assumption.
  - unfold db_constraints. cbn [users posts drafts platform_tokens].
    repeat split; try assumption; apply NoDup_map_snoc; try assumption;
      fresh_key Hfresh.
  - destruct (update_monthly_posts_columns (p_user_id p)
                (mk_db (users d) (posts d ++ [p]) (platform_tokens d) (drafts d)))
      as (Ei & Ee & Ek).
    unfold db_constraints. rewrite Ei, Ee, Ek.
    cbn [users posts drafts platform_tokens update_monthly_posts].
    repeat split; try assumption. apply NoDup_map_snoc; [assumption|].
    fresh_key Hfresh.
  - unfold db_constraints. cbn [users posts drafts platform_tokens].
    repeat split; try assumption. apply NoDup_map_snoc; [assumption|].
    fresh_key Hfresh.
  - unfold db_constraints, delete_from_posts.
    cbn [users posts drafts platform_tokens].
    repeat split; try assumption. now apply NoDup_map_filter.
Qed.

Lemma serve_all_db_invariant (P : db -> Prop) (E : Env) :
  (forall d d', P d -> db_step d d' -> P d') ->
  forall calls w, P (database w) -> P (database (serve_all E calls w)).
Proof.
  intros Hstep calls. induction calls as [|c calls IH]; intros w Hw; [exact Hw|].
  cbn [serve_all]. apply IH. exact (Hstep _ _ Hw (serve_db_step E c w)).
Qed.

(** The PRIMARY KEY and UNIQUE constraints of the four tables hold after
    any sequence of calls on a database where they held. *)
Theorem constraints_hold_after_any_calls (E : Env) (calls : list api_call)
  (w : world) :
  db_constraints (database w) ->
  db_constraints (database (serve_all E calls w)).
Proof.
  apply serve_all_db_invariant. exact db_step_constraints.
Qed.

Ltac no_dup :=
  repeat (apply NoDup_cons; [vm_compute; intuition discriminate|]);
  apply NoDup_nil.

Lemma demo_db_constraints : db_constraints demo_db.
Proof. unfold db_constraints, demo_db. cbn [users posts drafts platform_tokens map]. repeat split; no_dup. Qed.

Lemma constraints_hold_after_any_calls_witness :
  db_constraints
    (database
       (serve_all demo_env
          [Register bob_body;
           Post (lit "alice-key") (demo_request ["facebook"; "instagram"]);
           SaveDraft (lit "root-key") (mk_DraftRequest (lit "note") (lit "reddit"));
           DeletePost (lit "alice-key") (demo_uuid4 3)]
          demo_world)).
Proof.
  apply constraints_hold_after_any_calls. exact demo_db_constraints.
Defined.

(** ** User rows *)

Lemma row_kept_refl (u : user) : row_kept u u.
Proof. unfold row_kept. repeat split; lia. Qed.

Lemma row_kept_trans (u v x : user) : row_kept u v -> row_kept v x -> row_kept u x.
Proof.
  unfold row_kept. intros (A1 & A2 & A3 & A4 & A5 & A6 & A7 & A8)
    (B1 & B2 & B3 & B4 & B5 & B6 & B7 & B8).
  repeat split; try congruence; lia.
Qed.

Lemma Forall2_row_kept_refl (us : list user) : Forall2 row_kept us us.
Proof. induction us; constructor; [apply row_kept_refl | assumption]. Qed.

Lemma Forall2_row_kept_trans (us vs xs : list user) :
  Forall2 row_kept us vs -> Forall2 row_kept vs xs -> Forall2 row_kept us xs.
Proof.
  intros H; revert xs. induction H as [|u v us vs Huv _ IH]; intros xs Hx;
    inversion Hx; subst; constructor; [eapply row_kept_trans; eassumption|].
  now apply IH.
Qed.

Lemma users_kept_refl (us : list user) : users_kept us us.
Proof.
  exists us, []. split; [now rewrite app_nil_r | apply Forall2_row_kept_refl].
Qed.

Lemma users_kept_trans (us vs xs : list user) :
  users_kept us vs -> users_kept vs xs -> users_kept us xs.
Proof.
  intros (old1 & new1 & -> & H1) (old2 & new2 & -> & H2).
  apply Forall2_app_inv_l in H2 as (a & b & Ha & Hb & ->).
  exists a, (b ++ new2). split; [now rewrite app_assoc|].
  eapply Forall2_row_kept_trans; eassumption.
Qed.

Lemma db_step_users_kept (d d' : db) :
  db_step d d' -> users_kept (users d) (users d').
Proof.
  intros [|u _ _ _|p _|r _|post_id]; cbn [users delete_from_posts];
    try apply users_kept_refl.
  - exists (users d), [u]. split; [reflexivity | apply Forall2_row_kept_refl].
  - exists (users (update_monthly_posts (p_user_id p)
                     (mk_db (users d) (posts d ++ [p]) (platform_tokens d)
                        (drafts d)))), [].
    split; [now rewrite app_nil_r|].
    unfold update_monthly_posts. cbn [users].
    induction (users d) as [|u us IH]; cbn [map]; constructor; [|exact IH].
    unfold row_kept. destruct (str_eqb (u_id u) (p_user_id p));
      cbn [u_id u_email u_password u_api_key u_tier u_api_calls u_is_admin
           u_monthly_posts];
      repeat split; try lia. apply sqlite_add_one_le.
Qed.

Lemma serve_all_users_kept (E : Env) (calls : list api_call) (w : world) :
  users_kept (users (database w)) (users (database (serve_all E calls w))).
Proof.
  revert w. induction calls as [|c calls IH]; intros w;
    [apply users_kept_refl|].
  cbn [serve_all]. eapply users_kept_trans; [|apply IH].
  apply db_step_users_kept, serve_db_step.
Qed.

(** No sequence of calls removes or moves a user row, or changes its id,
    e-mail, password hash, API key, tier, [api_calls] or admin flag;
    [monthly_posts] is never lowered. *)
Theorem user_rows_are_kept (E : Env) (calls : list api_call) (w : world) :
  users_kept (users (database w)) (users (database (serve_all E calls w))).
Proof. exact (serve_all_users_kept E calls w). Qed.

Lemma find_row_kept (key : user -> str) (x : str) (us old new : list user) (u : user) :
  (forall a b, row_kept a b -> key b = key a) ->
  Forall2 row_kept us old ->
  find (fun v => str_eqb (key v) x) us = Some u ->
  exists u', find (fun v => str_eqb (key v) x) (old ++ new) = Some u'
             /\ row_kept u u'.
Proof.
  intros Hkey H. induction H as [|a b us old Hab _ IH]; cbn [find app];
    [discriminate|].
  rewrite (Hkey a b Hab). destruct (str_eqb (key a) x).
  - intros [= <-]. now exists b.
  - exact IH.
Qed.

Lemma locked_out_kept (token : str) (d d' : db) :
  users_kept (users d) (users d') -> locked_out token d -> locked_out token d'.
Proof.
  intros (old & new & Heq & Hold) (u & Hu & Htier & Hposts).
  unfold select_user_by_api_key in Hu.
  destruct (find_row_kept u_api_key token _ _ new u
              (fun a b H => proj1 (proj2 (proj2 (proj2 H)))) Hold Hu)
    as (u' & Hu' & Hkept).
  exists u'. unfold select_user_by_api_key. rewrite Heq. split; [exact Hu'|].
  destruct Hkept as (_ & _ & _ & _ & Ht & _ & _ & Hp). split; [congruence | lia].
Qed.

(** A user over the free quota stays locked out: whatever calls follow,
    by anyone, every later call with that key to a route that takes a
    bearer token is answered 401 and changes nothing.  Nothing resets the
    counter. *)
Theorem quota_lockout_is_permanent (E : Env) (calls : list api_call)
  (c : api_call) (token : str) (w : world) :
  locked_out token (database w) ->
  bearer_token c = Some token ->
  locked_out token (database (serve_all E calls w))
  /\ serve E c (serve_all E calls w) = (401, serve_all E calls w).
Proof.
  intros Hlock Hc.
  assert (Hlater : locked_out token (database (serve_all E calls w)))
    by (eapply locked_out_kept; [apply serve_all_users_kept | exact Hlock]).
  split; [exact Hlater|].
  apply (serve_rejected_key E c token); [exact Hc | now right].
Qed.

Lemma quota_lockout_is_permanent_witness :
  locked_out (lit "alice-key")
    (database
       (serve_all demo_env
          [Register bob_body; DeletePost (lit "alice-key") (lit "any");
           Post (lit "root-key") (demo_request ["facebook"])]
          quota_world))
  /\ serve demo_env (GetUser (lit "alice-key"))
       (serve_all demo_env
          [Register bob_body; DeletePost (lit "alice-key") (lit "any");
           Post (lit "root-key") (demo_request ["facebook"])]
          quota_world)
     = (401,
        serve_all demo_env
          [Register bob_body; DeletePost (lit "alice-key") (lit "any");
           Post (lit "root-key") (demo_request ["facebook"])]
          quota_world).
Proof.
  apply quota_lockout_is_permanent.
  - exists alice_at_quota. split; [reflexivity|]. split; [reflexivity|].
    cbn. lia.
  - reflexivity.
Defined.

(** * The account route *)

Lemma find_unique_key {A} (key : A -> str) (l : list A) (a : A) :
  NoDup (map key l) -> In a l ->
  find (fun v => str_eqb (key v) (key a)) l = Some a.
Proof.
  induction l as [|b l IH]; cbn [map find In]; intros Hnd Hin; [contradiction|].
  inversion Hnd as [|? ? Hnotin Hrest]; subst.
  destruct (str_eqb (key b) (key a)) eqn:Heq.
  - apply str_eqb_eq in Heq. destruct Hin as [-> | Hin]; [reflexivity|].
    exfalso. apply Hnotin. rewrite Heq. now apply in_map.
  - destruct Hin as [-> | Hin]; [now rewrite str_eqb_refl in Heq | now apply IH].
Qed.

(** [GET /api/user] answers a key that authenticates with the e-mail,
    tier and admin flag of the row that holds the key, and any other key
    with 401; the "User not found" branch is never taken, and nothing is
    written. *)
Theorem get_user_answers_with_own_row (E : Env) (token : str) (w : world) :
  db_constraints (database w) ->
  GET_api_user E token w =
  (match select_user_by_api_key token (database w) with
   | Some u =>
       if str_eqb (u_tier u) (lit "free") && (20 <=? u_monthly_posts u)
       then Raise (HTTPException 401 (lit "Invalid API key"))
       else Ok (mk_user_info (u_email u) (u_tier u) (u_is_admin u))
   | None => Raise (HTTPException 401 (lit "Invalid API key"))
   end, w)
  /\ http_status (fst (GET_api_user E token w)) <> 404.
Proof.
  intros (Hid & _).
  assert (Heq : GET_api_user E token w =
    (match select_user_by_api_key token (database w) with
     | Some u =>
         if str_eqb (u_tier u) (lit "free") && (20 <=? u_monthly_posts u)
         then Raise (HTTPException 401 (lit "Invalid API key"))
         else Ok (mk_user_info (u_email u) (u_tier u) (u_is_admin u))
     | None => Raise (HTTPException 401 (lit "Invalid API key"))
     end, w)).
  { unfold GET_api_user. rewrite bearer_eq.
    destruct (select_user_by_api_key token (database w)) as [u|] eqn:Hu;
      [|reflexivity].
    destruct (_ && _); [reflexivity|].
    rewrite get_user_eq. unfold select_user_by_id.
    apply find_some in Hu as [Hin _].
    now rewrite (find_unique_key u_id _ u Hid Hin). }
  split; [exact Heq|]. rewrite Heq. cbn [fst].
  destruct (select_user_by_api_key token (database w)) as [u|];
    [destruct (_ && _)|]; discriminate.
Qed.

Lemma get_user_answers_with_own_row_witness :
  GET_api_user demo_env (lit "root-key") demo_world =
  (match select_user_by_api_key (lit "root-key") (database demo_world) with
   | Some u =>
       if str_eqb (u_tier u) (lit "free") && (20 <=? u_monthly_posts u)
       then Raise (HTTPException 401 (lit "Invalid API key"))
       else Ok (mk_user_info (u_email u) (u_tier u) (u_is_admin u))
   | None => Raise (HTTPException 401 (lit "Invalid API key"))
   end, demo_world)
  /\ http_status (fst (GET_api_user demo_env (lit "root-key") demo_world)) <> 404.
Proof.
  apply get_user_answers_with_own_row. exact demo_db_constraints.
Defined.

(** * Drafts *)

Lemma text_compare_antisym (a b : str) :
  text_compare b a = CompOpp (text_compare a b).
Proof.
  revert b. induction a as [|x a IH]; intros [|y b]; cbn [text_compare];
    try reflexivity.
  rewrite (Z.compare_antisym x y). destruct (x ?= y); cbn [CompOpp];
    [apply IH | reflexivity | reflexivity].
Qed.

Lemma text_ltb_asym (a b : str) : text_ltb a b = true -> text_ltb b a = false.
Proof.
  unfold text_ltb. rewrite (text_compare_antisym a b).
  destruct (text_compare a b); cbn [CompOpp]; congruence.
Qed.

Lemma text_ltb_cons (x y : Z) (a b : str) :
  text_ltb (x :: a) (y :: b) = (x <? y) || ((x =? y) && text_ltb a b).
Proof.
  unfold text_ltb. cbn [text_compare].
  destruct (Z.compare_spec x y) as [-> | Hlt | Hgt].
  - now rewrite Z.ltb_irrefl, Z.eqb_refl.
  - apply Z.ltb_lt in Hlt as ->. reflexivity.
  - destruct (Z.ltb_spec x y); [lia|]. destruct (Z.eqb_spec x y); [lia|].
    reflexivity.
Qed.

(** If [a] sorts before [c], every [b] has [a] before it or is before [c]. *)
Lemma text_ltb_between (a : str) :
  forall b c,
    text_ltb a c = true -> text_ltb a b = true \/ text_ltb b c = true.
Proof.
  induction a as [|x a IH]; intros b c Hac.
  - destruct c as [|z c]; [discriminate|].
    destruct b as [|y b]; [now right | now left].
  - destruct c as [|z c]; [discriminate|].
    destruct b as [|y b]; [now right|].
    rewrite !text_ltb_cons in *.
    destruct (Z.ltb_spec x z); destruct (Z.ltb_spec x y);
      destruct (Z.ltb_spec y z); cbn [orb] in *; auto; try lia.
    all: destruct (Z.eqb_spec x z); destruct (Z.eqb_spec x y);
      destruct (Z.eqb_spec y z); cbn [andb] in *; auto; try lia;
      try discriminate.
Qed.

Lemma newer_or_same_trans (a b c : draft) :
  newer_or_same a b -> newer_or_same b c -> newer_or_same a c.
Proof.
  unfold newer_or_same. intros Hab Hbc.
  destruct (text_ltb (d_created_at a) (d_created_at c)) eqn:Hac; [|reflexivity].
  destruct (text_ltb_between _ (d_created_at b) _ Hac); congruence.
Qed.

Lemma insert_by_created_at_perm (r : draft) (l : list draft) :
  Permutation (insert_by_created_at r l) (r :: l).
Proof.
  induction l as [|x l IH]; cbn [insert_by_created_at]; [reflexivity|].
  destruct (text_ltb (d_created_at r) (d_created_at x)); [|reflexivity].
  rewrite IH. apply perm_swap.
Qed.

Lemma order_by_created_at_desc_perm (l : list draft) :
  Permutation (order_by_created_at_desc l) l.
Proof.
  induction l as [|r l IH]; cbn; [constructor|].
  fold (order_by_created_at_desc l). rewrite insert_by_created_at_perm.
  now constructor.
Qed.

Lemma insert_by_created_at_sorted (r : draft) (l : list draft) :
  Sorted newer_or_same l -> Sorted newer_or_same (insert_by_created_at r l).
Proof.
  induction l as [|x l IH]; cbn [insert_by_created_at]; intros Hs.
  - repeat constructor.
  - destruct (text_ltb (d_created_at r) (d_created_at x)) eqn:Hrx.
    + inversion Hs as [|? ? Hl Hhd]; subst. constructor; [now apply IH|].
      destruct l as [|y l]; cbn [insert_by_created_at].
      * constructor. now apply text_ltb_asym.
      * destruct (text_ltb (d_created_at r) (d_created_at y));
          constructor; [now inversion Hhd | now apply text_ltb_asym].
    + constructor; [exact Hs | now constructor].
Qed.

Lemma order_by_created_at_desc_sorted (l : list draft) :
  StronglySorted newer_or_same (order_by_created_at_desc l).
Proof.
  apply Sorted_StronglySorted; [exact newer_or_same_trans|].
  induction l as [|r l IH]; cbn; [constructor|].
  now apply insert_by_created_at_sorted.
Qed.

(** [get_drafts] lists the drafts of the caller, all of them and no
    others, each once, newest first by [created_at]; it writes nothing. *)
Theorem get_drafts_lists_own_drafts_newest_first (user_id : str) (w : world) :
  get_drafts user_id w
  = (Ok (map draft_json (select_drafts user_id (database w))), w)
  /\ Permutation (select_drafts user_id (database w))
       (filter (fun r => str_eqb (d_user_id r) user_id) (drafts (database w)))
  /\ (forall r, In r (select_drafts user_id (database w))
                <-> In r (drafts (database w)) /\ d_user_id r = user_id)
  /\ StronglySorted newer_or_same (select_drafts user_id (database w)).
Proof.
  split; [reflexivity|]. unfold select_drafts.
  split; [apply order_by_created_at_desc_perm|].
  split; [|apply order_by_created_at_desc_sorted].
  intros r. split.
  - intros Hin.
    apply (Permutation_in _ (order_by_created_at_desc_perm _)) in Hin.
    apply filter_In in Hin as [Hin Heq]. now apply str_eqb_eq in Heq.
  - intros [Hin Heq].
    apply (Permutation_in _ (Permutation_sym (order_by_created_at_desc_perm _))).
    apply filter_In. split; [exact Hin | now apply str_eqb_eq].
Qed.

(** A draft that was saved is listed for its owner, with the identifier
    the call returned and the content and platform of the request; the
    owner's listing gains that draft and nothing else, and the listing of
    every other user is as it was. *)
Theorem saved_draft_is_listed (E : Env) (request : DraftRequest)
  (user_id : str) (w w' : world) (reply : dict) :
  save_draft E request user_id w = (Ok reply, w') ->
  exists r,
    reply = [("status", PyStr (lit "success")); ("id", PyStr (d_id r))]
    /\ d_user_id r = user_id
    /\ d_content r = content request
    /\ d_platform r = platform request
    /\ Permutation (select_drafts user_id (database w'))
         (r :: select_drafts user_id (database w))
    /\ forall other, other <> user_id ->
         select_drafts other (database w') = select_drafts other (database w).
Proof.
  rewrite save_draft_eq.
  match goal with
  | |- context [insert_draft ?r ?d] =>
      destruct (insert_draft_cases r d) as [-> | [-> | [_ ->]]]
  end; try discriminate.
  intros [= <- <-].
  exists (mk_draft (uuid4 E (draws w)) user_id (content request)
            (platform request) (utcnow_isoformat E (S (draws w)))).
  split; [reflexivity|].
  cbn [d_user_id d_content d_platform]. repeat split.
  - unfold select_drafts. cbn [database drafts]. rewrite filter_app.
    cbn [filter d_user_id]. rewrite str_eqb_refl.
    rewrite order_by_created_at_desc_perm.
    rewrite <- Permutation_cons_append. constructor.
    symmetry. apply order_by_created_at_desc_perm.
  - intros other Hother. unfold select_drafts. cbn [database drafts].
    rewrite filter_app. cbn [filter d_user_id].
    rewrite (str_eqb_neq user_id other) by congruence.
    now rewrite app_nil_r.
Qed.

Lemma saved_draft_is_listed_witness :
  exists r,
    [("status", PyStr (lit "success")); ("id", PyStr (demo_uuid4 0))]
    = [("status", PyStr (lit "success")); ("id", PyStr (d_id r))]
    /\ d_user_id r = lit "alice-id"
    /\ d_content r = content (mk_DraftRequest (lit "note") (lit "reddit"))
    /\ d_platform r = platform (mk_DraftRequest (lit "note") (lit "reddit"))
    /\ Permutation
         (select_drafts (lit "alice-id")
            (database
               (snd (save_draft demo_env
                       (mk_DraftRequest (lit "note") (lit "reddit"))
                       (lit "alice-id") demo_world))))
         (r :: select_drafts (lit "alice-id") (database demo_world))
    /\ forall other, other <> lit "alice-id" ->
         select_drafts other
           (database
              (snd (save_draft demo_env
                      (mk_DraftRequest (lit "note") (lit "reddit"))
                      (lit "alice-id") demo_world)))
         = select_drafts other (database demo_world).
Proof.
  apply (saved_draft_is_listed demo_env
           (mk_DraftRequest (lit "note") (lit "reddit")) (lit "alice-id")
           demo_world).
  reflexivity.
Defined.

(** * Deleting a post *)

Lemma existsb_false_find {A} (test : A -> bool) (l : list A) :
  existsb test l = false -> find test l = None.
Proof.
  induction l as [|a l IH]; cbn [existsb find]; [reflexivity|].
  destruct (test a); [discriminate | exact IH].
Qed.

Lemma existsb_false_filter {A} (test : A -> bool) (l : list A) :
  existsb test l = false -> filter (fun a => negb (test a)) l = l.
Proof.
  induction l as [|a l IH]; cbn [existsb filter]; [reflexivity|].
  destruct (test a); [discriminate|]. cbn [negb orb]. intros H. now rewrite IH.
Qed.

Lemma find_app_none {A} (test : A -> bool) (l l' : list A) :
  find test l = None -> find test (l ++ l') = find test l'.
Proof.
  induction l as [|a l IH]; cbn [find app]; [reflexivity|].
  destruct (test a); [discriminate | exact IH].
Qed.

(** Deleting a post of one's own removes that row and no other, leaves
    users, tokens and drafts as they were (the counter included: the
    quota is not given back), and a second delete of the same id is
    answered 404. *)
Theorem delete_post_removes_own_post_only (post_id user_id : str) (w : world)
  (p : post_row) :
  NoDup (map p_id (posts (database w))) ->
  select_post post_id user_id (database w) = Some p ->
  exists w',
    delete_post post_id user_id w = (Ok [("status", PyStr (lit "deleted"))], w')
    /\ (forall q, In q (posts (database w'))
                  <-> In q (posts (database w)) /\ q <> p)
    /\ users (database w') = users (database w)
    /\ platform_tokens (database w') = platform_tokens (database w)
    /\ drafts (database w') = drafts (database w)
    /\ http_status (fst (delete_post post_id user_id w')) = 404.
Proof.
  intros Hnd Hp. rewrite delete_post_eq, Hp. eexists. split; [reflexivity|].
  cbn [database delete_from_posts posts users platform_tokens drafts].
  unfold select_post in Hp. apply find_some in Hp as [Hin Htest].
  apply andb_true_iff in Htest as [Hid _]. apply str_eqb_eq in Hid.
  split; [|repeat split].
  - intros q. rewrite filter_In. split.
    + intros [Hq Hne]. split; [exact Hq|]. intros ->.
      now rewrite Hid, str_eqb_refl in Hne.
    + intros [Hq Hne]. split; [exact Hq|].
      destruct (str_eqb (p_id q) post_id) eqn:Heq; [|reflexivity].
      exfalso. apply Hne. apply str_eqb_eq in Heq.
      pose proof (find_unique_key p_id _ q Hnd Hq) as Fq.
      pose proof (find_unique_key p_id _ p Hnd Hin) as Fp.
      rewrite Heq in Fq. rewrite Hid in Fp. congruence.
  - rewrite delete_post_eq. unfold select_post.
    cbn [database delete_from_posts posts].
    rewrite existsb_false_find; [reflexivity|].
    apply not_true_is_false. intros Hex. apply existsb_exists in Hex
      as (q & Hq & Htest).
    apply filter_In in Hq as [_ Hne].
    apply andb_true_iff in Htest as [Heq _]. now rewrite Heq in Hne.
Qed.

Lemma delete_post_removes_own_post_only_witness :
  exists w',
    delete_post (lit "post-1") (lit "alice-id") posted_world
    = (Ok [("status", PyStr (lit "deleted"))], w')
    /\ (forall q, In q (posts (database w'))
                  <-> In q (posts (database posted_world)) /\ q <> demo_post)
    /\ users (database w') = users (database posted_world)
    /\ platform_tokens (database w') = platform_tokens (database posted_world)
    /\ drafts (database w') = drafts (database posted_world)
    /\ http_status (fst (delete_post (lit "post-1") (lit "alice-id") w')) = 404.
Proof.
  apply delete_post_removes_own_post_only.
  - cbn [posted_world database posts map]. no_dup.
  - reflexivity.
Defined.

(** A caller who owns no post with the given id, because there is none or
    because it belongs to someone else, is answered 404 and nothing is
    deleted. *)
Theorem delete_post_of_another_user_404 (post_id user_id : str) (w : world) :
  (forall p, In p (posts (database w)) -> p_id p = post_id ->
             p_user_id p <> user_id) ->
  delete_post post_id user_id w
  = (Raise (HTTPException 404 (lit "Post not found")), w).
Proof.
  intros Hown. rewrite delete_post_eq. unfold select_post.
  rewrite existsb_false_find; [reflexivity|].
  apply not_true_is_false. intros Hex.
  apply existsb_exists in Hex as (p & Hp & Htest).
  apply andb_true_iff in Htest as [Hid Huser].
  apply str_eqb_eq in Hid, Huser. exact (Hown p Hp Hid Huser).
Qed.

Lemma delete_post_of_another_user_404_witness :
  delete_post (lit "post-2") (lit "alice-id") posted_world
  = (Raise (HTTPException 404 (lit "Post not found")), posted_world).
Proof.
  apply delete_post_of_another_user_404.
  intros p [<- | [<- | []]] Hid; vm_compute in Hid; discriminate.
Defined.

(** A post that was answered 200 can be deleted by its author under the
    id of the response; the posts table is then what it was before the
    post, while the author's counter keeps the increment (one more, for a
    counter that is an INTEGER below the largest one). *)
Theorem deleting_a_new_post_restores_the_table (E : Env) (request : PostRequest)
  (user_id : str) (w w' : world) (resp : PostResponse) :
  counter_has_room user_id (database w) ->
  create_post E request user_id w = (Ok resp, w') ->
  exists w'',
    delete_post (id resp) user_id w'
    = (Ok [("status", PyStr (lit "deleted"))], w'')
    /\ posts (database w'') = posts (database w)
    /\ users (database w'') = users (database w')
    /\ Forall2 (row_after_dispatch user_id) (users (database w))
         (users (database w'')).
Proof.
  intros Hroom. rewrite create_post_eq.
  destruct (negb (forallb _ _)); [discriminate|].
  destruct_gate; [discriminate|].
  pose proof (create_post_loop_cases E request user_id (platforms request) []
                (mk_world (database w) (S (draws w)))) as [Hdb _].
  destruct (create_post_loop E request user_id (platforms request) [] _)
    as [[post_ids|e] w2]; [|discriminate].
  cbn [fst snd database] in Hdb. rewrite Hdb.
  match goal with
  | |- context [insert_post ?p ?d] =>
      destruct (insert_post_cases p d) as [-> | [-> | [Hfresh ->]]]
  end; try discriminate.
  cbn [p_id] in Hfresh.
  intros [= Hresp <-]. apply PostResponse_new_Ok in Hresp as (_ & -> & _).
  rewrite delete_post_eq. unfold select_post.
  cbn [database update_monthly_posts posts users].
  assert (Hnone : existsb
            (fun p => str_eqb (p_id p) (uuid4 E (draws w))
                      && str_eqb (p_user_id p) user_id) (posts (database w))
          = false).
  { apply not_true_is_false. intros Hex.
    apply existsb_exists in Hex as (q & Hq & Htest).
    apply andb_true_iff in Htest as [Hid _].
    assert (existsb (fun q => str_eqb (p_id q) (uuid4 E (draws w)))
              (posts (database w)) = true)
      by (apply existsb_exists; now exists q).
    congruence. }
  rewrite find_app_none by now apply existsb_false_find.
  cbn [find p_id p_user_id]. rewrite !str_eqb_refl. cbn [andb].
  eexists. split; [reflexivity|].
  cbn [database delete_from_posts update_monthly_posts posts users].
  split; [|split; [reflexivity|]].
  - rewrite filter_app. cbn [filter p_id]. rewrite str_eqb_refl. cbn [negb].
    rewrite app_nil_r. now apply existsb_false_filter.
  - exact (update_monthly_posts_rows user_id
             (mk_db (users (database w)) (posts (database w))
                (platform_tokens (database w)) (drafts (database w))) Hroom).
Qed.

Lemma deleting_a_new_post_restores_the_table_witness :
  exists w'',
    delete_post (demo_uuid4 0) (lit "alice-id")
      (snd (create_post demo_env (demo_request ["facebook"; "reddit"])
              (lit "alice-id") posted_world))
    = (Ok [("status", PyStr (lit "deleted"))], w'')
    /\ posts (database w'') = posts (database posted_world)
    /\ users (database w'')
       = users (database
                  (snd (create_post demo_env (demo_request ["facebook"; "reddit"])
                          (lit "alice-id") posted_world)))
    /\ Forall2 (row_after_dispatch (lit "alice-id"))
         (users (database posted_world)) (users (database w'')).
Proof.
  apply (deleting_a_new_post_restores_the_table demo_env
           (demo_request ["facebook"; "reddit"]) (lit "alice-id") posted_world
           (snd (create_post demo_env (demo_request ["facebook"; "reddit"])
                   (lit "alice-id") posted_world))
           (mk_PostResponse (lit "success") (demo_uuid4 0)
              [[("platform", PyStr (lit "facebook"));
                ("status", PyStr (lit "success"));
                ("id", PyStr (demo_uuid4 1));
                ("postUrl", PyStr (lit "https://facebook.com/post/" ++ demo_uuid4 2))];
               [("platform", PyStr (lit "reddit"));
                ("status", PyStr (lit "success"));
                ("id", PyStr (demo_uuid4 3));
                ("postUrl", PyStr (lit "https://reddit.com/post/" ++ demo_uuid4 4))]])).
  - intros u [<- | [<- | []]] _; cbn [u_monthly_posts alice root]; lia.
  - reflexivity.
Defined.

(** * Registration *)

Lemma opt_str_eqb_eq (a b : option str) : opt_str_eqb a b = true <-> a = b.
Proof.
  destruct a as [x|], b as [y|]; cbn [opt_str_eqb]; split; try congruence;
    try reflexivity.
  - intros H. apply str_eqb_eq in H. congruence.
  - intros [= ->]. apply str_eqb_refl.
Qed.

(** What a body that passed validation looks like. *)
Lemma UserCreateRequest_validate_Ok (E : Env) (body request : UserCreateRequest) :
  UserCreateRequest_validate E body = Ok request ->
  exists normalised,
    email_validate E (email body) = Some normalised
    /\ request = mk_UserCreateRequest normalised (password body)
                   (confirm_password body) (admin_secret body) (is_admin body)
                   (tier body)
    /\ (password body = [] \/ confirm_password body = password body)
    /\ (is_admin body = true -> admin_secret body = ADMIN_SECRET E).
Proof.
  unfold UserCreateRequest_validate, passwords_match, restrict_admin.
  destruct (email_validate E (email body)) as [normalised|]; [|discriminate].
  destruct (str_truthy (password body)
            && negb (str_eqb (confirm_password body) (password body))) eqn:Hpw;
    [discriminate|].
  destruct (is_admin body
            && negb (opt_str_eqb (admin_secret body) (ADMIN_SECRET E))) eqn:Hadm;
    [discriminate|].
  intros [= <-]. exists normalised. split; [reflexivity|]. split; [reflexivity|].
  split.
  - destruct (password body) as [|c pw]; [now left|]. right.
    cbn [str_truthy andb] in Hpw. apply negb_false_iff in Hpw.
    now apply str_eqb_eq in Hpw.
  - intros Hflag. rewrite Hflag in Hadm. cbn [andb] in Hadm.
    apply negb_false_iff in Hadm. now apply opt_str_eqb_eq in Hadm.
Qed.

Lemma UserCreateRequest_validate_Raise (E : Env) (body : UserCreateRequest)
  (e : exn) :
  UserCreateRequest_validate E body = Raise e -> e = RequestValidationError.
Proof.
  unfold UserCreateRequest_validate.
  repeat match goal with
         | |- context [match ?x with _ => _ end] => destruct x
         end; congruence.
Qed.

Lemma fresh_user_not_found (key : user -> str) (u : user) (us : list user) :
  (forall v, str_eqb (u_id v) (u_id u) || str_eqb (u_email v) (u_email u)
             || str_eqb (u_api_key v) (u_api_key u) = false ->
             str_eqb (key v) (key u) = false) ->
  existsb (fun v => str_eqb (u_id v) (u_id u) || str_eqb (u_email v) (u_email u)
                    || str_eqb (u_api_key v) (u_api_key u)) us = false ->
  find (fun v => str_eqb (key v) (key u)) (us ++ [u]) = Some u.
Proof.
  intros Hkey Hfresh. rewrite find_app_none.
  - cbn [find]. now rewrite str_eqb_refl.
  - apply existsb_false_find. apply not_true_is_false. intros Hex.
    apply existsb_exists in Hex as (v & Hv & Htest).
    assert (Hv' : str_eqb (u_id v) (u_id u) || str_eqb (u_email v) (u_email u)
                  || str_eqb (u_api_key v) (u_api_key u) = false).
    { destruct (_ || _ || _) eqn:Hor; [|reflexivity].
      exfalso. assert (existsb (fun v => str_eqb (u_id v) (u_id u)
                                          || str_eqb (u_email v) (u_email u)
                                          || str_eqb (u_api_key v) (u_api_key u))
                         us = true)
        by (apply existsb_exists; now exists v).
      congruence. }
    apply Hkey in Hv'. congruence.
Qed.

(** What a registration that was answered 200 has done. *)
Lemma POST_api_user_Ok (E : Env) (body : UserCreateRequest) (w w' : world)
  (reply : dict) :
  POST_api_user E body w = (Ok reply, w') ->
  exists normalised hashed u,
    email_validate E (email body) = Some normalised
    /\ pwd_hash E (draws w) (password body) = Ok hashed
    /\ u = mk_user (uuid4 E (S (S (draws w)))) (lower E normalised) hashed
             (uuid4 E (S (draws w))) (tier body) 0 0 (is_admin body)
    /\ reply = [("api_key", PyStr (u_api_key u))]
    /\ database w'
       = mk_db (users (database w) ++ [u]) (posts (database w))
           (platform_tokens (database w)) (drafts (database w))
    /\ existsb (fun v => str_eqb (u_id v) (u_id u)
                         || str_eqb (u_email v) (u_email u)
                         || str_eqb (u_api_key v) (u_api_key u))
         (users (database w)) = false
    /\ (is_admin body = true -> admin_secret body = ADMIN_SECRET E).
Proof.
  rewrite POST_api_user_eq.
  destruct (UserCreateRequest_validate E body) as [request|e] eqn:Hval;
    [|discriminate].
  apply UserCreateRequest_validate_Ok in Hval
    as (normalised & Hemail & -> & _ & Hadmin).
  cbn [password email tier is_admin].
  destruct (pwd_hash E (draws w) (password body)) as [hashed|e] eqn:Hhash;
    [|discriminate].
  match goal with
  | |- context [insert_user ?u ?d] =>
      destruct (insert_user_cases u d) as [-> | [-> | [Hfresh ->]]]
  end; try discriminate.
  intros [= <- <-]. exists normalised, hashed. eexists.
  split; [exact Hemail|]. split; [reflexivity|]. split; [reflexivity|].
  split; [reflexivity|]. split; [reflexivity|]. split; [exact Hfresh|exact Hadmin].
Qed.

(** The key returned by a registration authenticates, as the row just
    written: a new last row with the requested tier and admin flag and
    both counters at zero. *)
Theorem registered_key_authenticates (E : Env) (body : UserCreateRequest)
  (w w' : world) (reply : dict) :
  POST_api_user E body w = (Ok reply, w') ->
  exists key u,
    reply = [("api_key", PyStr key)]
    /\ users (database w') = users (database w) ++ [u]
    /\ u_api_key u = key
    /\ u_tier u = tier body
    /\ u_is_admin u = is_admin body
    /\ u_monthly_posts u = 0 /\ u_api_calls u = 0
    /\ get_current_user E key w' = (Ok (u_id u), w').
Proof.
  intros H. apply POST_api_user_Ok in H
    as (normalised & hashed & u & _ & _ & Hu & -> & Hdb & Hfresh & _).
  exists (u_api_key u), u. split; [reflexivity|].
  rewrite Hdb. cbn [users]. split; [reflexivity|].
  split; [reflexivity|].
  split; [now rewrite Hu|]. split; [now rewrite Hu|].
  split; [now rewrite Hu|]. split; [now rewrite Hu|].
  rewrite get_current_user_eq, Hdb. unfold select_user_by_api_key. cbn [users].
  rewrite (fresh_user_not_found u_api_key u) by
    (try exact Hfresh; intros v Hv; now apply orb_false_iff in Hv as [_ Hv]).
  replace (20 <=? u_monthly_posts u) with false by (now rewrite Hu).
  now rewrite andb_false_r.
Qed.

Lemma registered_key_authenticates_witness :
  exists key u,
    [("api_key", PyStr (demo_uuid4 1))] = [("api_key", PyStr key)]
    /\ users (database (snd (POST_api_user demo_env bob_body demo_world)))
       = users (database demo_world) ++ [u]
    /\ u_api_key u = key
    /\ u_tier u = tier bob_body
    /\ u_is_admin u = is_admin bob_body
    /\ u_monthly_posts u = 0 /\ u_api_calls u = 0
    /\ get_current_user demo_env key
         (snd (POST_api_user demo_env bob_body demo_world))
       = (Ok (u_id u), snd (POST_api_user demo_env bob_body demo_world)).
Proof.
  apply (registered_key_authenticates demo_env bob_body demo_world).
  reflexivity.
Defined.

(** Register, then log in: with a password context whose [verify] accepts
    what its [hash] produced, a login with the registered address (in any
    spelling that lower-cases to the same) and password returns the key
    the registration returned. *)
Theorem register_then_login (E : Env) (body : UserCreateRequest)
  (w w' : world) (key normalised address : str) :
  (forall n p h, pwd_hash E n p = Ok h -> pwd_verify E p h = Ok true) ->
  POST_api_user E body w = (Ok [("api_key", PyStr key)], w') ->
  email_validate E (email body) = Some normalised ->
  lower E address = lower E normalised ->
  login_user E (mk_LoginRequest address (password body)) w'
  = (Ok [("api_key", PyStr key); ("message", PyStr (lit "Login successful"))],
     w').
Proof.
  intros Hctx H Hemail Haddr. apply POST_api_user_Ok in H
    as (normalised' & hashed & u & Hemail' & Hhash & Hu & Hkey & Hdb & Hfresh & _).
  rewrite Hemail in Hemail'. injection Hemail' as <-.
  injection Hkey as ->.
  rewrite login_user_eq, Hdb. cbn [login_email login_password].
  unfold select_user_by_email. cbn [users]. rewrite Haddr.
  replace (lower E normalised) with (u_email u) by (now rewrite Hu).
  rewrite (fresh_user_not_found u_email u) by
    (try exact Hfresh; intros v Hv; apply orb_false_iff in Hv as [Hv _];
     now apply orb_false_iff in Hv as [_ Hv]).
  replace (u_password u) with hashed by (now rewrite Hu).
  now rewrite (Hctx _ _ _ Hhash).
Qed.

Lemma register_then_login_witness :
  login_user demo_env (mk_LoginRequest (lit "BOB@example.com") (password bob_body))
    (snd (POST_api_user demo_env bob_body demo_world))
  = (Ok [("api_key", PyStr (demo_uuid4 1));
         ("message", PyStr (lit "Login successful"))],
     snd (POST_api_user demo_env bob_body demo_world)).
Proof.
  apply (register_then_login demo_env bob_body demo_world _ _
           (lit "bob@example.com")).
  - intros n p h [= <-]. cbn. now rewrite str_eqb_refl.
  - reflexivity.
  - reflexivity.
  - reflexivity.
Defined.

(** A registration whose lower-cased address is already in the table is
    answered 400 "User exists" and writes nothing, when its tier is text
    UTF-8 can encode (the INSERT raises [UnicodeEncodeError] on any other,
    which is not the exception the handler catches). *)
Theorem duplicate_email_answers_400 (E : Env) (body request : UserCreateRequest)
  (w : world) (hashed : str) (v : user) :
  UserCreateRequest_validate E body = Ok request ->
  pwd_hash E (draws w) (password request) = Ok hashed ->
  is_text (tier request) ->
  In v (users (database w)) ->
  u_email v = lower E (email request) ->
  fst (POST_api_user E body w) = Raise (HTTPException 400 (lit "User exists"))
  /\ database (snd (POST_api_user E body w)) = database w.
Proof.
  intros Hval Hhash Htext Hin Hemail. rewrite POST_api_user_eq, Hval, Hhash.
  unfold insert_user. cbn [u_id u_email u_api_key u_tier].
  rewrite (bind_text_Ok _ Htext). cbn [rbind].
  assert (Hex : existsb
            (fun v0 => str_eqb (u_id v0) (uuid4 E (S (S (draws w))))
                       || str_eqb (u_email v0) (lower E (email request))
                       || str_eqb (u_api_key v0) (uuid4 E (S (draws w))))
            (users (database w)) = true).
  { apply existsb_exists. exists v. split; [exact Hin|].
    rewrite Hemail, str_eqb_refl. now rewrite orb_true_r. }
  rewrite Hex. split; reflexivity.
Qed.

Lemma duplicate_email_answers_400_witness :
  fst (POST_api_user demo_env
         (mk_UserCreateRequest (lit "Alice@Example.COM") (lit "pw") (lit "pw")
            None false (lit "free")) demo_world)
  = Raise (HTTPException 400 (lit "User exists"))
  /\ database
       (snd (POST_api_user demo_env
               (mk_UserCreateRequest (lit "Alice@Example.COM") (lit "pw") (lit "pw")
                  None false (lit "free")) demo_world))
     = database demo_world.
Proof.
  apply (duplicate_email_answers_400 demo_env _
           (mk_UserCreateRequest (lit "Alice@Example.COM") (lit "pw") (lit "pw")
              None false (lit "free")) demo_world (lit "$2b$pw") alice).
  - reflexivity.
  - reflexivity.
  - text_literal.
  - left. reflexivity.
  - reflexivity.
Defined.

(** An admin flag needs the secret: a registration that asks for
    [is_admin] with an [admin_secret] other than the configured
    ADMIN_SECRET is rejected before the handler runs, and a registration
    answered 200 with [is_admin] carried exactly the configured value. *)
Theorem admin_flag_needs_the_secret (E : Env) (body : UserCreateRequest)
  (w : world) :
  is_admin body = true ->
  (admin_secret body <> ADMIN_SECRET E ->
   POST_api_user E body w = (Raise RequestValidationError, w))
  /\ (forall reply w', POST_api_user E body w = (Ok reply, w') ->
                       admin_secret body = ADMIN_SECRET E).
Proof.
  intros Hflag. split.
  - intros Hsecret. rewrite POST_api_user_eq.
    destruct (UserCreateRequest_validate E body) as [request|e] eqn:Hval.
    + apply UserCreateRequest_validate_Ok in Hval as (_ & _ & _ & _ & Hadm).
      now apply Hadm in Hflag.
    + now apply UserCreateRequest_validate_Raise in Hval as ->.
  - intros reply w' H.
    apply POST_api_user_Ok in H as (_ & _ & _ & _ & _ & _ & _ & _ & _ & Hadm).
    now apply Hadm.
Qed.

Lemma admin_flag_needs_the_secret_witness :
  (admin_secret mallory_body <> ADMIN_SECRET demo_env ->
   POST_api_user demo_env mallory_body demo_world
   = (Raise RequestValidationError, demo_world))
  /\ (forall reply w',
        POST_api_user demo_env mallory_body demo_world = (Ok reply, w') ->
        admin_secret mallory_body = ADMIN_SECRET demo_env).
Proof.
  apply admin_flag_needs_the_secret. reflexivity.
Defined.

(** When the deployment sets no ADMIN_SECRET, a registration that asks for
    [is_admin] and sends no [admin_secret] is accepted: the comparison is
    between two [None] values.  With an address [EmailStr] accepts,
    matching passwords, a password the context hashes, a tier UTF-8 can
    encode and no row in conflict, the call is answered 200 and the row
    written is an admin. *)
Theorem unset_admin_secret_admits_admins (E : Env) (body : UserCreateRequest)
  (w : world) (normalised hashed : str) :
  ADMIN_SECRET E = None ->
  admin_secret body = None ->
  is_admin body = true ->
  email_validate E (email body) = Some normalised ->
  confirm_password body = password body ->
  pwd_hash E (draws w) (password body) = Ok hashed ->
  is_text (tier body) ->
  existsb (fun v => str_eqb (u_id v) (uuid4 E (S (S (draws w))))
                    || str_eqb (u_email v) (lower E normalised)
                    || str_eqb (u_api_key v) (uuid4 E (S (draws w))))
    (users (database w)) = false ->
  http_status (fst (POST_api_user E body w)) = 200
  /\ exists u, users (database (snd (POST_api_user E body w)))
               = users (database w) ++ [u]
               /\ u_is_admin u = true
               /\ get_current_user E (u_api_key u) (snd (POST_api_user E body w))
                  = (Ok (u_id u), snd (POST_api_user E body w)).
Proof.
  intros Henv Hsecret Hflag Hemail Hconfirm Hhash Htext Hfresh.
  assert (Hval : UserCreateRequest_validate E body
                 = Ok (mk_UserCreateRequest normalised (password body)
                         (confirm_password body) (admin_secret body)
                         (is_admin body) (tier body))).
  { unfold UserCreateRequest_validate, passwords_match, restrict_admin.
    rewrite Hemail, Hconfirm, str_eqb_refl, andb_false_r, Hflag, Hsecret, Henv.
    reflexivity. }
  rewrite POST_api_user_eq, Hval. cbn [password email tier is_admin].
  rewrite Hhash. rewrite insert_user_Ok by assumption.
  cbn [fst snd http_status database users].
  split; [reflexivity|]. eexists. split; [reflexivity|].
  cbn [u_is_admin u_api_key u_id]. split; [exact Hflag|].
  rewrite get_current_user_eq. unfold select_user_by_api_key.
  cbn [database users].
  rewrite find_app_none.
  - cbn [find u_api_key]. rewrite str_eqb_refl.
    cbn [u_tier u_monthly_posts u_id]. now rewrite andb_false_r.
  - apply existsb_false_find. apply not_true_is_false. intros Hex.
    apply existsb_exists in Hex as (v & Hv & Htest).
    assert (existsb (fun v => str_eqb (u_id v) (uuid4 E (S (S (draws w))))
                              || str_eqb (u_email v) (lower E normalised)
                              || str_eqb (u_api_key v) (uuid4 E (S (draws w))))
              (users (database w)) = true).
    { apply existsb_exists. exists v. split; [exact Hv|].
      now rewrite Htest, orb_true_r. }
    congruence.
Qed.

Lemma unset_admin_secret_admits_admins_witness :
  http_status (fst (POST_api_user unconfigured_env mallory_body demo_world)) = 200
  /\ exists u,
       users (database (snd (POST_api_user unconfigured_env mallory_body demo_world)))
       = users (database demo_world) ++ [u]
       /\ u_is_admin u = true
       /\ get_current_user unconfigured_env (u_api_key u)
            (snd (POST_api_user unconfigured_env mallory_body demo_world))
          = (Ok (u_id u),
             snd (POST_api_user unconfigured_env mallory_body demo_world)).
Proof.
  apply (unset_admin_secret_admits_admins unconfigured_env mallory_body
           demo_world (lit "mallory@example.com") (lit "$2b$pw"));
    try reflexivity.
  text_literal.
Defined.

(** * Instagram tokens *)

Lemma rmap_raises {A B} (f : A -> B) (r : result A) (e : exn) :
  rmap f r = Raise e -> r = Raise e.
Proof. destruct r; cbn; congruence. Qed.

Lemma utf8_decode_raises (b : bytes) :
  forall e, utf8_decode b = Raise e -> e = UnicodeDecodeError.
Proof.
  assert (H : forall n b, (List.length b <= n)%nat ->
                forall e, utf8_decode b = Raise e -> e = UnicodeDecodeError).
  { induction n as [|n IH]; intros [|b0 r0] Hlen e; cbn [List.length] in Hlen;
      try discriminate; try lia.
    unfold utf8_decode; fold utf8_decode.
    repeat match goal with
           | |- context [if ?x then _ else _] => destruct x
           | |- context [match ?l with [] => _ | _ :: _ => _ end] =>
               destruct l; cbn [List.length] in Hlen
           end;
      try congruence;
      intros He; apply rmap_raises in He; eapply IH; try exact He;
      cbn [List.length] in *; lia. }
  intros e. exact (H (List.length b) b (le_n _) e).
Qed.

(** [decrypt_token] fails with one of three exceptions, none of them an
    [HTTPException]. *)
Lemma decrypt_token_raises (E : Env) (x : str) (e : exn) :
  decrypt_token E x = Raise e ->
  e = UnicodeEncodeError \/ e = InvalidToken \/ e = UnicodeDecodeError.
Proof.
  unfold decrypt_token. destruct (utf8_encode x) as [b|e'] eqn:Hb; cbn [rbind].
  - destruct (fernet_decrypt E b) as [m|].
    + intros H. apply utf8_decode_raises in H. auto.
    + intros [= <-]. auto.
  - intros [= <-]. apply utf8_encode_raises in Hb. auto.
Qed.

Section StaleToken.
Variable E : Env.
Variable request : PostRequest.
Variable user_id : str.
Variable t : platform_token.
Variable e : exn.

Lemma create_post_loop_stale_token (todo : list str) :
  forall (post_ids : list dict) (w : world),
    select_platform_token user_id (lit "instagram") (database w) = Some t ->
    decrypt_token E (t_access_token t) = Raise e ->
    In (lit "instagram") todo ->
    exists w',
      create_post_loop E request user_id todo post_ids w = (Raise e, w')
      /\ database w' = database w.
Proof.
  induction todo as [|platform todo IH]; intros post_ids w Hsel Hdec Hin;
    [contradiction|].
  cbn [create_post_loop]. unfold bind.
  destruct (list_eq_dec Z.eq_dec platform (lit "instagram")) as [->|Hne].
  - exists w. unfold create_post_entry.
    replace (str_eqb (lit "instagram") (lit "twitter")) with false by reflexivity.
    rewrite str_eqb_refl.
    unfold bind, post_to_instagram, bind, get_platform_token, bind, query, lift.
    rewrite Hsel, Hdec. split; reflexivity.
  - pose proof (create_post_entry_cases E request user_id platform w)
      as [Hdb Hres].
    destruct (create_post_entry E request user_id platform w) as [[d|e'] w1];
      cbn [fst snd] in *; [|now destruct Hres].
    destruct (IH (post_ids ++ [d]) w1) as (w' & Hloop & Hdb').
    + now rewrite Hdb.
    + exact Hdec.
    + destruct Hin as [Heq | Hin]; [congruence | exact Hin].
    + exists w'. split; [exact Hloop | congruence].
Qed.
End StaleToken.

(** A stored Instagram token that does not decrypt, as every token does
    once ENCRYPTION_KEY has changed, is not isolated: a call that names
    "instagram" raises out of the loop, is answered 500 and writes
    neither a Post nor the counter, whatever else it asked for. *)
Theorem undecryptable_instagram_token_aborts_the_call (E : Env)
  (request : PostRequest) (user_id : str) (w : world) (t : platform_token)
  (e : exn) :
  forallb (fun p => str_in p PLATFORMS) (platforms request) = true ->
  (In (lit "twitter") (platforms request) ->
   exists u, select_user_by_id user_id (database w) = Some u
             /\ u_is_admin u = true) ->
  In (lit "instagram") (platforms request) ->
  select_platform_token user_id (lit "instagram") (database w) = Some t ->
  decrypt_token E (t_access_token t) = Raise e ->
  fst (create_post E request user_id w) = Raise e
  /\ http_status (fst (create_post E request user_id w)) = 500
  /\ database (snd (create_post E request user_id w)) = database w.
Proof.
  intros Hall Hgate Hig Hsel Hdec.
  rewrite create_post_eq, Hall. cbn [negb].
  assert (Hpass : str_in (lit "twitter") (platforms request)
                  && negb match select_user_by_id user_id (database w) with
                          | Some u => u_is_admin u
                          | None => false
                          end = false).
  { destruct (str_in (lit "twitter") (platforms request)) eqn:Htw;
      [|reflexivity].
    apply str_in_In in Htw. destruct (Hgate Htw) as (u & -> & ->). reflexivity. }
  rewrite Hpass.
  destruct (create_post_loop_stale_token E request user_id t e
              (platforms request) [] (mk_world (database w) (S (draws w)))
              Hsel Hdec Hig) as (w' & -> & Hdb).
  cbn [fst snd]. split; [reflexivity|]. split; [|exact Hdb].
  destruct (decrypt_token_raises E _ e Hdec) as [-> | [-> | ->]]; reflexivity.
Qed.

Lemma undecryptable_instagram_token_aborts_the_call_witness :
  fst (create_post demo_env (demo_request ["facebook"; "instagram"])
         (lit "alice-id") stale_token_world) = Raise InvalidToken
  /\ http_status
       (fst (create_post demo_env (demo_request ["facebook"; "instagram"])
               (lit "alice-id") stale_token_world)) = 500
  /\ database
       (snd (create_post demo_env (demo_request ["facebook"; "instagram"])
               (lit "alice-id") stale_token_world))
     = database stale_token_world.
Proof.
  apply (undecryptable_instagram_token_aborts_the_call demo_env
           (demo_request ["facebook"; "instagram"]) (lit "alice-id")
           stale_token_world
           (mk_platform_token (lit "alice-id") (lit "instagram") (lit "gAAAAAB")
              None 1700000000)).
  - reflexivity.
  - intros [H | [H | []]]; vm_compute in H; discriminate.
  - right. left. reflexivity.
  - reflexivity.
  - reflexivity.
Defined.

(** Reading back a token that [encrypt_token] stored. *)
Lemma get_platform_token_decrypts (E : Env) (user_id platform : str) (w : world)
  (t : platform_token) (r : nat) (token : str) :
  fernet_contract E ->
  select_platform_token user_id platform (database w) = Some t ->
  encrypt_token E r token = Ok (t_access_token t) ->
  (forall x, t_refresh_token t = Some x -> str_truthy x = true ->
             exists y, decrypt_token E x = Ok y) ->
  exists refreshed,
    get_platform_token E user_id platform w
    = (Ok (Some (mk_token_dict token refreshed (t_expiry t))), w).
Proof.
  intros HE Hsel Henc Hrefresh.
  assert (Hdec : decrypt_token E (t_access_token t) = Ok token).
  { unfold encrypt_token in Henc.
    destruct (utf8_encode token) as [b|e] eqn:Hb; [|discriminate].
    pose proof (decrypt_encrypt_token E HE r token b Hb) as Hrt.
    unfold encrypt_token in Hrt. rewrite Hb in Hrt. cbn [rbind] in *.
    now rewrite Henc in Hrt. }
  unfold get_platform_token, bind, query, lift, ret. rewrite Hsel, Hdec.
  destruct (t_refresh_token t) as [x|] eqn:Hx; [|now eexists].
  destruct (str_truthy x) eqn:Htruthy; [|now eexists].
  destruct (Hrefresh x eq_refl Htruthy) as [y ->]. now eexists.
Qed.

(** A stored refresh token that does not decrypt makes
    [post_to_instagram] raise, whatever the access token: line 230 is
    outside the [try] as well. *)
Lemma stale_refresh_token_raises (E : Env) (user_id content : str)
  (media_urls : option (list str)) (w : world) (t : platform_token)
  (a x : str) (e : exn) :
  select_platform_token user_id (lit "instagram") (database w) = Some t ->
  decrypt_token E (t_access_token t) = Ok a ->
  t_refresh_token t = Some x ->
  str_truthy x = true ->
  decrypt_token E x = Raise e ->
  post_to_instagram E user_id content media_urls w = (Raise e, w).
Proof.
  intros Hsel Ha Hx Htruthy He.
  unfold post_to_instagram, bind, get_platform_token, bind, query, lift, ret.
  now rewrite Hsel, Ha, Hx, Htruthy, He.
Qed.

(** When the stored access token is what [encrypt_token] produced and the
    stored refresh token, if there is a non-empty one, decrypts as well,
    the access token handed to Instagram is the plaintext and the entry is
    decided by the reply alone: a failed request gives an error entry with
    its message, a reply gives a success entry whose id is the one of the
    reply, or a fresh uuid when the reply has none.  [post_to_instagram]
    raises in neither case. *)
Theorem stored_token_reaches_instagram (E : Env) (user_id content : str)
  (media_urls : option (list str)) (w : world) (t : platform_token)
  (r : nat) (token : str) :
  fernet_contract E ->
  select_platform_token user_id (lit "instagram") (database w) = Some t ->
  encrypt_token E r token = Ok (t_access_token t) ->
  (forall x, t_refresh_token t = Some x -> str_truthy x = true ->
             exists y, decrypt_token E x = Ok y) ->
  post_to_instagram E user_id content media_urls w =
  match instagram_media E (draws w) token content (first_media_url media_urls) with
  | inl msg =>
      (Ok [("status", PyStr (lit "error")); ("id", PyNone); ("error", PyStr msg)],
       mk_world (database w) (S (draws w)))
  | inr reply_id =>
      (Ok [("status", PyStr (lit "success"));
           ("id", match reply_id with
                  | Some v => v
                  | None => PyStr (uuid4 E (S (draws w)))
                  end);
           ("postUrl",
            PyStr (lit "https://instagram.com/p/" ++ uuid4 E (S (S (draws w)))))],
       mk_world (database w) (S (S (S (draws w)))))
  end.
Proof.
  intros HE Hsel Henc Hrefresh.
  destruct (get_platform_token_decrypts E user_id (lit "instagram") w t r token
              HE Hsel Henc Hrefresh) as [refreshed Htk].
  unfold post_to_instagram, bind at 1. rewrite Htk.
  unfold try_except, bind, draw, raise, ret. cbn [draws database access_token].
  destruct (instagram_media E (draws w) token content
              (first_media_url media_urls)); reflexivity.
Qed.

Lemma stored_token_reaches_instagram_witness :
  post_to_instagram demo_env (lit "alice-id") (lit "hello") None token_world =
  match instagram_media demo_env (draws token_world) (lit "tok") (lit "hello")
          (first_media_url None) with
  | inl msg =>
      (Ok [("status", PyStr (lit "error")); ("id", PyNone); ("error", PyStr msg)],
       mk_world (database token_world) (S (draws token_world)))
  | inr reply_id =>
      (Ok [("status", PyStr (lit "success"));
           ("id", match reply_id with
                  | Some v => v
                  | None => PyStr (uuid4 demo_env (S (draws token_world)))
                  end);
           ("postUrl",
            PyStr (lit "https://instagram.com/p/"
                   ++ uuid4 demo_env (S (S (draws token_world)))))],
       mk_world (database token_world) (S (S (S (draws token_world)))))
  end.
Proof.
  apply (stored_token_reaches_instagram demo_env (lit "alice-id") (lit "hello")
           None token_world
           (mk_platform_token (lit "alice-id") (lit "instagram") (lit "HEGPGL")
              None 1700000000) 0 (lit "tok")).
  - exact demo_env_fernet.
  - reflexivity.
  - reflexivity.
  - intros x Hx. discriminate.
Defined.

(** * Status codes of the post handler *)

Lemma get_platform_token_raise_kind (E : Env) (user_id platform : str)
  (w : world) (e : exn) :
  fst (get_platform_token E user_id platform w) = Raise e ->
  e = UnicodeEncodeError \/ e = InvalidToken \/ e = UnicodeDecodeError.
Proof.
  unfold get_platform_token, bind, query, lift, ret.
  destruct (select_platform_token user_id platform (database w)) as [t|];
    [|discriminate].
  destruct (decrypt_token E (t_access_token t)) as [a|e'] eqn:Ha.
  - destruct (t_refresh_token t) as [x|]; [|discriminate].
    destruct (str_truthy x); [|discriminate].
    destruct (decrypt_token E x) as [y|e'] eqn:Hx; [discriminate|].
    cbn. intros [= <-]. exact (decrypt_token_raises E x e' Hx).
  - cbn. intros [= <-]. exact (decrypt_token_raises E _ e' Ha).
Qed.

Lemma create_post_entry_raise_kind (E : Env) (request : PostRequest)
  (user_id platform : str) (w : world) (e : exn) :
  fst (create_post_entry E request user_id platform w) = Raise e ->
  e = UnicodeEncodeError \/ e = InvalidToken \/ e = UnicodeDecodeError.
Proof.
  unfold create_post_entry.
  destruct (str_eqb platform (lit "twitter")).
  - unfold get_twitter_client, try_except, bind, query, draw, raise, ret.
    destruct (select_user_by_id user_id (database w)) as [u|];
      [destruct (u_is_admin u)|]; cbn [fst]; try discriminate.
    destruct (create_tweet E (draws w) (post request)); discriminate.
  - destruct (str_eqb platform (lit "instagram")).
    + unfold bind, post_to_instagram, bind.
      pose proof (get_platform_token_raise_kind E user_id (lit "instagram") w e)
        as Hkind.
      destruct (get_platform_token E user_id (lit "instagram") w)
        as [[[tk|]|e'] w1]; cbn [fst] in *.
      * unfold try_except, bind, draw, raise, ret.
        destruct (instagram_media E _ _ _ _); discriminate.
      * discriminate.
      * intros [= <-]. now apply Hkind.
    + unfold bind, MockClient_post, draw, ret. discriminate.
Qed.

Lemma create_post_loop_raise_kind (E : Env) (request : PostRequest)
  (user_id : str) (todo : list str) :
  forall (post_ids : list dict) (w : world) (e : exn),
    fst (create_post_loop E request user_id todo post_ids w) = Raise e ->
    e = UnicodeEncodeError \/ e = InvalidToken \/ e = UnicodeDecodeError.
Proof.
  induction todo as [|platform todo IH]; intros post_ids w e; [discriminate|].
  cbn [create_post_loop]. unfold bind.
  pose proof (create_post_entry_raise_kind E request user_id platform w) as Hk.
  destruct (create_post_entry E request user_id platform w) as [[d|e'] w1];
    cbn [fst] in *.
  - apply IH.
  - intros [= <-]. now apply Hk.
Qed.

(** Past the two checks the handler answers 200 or 500. *)
Lemma create_post_past_the_checks (E : Env) (request : PostRequest)
  (user_id : str) (w : world) :
  forallb (fun p => str_in p PLATFORMS) (platforms request) = true ->
  str_in (lit "twitter") (platforms request)
  && negb match select_user_by_id user_id (database w) with
          | Some u => u_is_admin u
          | None => false
          end = false ->
  http_status (fst (create_post E request user_id w)) = 200
  \/ http_status (fst (create_post E request user_id w)) = 500.
Proof.
  intros Hall Hgate. rewrite create_post_eq, Hall, Hgate. cbn [negb].
  pose proof (create_post_loop_raise_kind E request user_id (platforms request)
                [] (mk_world (database w) (S (draws w)))) as Hk.
  destruct (create_post_loop E request user_id (platforms request) [] _)
    as [[post_ids|e] w2]; cbn [fst] in *.
  - match goal with
    | |- context [insert_post ?p ?d] =>
        destruct (insert_post_cases p d) as [-> | [-> | [_ ->]]]
    end; cbn [fst]; [now right | now right | ].
    unfold PostResponse_new.
    match goal with
    | |- context [if ?c then _ else _] => destruct c
    end; [now left | now right].
  - right. destruct (Hk e eq_refl) as [-> | [-> | ->]]; reflexivity.
Qed.

(** The handler of [POST /api/post] answers 400 exactly when a requested
    name is not supported, 403 exactly when all are supported, "twitter"
    is among them and the caller is no admin, and 200 or 500 otherwise;
    a call answered 400 or 403 leaves the world as it was. *)
Theorem create_post_status_codes (E : Env) (request : PostRequest)
  (user_id : str) (w : world) :
  (http_status (fst (create_post E request user_id w)) = 400
   <-> forallb (fun p => str_in p PLATFORMS) (platforms request) = false)
  /\ (http_status (fst (create_post E request user_id w)) = 403
      <-> forallb (fun p => str_in p PLATFORMS) (platforms request) = true
          /\ In (lit "twitter") (platforms request)
          /\ forall u, select_user_by_id user_id (database w) = Some u ->
                       u_is_admin u = false)
  /\ (http_status (fst (create_post E request user_id w)) = 400
      \/ http_status (fst (create_post E request user_id w)) = 403
      \/ http_status (fst (create_post E request user_id w)) = 200
      \/ http_status (fst (create_post E request user_id w)) = 500)
  /\ (http_status (fst (create_post E request user_id w)) = 400
      \/ http_status (fst (create_post E request user_id w)) = 403 ->
      snd (create_post E request user_id w) = w).
Proof.
  destruct (forallb (fun p => str_in p PLATFORMS) (platforms request)) eqn:Hall.
  2:{ rewrite create_post_eq, Hall. cbn [negb fst snd http_status].
      repeat split; auto; try discriminate. intros [? _]. discriminate. }
  assert (Hiff : str_in (lit "twitter") (platforms request)
                 && negb match select_user_by_id user_id (database w) with
                         | Some u => u_is_admin u
                         | None => false
                         end = true
                 <-> In (lit "twitter") (platforms request)
                     /\ forall u, select_user_by_id user_id (database w) = Some u ->
                                  u_is_admin u = false).
  { rewrite andb_true_iff, str_in_In, negb_true_iff.
    destruct (select_user_by_id user_id (database w)) as [u|].
    - split; intros [Htw Hadm]; (split; [exact Htw|]).
      + now intros u' [= <-].
      + now apply Hadm.
    - split; intros [Htw _]; (split; [exact Htw|]); [discriminate|reflexivity]. }
  destruct (str_in (lit "twitter") (platforms request) && negb _) eqn:Hgate.
  - rewrite create_post_eq, Hall, Hgate. cbn [negb fst snd http_status].
    repeat split; auto; try discriminate; now apply Hiff.
  - pose proof (create_post_past_the_checks E request user_id w Hall Hgate)
      as Hst.
    assert (Hno : ~ (In (lit "twitter") (platforms request)
                     /\ forall u, select_user_by_id user_id (database w) = Some u ->
                                  u_is_admin u = false))
      by (intros H; apply Hiff in H; discriminate).
    split; [split; [intros H; destruct Hst; congruence | discriminate]|].
    split; [split; [intros H; destruct Hst; congruence
                   | intros (_ & H1 & H2); exfalso; now apply Hno]|].
    split; [destruct Hst; auto|].
    intros [H | H]; destruct Hst; congruence.
Qed.

(** A call with an empty list of platforms passes the check, contacts
    nothing, is answered 200 with no entries, and still writes a Post row
    and uses up one post of the quota; for a text UTF-8 can encode, a Post
    id that is free and a counter that is an INTEGER below the largest
    one. *)
Theorem empty_platform_list_uses_quota (E : Env) (request : PostRequest)
  (user_id : str) (w : world) :
  platforms request = [] ->
  is_text (post request) ->
  counter_has_room user_id (database w) ->
  existsb (fun q => str_eqb (p_id q) (uuid4 E (draws w))) (posts (database w))
  = false ->
  exists resp p,
    fst (create_post E request user_id w) = Ok resp
    /\ postIds resp = []
    /\ posts (database (snd (create_post E request user_id w)))
       = posts (database w) ++ [p]
    /\ p_id p = id resp /\ p_user_id p = user_id
    /\ Forall2 (row_after_dispatch user_id) (users (database w))
         (users (database (snd (create_post E request user_id w)))).
Proof.
  intros Hempty Htext Hroom Hfresh. rewrite create_post_eq, Hempty.
  cbn [forallb negb str_in existsb andb create_post_loop ret].
  rewrite insert_post_Ok by assumption.
  cbn [fst snd PostResponse_new forallb database].
  do 2 eexists. split; [reflexivity|]. split; [reflexivity|].
  split; [reflexivity|]. split; [reflexivity|]. split; [reflexivity|].
  apply (update_monthly_posts_rows user_id (mk_db _ _ _ _)). exact Hroom.
Qed.

Lemma empty_platform_list_uses_quota_witness :
  exists resp p,
    fst (create_post demo_env (demo_request []) (lit "alice-id") demo_world)
    = Ok resp
    /\ postIds resp = []
    /\ posts (database
                (snd (create_post demo_env (demo_request []) (lit "alice-id")
                        demo_world)))
       = posts (database demo_world) ++ [p]
    /\ p_id p = id resp /\ p_user_id p = lit "alice-id"
    /\ Forall2 (row_after_dispatch (lit "alice-id"))
         (users (database demo_world))
         (users (database
                   (snd (create_post demo_env (demo_request []) (lit "alice-id")
                           demo_world)))).
Proof.
  apply (empty_platform_list_uses_quota demo_env (demo_request [])
           (lit "alice-id") demo_world).
  - reflexivity.
  - text_literal.
  - intros u [<- | [<- | []]] _; cbn [u_monthly_posts alice root]; lia.
  - reflexivity.
Defined.

(** * Login *)

(** [login_user] answers 200 or 500 and nothing else, writes nothing, and
    a key it returns is the key of the first row with the lower-cased
    address, whose hash the password verified against. *)
Theorem login_answers_200_or_500 (E : Env) (request : LoginRequest) (w : world) :
  snd (login_user E request w) = w
  /\ (http_status (fst (login_user E request w)) = 200
      \/ http_status (fst (login_user E request w)) = 500)
  /\ forall reply,
       fst (login_user E request w) = Ok reply ->
       exists u,
         select_user_by_email (lower E (login_email request)) (database w)
         = Some u
         /\ pwd_verify E (login_password request) (u_password u) = Ok true
         /\ dict_get "api_key" reply = Some (PyStr (u_api_key u)).
Proof.
  rewrite login_user_eq. cbn [fst snd]. split; [reflexivity|].
  destruct (select_user_by_email _ _) as [u|].
  - destruct (pwd_verify E _ _) as [[|]|e] eqn:Hv; cbn [http_status].
    + split; [now left|]. intros reply [= <-]. now exists u.
    + split; [now right | discriminate].
    + split; [now right | discriminate].
  - split; [now right | discriminate].
Qed.

(** * A tweet that fails *)

(** The Twitter entry of an admin is decided by [create_tweet] alone: the
    admin check inside [get_twitter_client] passes, an id gives a success
    entry with the status URL, an exception gives an error entry with its
    message. *)
Lemma twitter_entry_of_admin (E : Env) (request : PostRequest)
  (user_id : str) (w : world) (u : user) :
  select_user_by_id user_id (database w) = Some u ->
  u_is_admin u = true ->
  create_post_entry E request user_id (lit "twitter") w =
  (Ok match create_tweet E (draws w) (post request) with
      | inr tweet_id =>
          [("platform", PyStr (lit "twitter")); ("status", PyStr (lit "success"));
           ("id", PyStr tweet_id);
           ("postUrl", PyStr (lit "https://twitter.com/user/status/" ++ tweet_id))]
      | inl msg =>
          [("platform", PyStr (lit "twitter")); ("status", PyStr (lit "error"));
           ("id", PyNone); ("error", PyStr msg)]
      end,
   mk_world (database w) (S (draws w))).
Proof.
  intros Hu Hadmin. unfold create_post_entry. rewrite str_eqb_refl.
  unfold get_twitter_client, try_except, bind, query, draw, raise, ret.
  rewrite Hu, Hadmin. cbn [draws database].
  destruct (create_tweet E (draws w) (post request)); reflexivity.
Qed.

(** When Twitter refuses the tweet, an admin's call that names "twitter"
    is answered 500, whatever the other platforms did: the error entry
    holds [None] under "id", which the response model refuses. *)
Theorem refused_tweet_answers_500 (E : Env) (request : PostRequest)
  (user_id : str) (w : world) (u : user) :
  forallb (fun p => str_in p PLATFORMS) (platforms request) = true ->
  In (lit "twitter") (platforms request) ->
  select_user_by_id user_id (database w) = Some u ->
  u_is_admin u = true ->
  (forall n, exists msg, create_tweet E n (post request) = inl msg) ->
  http_status (fst (create_post E request user_id w)) = 500.
Proof.
  intros Hall Htw Hu Hadmin Hrefuse.
  assert (Hgate : str_in (lit "twitter") (platforms request)
                  && negb match select_user_by_id user_id (database w) with
                          | Some u => u_is_admin u
                          | None => false
                          end = false)
    by (rewrite Hu, Hadmin; apply andb_false_r).
  destruct (create_post_past_the_checks E request user_id w Hall Hgate)
    as [H200 | H500]; [exfalso | exact H500].
  rewrite create_post_eq, Hall, Hgate in H200. cbn [negb] in H200.
  destruct (create_post_loop E request user_id (platforms request) []
              (mk_world (database w) (S (draws w))))
    as [[post_ids|e] w2] eqn:Hloop.
  - destruct (create_post_loop_entries E request user_id _ _ _ _ _ Hloop)
      as (entries & -> & Hall2). cbn [app] in *.
    destruct (Forall2_In_l _ _ _ _ Hall2 Htw) as (d & Hd & w0 & Hw0 & Hres).
    cbn [database] in Hw0.
    rewrite (twitter_entry_of_admin E request user_id w0 u) in Hres
      by (try exact Hadmin; now rewrite Hw0).
    cbn [fst] in Hres. destruct (Hrefuse (draws w0)) as [msg Hmsg].
    rewrite Hmsg in Hres. injection Hres as <-.
    match type of H200 with
    | context [insert_post ?p ?d] =>
        destruct (insert_post_cases p d) as [Hins | [Hins | [_ Hins]]];
          rewrite Hins in H200
    end; cbn [fst] in H200; try discriminate.
    rewrite (PostResponse_new_None _ _ _ _ Hd eq_refl) in H200. discriminate.
  - pose proof (create_post_loop_raise_kind E request user_id (platforms request)
                  [] (mk_world (database w) (S (draws w))) e) as Hk.
    rewrite Hloop in Hk. cbn [fst] in *.
    destruct (Hk eq_refl) as [-> | [-> | ->]]; discriminate.
Qed.

Lemma refused_tweet_answers_500_witness :
  http_status
    (fst (create_post refusing_env (demo_request ["facebook"; "twitter"])
            (lit "root-id") demo_world)) = 500.
Proof.
  apply (refused_tweet_answers_500 refusing_env
           (demo_request ["facebook"; "twitter"]) (lit "root-id") demo_world root).
  - reflexivity.
  - right. left. reflexivity.
  - reflexivity.
  - reflexivity.
  - intros n. eexists. reflexivity.
Defined.

(** * What [encrypt_token] accepts *)

Lemma utf8_encode_char_surrogate (c : Z) :
  is_surrogate c = true -> utf8_encode_char c = Raise UnicodeEncodeError.
Proof.
  intros Hsur. unfold utf8_encode_char. rewrite Hsur.
  unfold is_surrogate in Hsur. apply andb_true_iff in Hsur as [Hlo Hhi].
  apply Z.leb_le in Hlo, Hhi.
  repeat match goal with
         | |- context [?a <? ?b] => destruct (Z.ltb_spec a b)
         end; try reflexivity; lia.
Qed.

Lemma utf8_encode_surrogate (s : str) :
  Exists (fun c => is_surrogate c = true) s ->
  utf8_encode s = Raise UnicodeEncodeError.
Proof.
  induction 1 as [c s Hsur | c s _ IH]; cbn [utf8_encode].
  - now rewrite (utf8_encode_char_surrogate c Hsur).
  - destruct (utf8_encode_char c) as [b|e] eqn:Hb; cbn [rbind].
    + now rewrite IH.
    + now apply utf8_encode_char_raises in Hb as ->.
Qed.

(** [encrypt_token] raises [UnicodeEncodeError] on a token that holds a
    surrogate code point and on no other; what it returns for any other
    token is ASCII text, whatever timestamp and IV it drew, and
    [decrypt_token] turns it back into the token. *)
Theorem encrypt_token_refuses_only_surrogates (E : Env) (r : nat) (token : str) :
  fernet_contract E ->
  is_str token ->
  (Exists (fun c => is_surrogate c = true) token ->
   encrypt_token E r token = Raise UnicodeEncodeError)
  /\ (Forall (fun c => is_surrogate c = false) token ->
      exists encrypted,
        encrypt_token E r token = Ok encrypted
        /\ is_ascii encrypted
        /\ decrypt_token E encrypted = Ok token).
Proof.
  intros HE Hstr. split.
  - intros Hex. unfold encrypt_token.
    now rewrite (utf8_encode_surrogate token Hex).
  - intros Hall. destruct (utf8_encode_total token Hstr Hall) as [b Hb].
    pose proof (decrypt_encrypt_token E HE r token b Hb) as Hrt.
    destruct HE as [_ Hascii].
    pose proof (Hascii r b (utf8_encode_bytes _ _ Hb)) as Hout.
    unfold encrypt_token in *. rewrite Hb in *. cbn [rbind] in *.
    rewrite (utf8_decode_ascii _ Hout) in *. cbn [rbind] in Hrt.
    exists (fernet_encrypt E r b). repeat split; assumption.
Qed.

Lemma encrypt_token_refuses_only_surrogates_witness :
  (Exists (fun c => is_surrogate c = true) [0x68; 0xDC00; 0x69] ->
   encrypt_token demo_env 7 [0x68; 0xDC00; 0x69] = Raise UnicodeEncodeError)
  /\ (Forall (fun c => is_surrogate c = false) [0x68; 0xDC00; 0x69] ->
      exists encrypted,
        encrypt_token demo_env 7 [0x68; 0xDC00; 0x69] = Ok encrypted
        /\ is_ascii encrypted
        /\ decrypt_token demo_env encrypted = Ok [0x68; 0xDC00; 0x69]).
Proof.
  apply encrypt_token_refuses_only_surrogates.
  - exact demo_env_fernet.
  - repeat (apply Forall_cons; [lia|]). apply Forall_nil.
Defined.

(** * The dashboard's draft cleaner *)

Section CleanDraftFacts.
Variable isspace : Z -> bool.
Variable isdecimal : Z -> bool.

Lemma lstrip_suffix (s : str) : exists pre, s = pre ++ lstrip isspace s.
Proof.
  induction s as [|c s [pre IH]]; [now exists []|]. cbn [lstrip].
  destruct (isspace c); [|now exists []].
  exists (c :: pre). cbn [app]. now rewrite <- IH.
Qed.

Lemma lstrip_idem (s : str) : lstrip isspace (lstrip isspace s) = lstrip isspace s.
Proof.
  induction s as [|c s IH]; [reflexivity|]. cbn [lstrip].
  destruct (isspace c) eqn:Hc; [exact IH|]. cbn [lstrip]. now rewrite Hc.
Qed.

Lemma lstrip_app_fixed (a b : str) :
  a <> [] -> lstrip isspace (a ++ b) = a ++ b -> lstrip isspace a = a.
Proof.
  destruct a as [|c a]; [congruence|]. intros _. cbn [app lstrip].
  destruct (isspace c) eqn:Hc; [|reflexivity].
  intros H. exfalso.
  destruct (lstrip_suffix (a ++ b)) as [pre Hpre].
  rewrite H in Hpre. apply (f_equal (@List.length _)) in Hpre.
  rewrite !length_app in Hpre. cbn [List.length] in Hpre.
  rewrite ?length_app in Hpre. lia.
Qed.

Lemma strip_fixed (s : str) :
  lstrip isspace s = s -> lstrip isspace (rev s) = rev s ->
  strip isspace s = s.
Proof.
  intros Hl Hr. unfold strip. rewrite Hl, Hr. apply rev_involutive.
Qed.

Lemma strip_ends (s : str) :
  lstrip isspace (strip isspace s) = strip isspace s
  /\ lstrip isspace (rev (strip isspace s)) = rev (strip isspace s).
Proof.
  unfold strip. rewrite rev_involutive. split; [|apply lstrip_idem].
  (* the head of [rev (lstrip (rev (lstrip s)))] is the head of [lstrip s] *)
  destruct (lstrip_suffix (rev (lstrip isspace s))) as [pre Hpre].
  set (t := lstrip isspace (rev (lstrip isspace s))) in *.
  assert (Hs : lstrip isspace s = rev t ++ rev pre)
    by (rewrite <- rev_app_distr, <- Hpre; now rewrite rev_involutive).
  destruct (list_eq_dec Z.eq_dec (rev t) []) as [-> | Hne]; [reflexivity|].
  apply (lstrip_app_fixed (rev t) (rev pre) Hne).
  rewrite <- Hs. apply lstrip_idem.
Qed.

Lemma match_numbering_tail_suffix (s rest : str) :
  match_numbering_tail isspace isdecimal s = Some rest ->
  lstrip isspace rest = rest /\ exists pre, pre <> [] /\ s = pre ++ rest.
Proof.
  revert rest. induction s as [|c s IH]; intros rest; cbn [match_numbering_tail];
    [discriminate|].
  assert (Hdot : (if c =? 0x2E then Some (lstrip isspace s) else None) = Some rest ->
                 lstrip isspace rest = rest
                 /\ exists pre, pre <> [] /\ c :: s = pre ++ rest).
  { destruct (c =? 0x2E); [|discriminate]. intros [= <-].
    split; [apply lstrip_idem|]. destruct (lstrip_suffix s) as [pre Hpre].
    exists (c :: pre). split; [discriminate|]. cbn [app]. now rewrite <- Hpre. }
  destruct (isdecimal c); [|exact Hdot].
  destruct (match_numbering_tail isspace isdecimal s) as [rest'|];
    [|exact Hdot].
  intros [= <-]. destruct (IH rest' eq_refl) as (Hl & pre & _ & ->).
  split; [exact Hl|]. exists (c :: pre). split; [discriminate | reflexivity].
Qed.

Lemma match_numbering_suffix (s rest : str) :
  match_numbering isspace isdecimal s = Some rest ->
  lstrip isspace rest = rest /\ exists pre, pre <> [] /\ s = pre ++ rest.
Proof.
  destruct s as [|c s]; cbn [match_numbering]; [discriminate|].
  destruct (isdecimal c); [|discriminate]. intros H.
  apply match_numbering_tail_suffix in H as (Hl & pre & _ & ->).
  split; [exact Hl|]. exists (c :: pre). split; [discriminate | reflexivity].
Qed.

(** What the cleaner returns is the tail of the stripped draft, has no
    white space at either end, and is the stripped draft itself when that
    does not begin with a digit. *)
Theorem clean_draft_content_is_a_stripped_tail (draft : str) :
  (exists pre, strip isspace draft
               = pre ++ clean_draft_content isspace isdecimal draft)
  /\ strip isspace (clean_draft_content isspace isdecimal draft)
     = clean_draft_content isspace isdecimal draft
  /\ (match strip isspace draft with
      | c :: _ => isdecimal c = false
      | [] => True
      end ->
      clean_draft_content isspace isdecimal draft = strip isspace draft).
Proof.
  unfold clean_draft_content.
  destruct (strip_ends draft) as [Hl Hr].
  destruct (match_numbering isspace isdecimal (strip isspace draft))
    as [rest|] eqn:Hm.
  - assert (Hdigit : match strip isspace draft with
                     | c :: _ => isdecimal c = false
                     | [] => True
                     end -> rest = strip isspace draft).
    { destruct (strip isspace draft) as [|c t]; cbn [match_numbering] in Hm;
        [discriminate|].
      intros Hc. rewrite Hc in Hm. discriminate. }
    apply match_numbering_suffix in Hm as (Hrest & pre & Hpre & Heq).
    split; [now exists pre|]. split; [|exact Hdigit].
    apply strip_fixed; [exact Hrest|].
    destruct (list_eq_dec Z.eq_dec (rev rest) []) as [Hnil | Hne];
      [now rewrite Hnil|].
    apply (lstrip_app_fixed (rev rest) (rev pre) Hne).
    now rewrite <- rev_app_distr, <- Heq.
  - split; [now exists []|]. split; [now apply strip_fixed | reflexivity].
Qed.
Lemma lstrip_app_keep (a b : str) :
  a <> [] -> lstrip isspace a = a -> lstrip isspace (a ++ b) = a ++ b.
Proof.
  destruct a as [|c a]; [congruence|]. intros _. cbn [app lstrip].
  destruct (isspace c); [|reflexivity].
  intros H. exfalso. destruct (lstrip_suffix a) as [pre Hpre].
  rewrite H in Hpre. apply (f_equal (@List.length _)) in Hpre.
  rewrite !length_app in Hpre. cbn [List.length] in Hpre. lia.
Qed.

Lemma lstrip_gap (gap text : str) :
  Forall (fun c => isspace c = true) gap ->
  lstrip isspace (gap ++ text) = lstrip isspace text.
Proof.
  induction 1 as [|c gap Hc _ IH]; [reflexivity|].
  cbn [app lstrip]. now rewrite Hc.
Qed.

Lemma match_numbering_tail_digits (digits rest : str) :
  isdecimal 0x2E = false ->
  Forall (fun c => isdecimal c = true) digits ->
  match_numbering_tail isspace isdecimal (digits ++ 0x2E :: rest)
  = Some (lstrip isspace rest).
Proof.
  intros Hdot. induction 1 as [|c digits Hc _ IH]; cbn [app match_numbering_tail].
  - now rewrite Hdot.
  - now rewrite Hc, IH.
Qed.

(** The purpose of the cleaner: from a draft that is a run of digits, a
    dot, white space and then a text with no white space at its ends,
    what is left is the text. *)
Theorem clean_draft_content_removes_numbering (digits gap text : str) :
  isdecimal 0x2E = false ->
  digits <> [] ->
  Forall (fun c => isdecimal c = true) digits ->
  Forall (fun c => isspace c = false) digits ->
  Forall (fun c => isspace c = true) gap ->
  text <> [] ->
  lstrip isspace text = text ->
  lstrip isspace (rev text) = rev text ->
  clean_draft_content isspace isdecimal (digits ++ 0x2E :: gap ++ text) = text.
Proof.
  intros Hdot Hne Hdec Hnsp Hgap Htext Hl Hr.
  assert (Hstrip : strip isspace (digits ++ 0x2E :: gap ++ text)
                   = digits ++ 0x2E :: gap ++ text).
  { apply strip_fixed.
    - destruct digits as [|d ds]; [congruence|]. cbn [app lstrip].
      inversion Hnsp as [|? ? Hd _]; subst. now rewrite Hd.
    - replace (rev (digits ++ 0x2E :: gap ++ text))
        with (rev text ++ rev (digits ++ 0x2E :: gap)).
      + apply lstrip_app_keep; [|exact Hr].
        intros Hnil. apply Htext. rewrite <- (rev_involutive text), Hnil.
        reflexivity.
      + rewrite <- rev_app_distr. f_equal. now rewrite <- app_assoc. }
  unfold clean_draft_content. rewrite Hstrip.
  destruct digits as [|d ds]; [congruence|]. cbn [app match_numbering].
  inversion Hdec as [|? ? Hd Hds]; subst. rewrite Hd.
  rewrite (match_numbering_tail_digits ds (gap ++ text) Hdot Hds).
  now rewrite lstrip_gap.
Qed.
End CleanDraftFacts.

Lemma clean_draft_content_removes_numbering_witness :
  clean_draft_content ascii_isspace ascii_isdecimal
    (lit "12" ++ 0x2E :: lit "  " ++ lit "Hello, world!")
  = lit "Hello, world!".
Proof.
  apply clean_draft_content_removes_numbering.
  - reflexivity.
  - discriminate.
  - repeat (apply Forall_cons; [reflexivity|]). apply Forall_nil.
  - repeat (apply Forall_cons; [reflexivity|]). apply Forall_nil.
  - repeat (apply Forall_cons; [reflexivity|]). apply Forall_nil.
  - discriminate.
  - reflexivity.
  - reflexivity.
Defined.


(** * A post under the quota *)

Lemma select_after_update_monthly_posts (token user_id : str) (d : db) (u : user) :
  select_user_by_api_key token d = Some u ->
  select_user_by_api_key token (update_monthly_posts user_id d)
  = Some (if str_eqb (u_id u) user_id
          then mk_user (u_id u) (u_email u) (u_password u) (u_api_key u)
                 (u_tier u) (u_api_calls u)
                 (sqlite_add_one (u_monthly_posts u)) (u_is_admin u)
          else u).
Proof.
  unfold select_user_by_api_key, update_monthly_posts. cbn [users].
  induction (users d) as [|v us IH]; cbn [find map]; [discriminate|].
  destruct (str_eqb (u_id v) user_id) eqn:Hid; cbn [u_api_key];
    destruct (str_eqb (u_api_key v) token); try exact IH;
    intros [= <-]; now rewrite Hid.
Qed.

(** The route as a whole, for a key under the quota and generic
    platforms: the call is answered 200, and the next authentication of
    the same key finds the same row with [monthly_posts] one higher.  The
    text of the post is one UTF-8 can encode, the Post id is free, and the
    counter is an INTEGER below the largest one. *)
Theorem post_under_quota_counts_once (E : Env) (token : str)
  (request : PostRequest) (w : world) (u : user) :
  select_user_by_api_key token (database w) = Some u ->
  (u_tier u = lit "free" -> u_monthly_posts u < 20) ->
  - 2 ^ 63 <= u_monthly_posts u < 2 ^ 63 - 1 ->
  forallb (fun p => str_in p PLATFORMS) (platforms request) = true ->
  ~ In (lit "twitter") (platforms request) ->
  ~ In (lit "instagram") (platforms request) ->
  is_text (post request) ->
  existsb (fun q => str_eqb (p_id q) (uuid4 E (draws w))) (posts (database w))
  = false ->
  http_status (fst (POST_api_post E token request w)) = 200
  /\ select_user_by_api_key token
       (database (snd (POST_api_post E token request w)))
     = Some (mk_user (u_id u) (u_email u) (u_password u) (u_api_key u)
               (u_tier u) (u_api_calls u) (u_monthly_posts u + 1)
               (u_is_admin u)).
Proof.
  intros Hu Hquota Hroom Hall Htw Hig Htext Hfresh.
  unfold POST_api_post. rewrite bearer_eq, Hu.
  assert (Htest : str_eqb (u_tier u) (lit "free") && (20 <=? u_monthly_posts u)
                  = false).
  { destruct (str_eqb (u_tier u) (lit "free")) eqn:Htier; [|reflexivity].
    apply str_eqb_eq in Htier. apply Hquota in Htier. cbn [andb].
    apply Z.leb_gt. exact Htier. }
  rewrite Htest, create_post_eq, Hall. cbn [negb].
  destruct (str_in (lit "twitter") (platforms request)) eqn:Hin.
  { apply str_in_In in Hin. contradiction. }
  cbn [andb].
  destruct (create_post_loop_isolates E request (u_id u) (platforms request) []
              (mk_world (database w) (S (draws w))))
    as (entries & w2 & -> & Hdb & Hiso); [intros H; contradiction|].
  cbn [app]. rewrite insert_post_Ok
    by (cbn [p_content p_id]; rewrite ?Hdb; assumption).
  destruct (generic_entries_validate _ _ Hiso Htw Hig) as [Hval _].
  unfold PostResponse_new. rewrite Hval. cbn [fst snd http_status database].
  split; [reflexivity|]. rewrite Hdb.
  rewrite (select_after_update_monthly_posts token (u_id u) _ u) by exact Hu.
  now rewrite str_eqb_refl, (sqlite_add_one_room _ Hroom).
Qed.

Lemma post_under_quota_counts_once_witness :
  http_status
    (fst (POST_api_post demo_env (lit "alice-key") (demo_request ["tiktok"])
            demo_world)) = 200
  /\ select_user_by_api_key (lit "alice-key")
       (database
          (snd (POST_api_post demo_env (lit "alice-key") (demo_request ["tiktok"])
                  demo_world)))
     = Some (mk_user (u_id alice) (u_email alice) (u_password alice)
               (u_api_key alice) (u_tier alice) (u_api_calls alice)
               (u_monthly_posts alice + 1) (u_is_admin alice)).
Proof.
  apply (post_under_quota_counts_once demo_env (lit "alice-key")
           (demo_request ["tiktok"]) demo_world alice).
  - reflexivity.
  - intros _. cbn. lia.
  - cbn [u_monthly_posts alice]. lia.
  - reflexivity.
  - intros [H | []]; vm_compute in H; discriminate.
  - intros [H | []]; vm_compute in H; discriminate.
  - text_literal.
  - reflexivity.
Defined.
